(** * Verification of maint/MultiStage2.py: the multistage table builder

    A shallow embedding of the table compression engine of PCRE's
    [MultiStage2.py] (Python 2): the dense table builder, the C type
    resolver, the record combiner, the record layout, the two-stage block
    compressor and the block size search, followed by the properties of
    the specification proved about them. *)

From Stdlib Require Import ZArith Lia List Ascii String.
From Stdlib Require DecimalString.
From stdpp Require Import gmap strings list fin_maps sorting.

Local Open Scope Z_scope.

(** ** Python run-time errors and the error monad *)

(** The exceptions the modelled code can raise. *)
Inductive exn : Set :=
  | ValueError | OverflowError | IndexError | AttributeError
  | AssertionError | NameError | TypeError.

Inductive result (A : Type) : Type :=
  | Ok (a : A)
  | Raise (e : exn).
Arguments Ok {A} a.
Arguments Raise {A} e.

#[global] Instance result_ret : MRet result := λ A a, Ok a.
#[global] Instance result_bind : MBind result := λ A B k r,
  match r with
  | Ok a => k a
  | Raise e => Raise e
  end.

(** A loop [for x in xs: body] threading a state and stopping at the first
    exception. *)
Fixpoint for_each {S X} (body : S → X → result S) (xs : list X) (s : S)
  : result S :=
  match xs with
  | [] => Ok s
  | x :: xs' => s' ← body s x ; for_each body xs' s'
  end.

(** ** Python built-ins used by the script *)

Module Py.

(** [min(l)] and [max(l)]: [ValueError] on an empty sequence. *)
Definition min (l : list Z) : result Z :=
  match l with
  | [] => Raise ValueError
  | x :: l' => Ok (foldl Z.min x l')
  end.

Definition max (l : list Z) : result Z :=
  match l with
  | [] => Raise ValueError
  | x :: l' => Ok (foldl Z.max x l')
  end.

(** [len(l)] as a Python integer. *)
Definition len {A} (l : list A) : Z := Z.of_nat (length l).

(** [range(start, stop, step)]: [ValueError] when [step] is zero. *)
Definition range3 (start stop step : Z) : result (list Z) :=
  if step =? 0 then Raise ValueError
  else if 0 <? step then
    Ok ((λ k, start + Z.of_nat k * step) <$>
          seq 0 (Z.to_nat ((stop - start + step - 1) `div` step)))
  else
    Ok ((λ k, start + Z.of_nat k * step) <$>
          seq 0 (Z.to_nat ((start - stop - step - 1) `div` (- step)))).

(** [range(start, stop)]. *)
Definition range2 (start stop : Z) : list Z :=
  (λ k, start + Z.of_nat k) <$> seq 0 (Z.to_nat (stop - start)).

(** [range(n)]. *)
Definition range (n : Z) : list Z := range2 0 n.

(** Slice bounds: a negative bound counts from the end, and both are
    clipped to the sequence. *)
Definition clip (n i : Z) : Z :=
  if i <? 0 then Z.max 0 (i + n) else Z.min i n.

(** [l[i:j]]. *)
Definition slice {A} (l : list A) (i j : Z) : list A :=
  let lo := clip (len l) i in
  let hi := clip (len l) j in
  take (Z.to_nat (hi - lo)) (drop (Z.to_nat lo) l).

(** [l[i]]: a negative index counts from the end; [IndexError] outside. *)
Definition getitem {A} (l : list A) (i : Z) : result A :=
  let j := if i <? 0 then i + len l else i in
  if j <? 0 then Raise IndexError
  else match l !! Z.to_nat j with
       | Some x => Ok x
       | None => Raise IndexError
       end.

(** [l[i] = v]. *)
Definition setitem {A} (l : list A) (i : Z) (v : A) : result (list A) :=
  let j := if i <? 0 then i + len l else i in
  if (j <? 0) || (len l <=? j) then Raise IndexError
  else Ok (<[Z.to_nat j := v]> l).

(** [zip] applied to the unpacked [tables]: the tuples of the values at
    each position, as long as the shortest argument; no argument gives the
    empty list. *)
Fixpoint zip_star {A} (tables : list (list A)) : list (list A) :=
  match tables with
  | [] => []
  | [t] => (λ x, [x]) <$> t
  | t :: ts => zip_with cons t (zip_star ts)
  end.

(** [map(f, l)] for an [f] that may raise. *)
Fixpoint map_r {A B} (f : A → result B) (l : list A) : result (list B) :=
  match l with
  | [] => Ok []
  | x :: l' => y ← f x ; ys ← map_r f l' ; Ok (y :: ys)
  end.

End Py.

(** ** Text: the string, format and regular expression operations used *)

Module Text.

Definition newline : ascii := ascii_of_nat 10.
Definition nl : string := String newline EmptyString.

(** [re.sub(r'#.*', '', line)]: every [#] is removed with what follows it
    up to, and not including, the next newline. *)
Fixpoint sub_comment (in_comment : bool) (s : string) : string :=
  match s with
  | EmptyString => EmptyString
  | String c s' =>
      if Ascii.eqb c newline then String c (sub_comment false s')
      else if in_comment then sub_comment true s'
      else if Ascii.eqb c "#"%char then sub_comment true s'
      else String c (sub_comment false s')
  end.

(** [s.split(sep)] for a one-character separator. *)
Fixpoint split (sep : ascii) (s : string) : list string :=
  match s with
  | EmptyString => [EmptyString]
  | String c s' =>
      if Ascii.eqb c sep then EmptyString :: split sep s'
      else match split sep s' with
           | [] => [String c EmptyString]
           | w :: ws => String c w :: ws
           end
  end.

(** The characters of [string.whitespace]. *)
Definition is_space (c : ascii) : bool :=
  let n := nat_of_ascii c in
  ((9 <=? n) && (n <=? 13))%nat || (n =? 32)%nat.

Fixpoint lstrip (s : string) : string :=
  match s with
  | EmptyString => EmptyString
  | String c s' => if is_space c then lstrip s' else s
  end.

Fixpoint rstrip (s : string) : string :=
  match s with
  | EmptyString => EmptyString
  | String c s' =>
      match rstrip s' with
      | EmptyString => if is_space c then EmptyString else String c EmptyString
      | r => String c r
      end
  end.

(** [string.strip(s)]. *)
Definition strip (s : string) : string := rstrip (lstrip s).

(** The value of a character of the class [0-9a-fA-F]. *)
Definition hex_digit (c : ascii) : option Z :=
  let n := Z.of_nat (nat_of_ascii c) in
  if (48 <=? n) && (n <=? 57) then Some (n - 48)
  else if (97 <=? n) && (n <=? 102) then Some (n - 87)
  else if (65 <=? n) && (n <=? 70) then Some (n - 55)
  else None.

(** The longest prefix matching [[0-9a-fA-F]*], and the rest. *)
Fixpoint span_hex (s : string) : string * string :=
  match s with
  | EmptyString => (EmptyString, EmptyString)
  | String c s' =>
      match hex_digit c with
      | Some _ => let '(h, r) := span_hex s' in (String c h, r)
      | None => (EmptyString, s)
      end
  end.

(** Where [$] matches: at the end, or before a newline that ends the
    string. *)
Definition at_end (s : string) : bool :=
  match s with
  | EmptyString => true
  | String c EmptyString => Ascii.eqb c newline
  | _ => false
  end.

(** [re.match(r'([0-9a-fA-F]+)(\.\.([0-9a-fA-F]+))?$', s)]: [None] when
    there is no match, else the groups 1 and 3. *)
Definition match_range (s : string) : option (string * option string) :=
  match span_hex s with
  | (EmptyString, _) => None
  | (g1, r) =>
      if at_end r then Some (g1, None)
      else match r with
           | String "."%char (String "."%char r') =>
               match span_hex r' with
               | (EmptyString, _) => None
               | (g3, r'') => if at_end r'' then Some (g1, Some g3) else None
               end
           | _ => None
           end
  end.

(** [int(s, 16)] on a string of hexadecimal digits, as the groups of
    [match_range] are; [ValueError] on an empty string or another
    character. *)
Fixpoint int16_go (acc : Z) (s : string) : result Z :=
  match s with
  | EmptyString => Ok acc
  | String c s' =>
      match hex_digit c with
      | Some d => int16_go (16 * acc + d) s'
      | None => Raise ValueError
      end
  end.

Definition int16 (s : string) : result Z :=
  match s with
  | EmptyString => Raise ValueError
  | _ => int16_go 0 s
  end.

(** [%d]. *)
Definition dec (z : Z) : string :=
  DecimalString.NilZero.string_of_int (Z.to_int z).

Definition spaces (n : nat) : string :=
  String.concat EmptyString (replicate n " "%string).

Definition zeros (n : nat) : string :=
  String.concat EmptyString (replicate n "0"%string).

(** [%wd]: right-justified in [w] columns, longer texts are kept whole. *)
Definition dec_w (w : nat) (z : Z) : string :=
  let t := dec z in (spaces (w - String.length t) ++ t)%string.

Fixpoint hex_digits (d : Hexadecimal.uint) : string :=
  match d with
  | Hexadecimal.Nil => EmptyString
  | Hexadecimal.D0 d => String "0" (hex_digits d)
  | Hexadecimal.D1 d => String "1" (hex_digits d)
  | Hexadecimal.D2 d => String "2" (hex_digits d)
  | Hexadecimal.D3 d => String "3" (hex_digits d)
  | Hexadecimal.D4 d => String "4" (hex_digits d)
  | Hexadecimal.D5 d => String "5" (hex_digits d)
  | Hexadecimal.D6 d => String "6" (hex_digits d)
  | Hexadecimal.D7 d => String "7" (hex_digits d)
  | Hexadecimal.D8 d => String "8" (hex_digits d)
  | Hexadecimal.D9 d => String "9" (hex_digits d)
  | Hexadecimal.Da d => String "A" (hex_digits d)
  | Hexadecimal.Db d => String "B" (hex_digits d)
  | Hexadecimal.Dc d => String "C" (hex_digits d)
  | Hexadecimal.Dd d => String "D" (hex_digits d)
  | Hexadecimal.De d => String "E" (hex_digits d)
  | Hexadecimal.Df d => String "F" (hex_digits d)
  end.

(** [%04X]: capital digits, padded with zeros to four columns, the sign
    first. *)
Definition hex_04 (z : Z) : string :=
  match z with
  | Z0 => "0000"%string
  | Zpos p =>
      let t := hex_digits (Pos.to_hex_uint p) in
      (zeros (4 - String.length t) ++ t)%string
  | Zneg p =>
      let t := hex_digits (Pos.to_hex_uint p) in
      ("-" ++ zeros (3 - String.length t) ++ t)%string
  end.

(** The double quote. *)
Definition quote : string := String (ascii_of_nat 34) EmptyString.

(** [fmt * n] for a format of one [%wd] followed by [sep], applied to
    [values]: [TypeError] unless there are exactly [n] of them. *)
Definition dec_row (w : nat) (sep : string) (n : Z) (values : list Z)
  : result string :=
  if Py.len values =? n
  then Ok (String.concat EmptyString ((λ v, dec_w w v ++ sep)%string <$> values))
  else Raise TypeError.

End Text.

(** ** The script *)

Definition MAX_UNICODE : Z := 0x110000.

(** *** The value of a line: [make_get_names] and [get_other_case] *)

(** [enum.index(x)]: [ValueError] when [x] is not in the list. *)
Fixpoint index_of (enum : list string) (x : string) : result Z :=
  match enum with
  | [] => Raise ValueError
  | y :: enum' =>
      if String.eqb y x then Ok 0 else i ← index_of enum' x ; Ok (i + 1)
  end.

Definition make_get_names (enum : list string) (chardata : list string)
  : result Z :=
  name ← Py.getitem chardata 1 ;
  index_of enum name.

(** The fields 12 and 13 of UnicodeData.txt are empty or hexadecimal
    digits, on which [Text.int16] is [int(s, 16)]. *)
Definition get_other_case (chardata : list string) : result Z :=
  c12 ← Py.getitem chardata 12 ;
  if negb (String.eqb c12 EmptyString) then
    other ← Text.int16 c12 ;
    c0 ← Py.getitem chardata 0 ;
    this ← Text.int16 c0 ;
    Ok (other - this)
  else
    c13 ← Py.getitem chardata 13 ;
    if negb (String.eqb c13 EmptyString) then
      other ← Text.int16 c13 ;
      c0 ← Py.getitem chardata 0 ;
      this ← Text.int16 c0 ;
      Ok (other - this)
    else Ok 0.

(** *** [read_table]: the whole table in memory *)

(** An assignment read from a line: the first code point, the last one
    when the line gives a range, and the value. *)
Definition assignment : Type := Z * option Z * Z.

(** The first half of the body of [for line in file]: [None] is
    [continue]. A failed match leaves [m] as [None], and [m.group] raises
    [AttributeError]. *)
Definition parse_line (get_value : list string → result Z) (line : string)
  : result (option assignment) :=
  let line := Text.sub_comment false line in
  let chardata := Text.strip <$> Text.split ";"%char line in
  if Py.len chardata <=? 1 then Ok None
  else
    value ← get_value chardata ;
    chardata0 ← Py.getitem chardata 0 ;
    match Text.match_range chardata0 with
    | None => Raise AttributeError
    | Some (group1, group3) =>
        char ← Text.int16 group1 ;
        match group3 with
        | None => Ok (Some (char, None, value))
        | Some g => last ← Text.int16 g ; Ok (Some (char, Some last, value))
        end
    end.

(** The second half: [last] is [char] when group 3 is [None], and
    [table[i] = value] for [i] in [range(char, last + 1)]. *)
Definition assign (table : list Z) (a : assignment) : result (list Z) :=
  let '(char, group3, value) := a in
  let last := match group3 with None => char | Some last => last end in
  for_each (λ table i, Py.setitem table i value) (Py.range2 char (last + 1))
           table.

Definition read_table_line (get_value : list string → result Z)
    (table : list Z) (line : string) : result (list Z) :=
  a ← parse_line get_value line ;
  match a with
  | None => Ok table
  | Some a => assign table a
  end.

(** [file] is the list of the lines of the opened file. *)
Definition read_table (file : list string)
    (get_value : list string → result Z) (default_value : Z)
  : result (list Z) :=
  let table := replicate (Z.to_nat MAX_UNICODE) default_value in
  for_each (read_table_line get_value) file table.

(** *** [get_type_size]: the smallest C type for the values *)

Definition type_size : list (string * Z) :=
  [("uschar"%string, 1); ("pcre_uint16"%string, 2); ("pcre_uint32"%string, 4);
   ("signed char"%string, 1); ("pcre_int16"%string, 2); ("pcre_int32"%string, 4)].

Definition limits : list (Z * Z) :=
  [(0, 255); (0, 65535); (0, 4294967295);
   (-128, 127); (-32768, 32767); (-2147483648, 2147483647)].

(** The [for num, (minlimit, maxlimit) in enumerate(limits)] loop with its
    [else] branch. *)
Fixpoint get_type_size_loop (minval maxval : Z) (l : list (nat * (Z * Z)))
  : result (string * Z) :=
  match l with
  | [] => Raise OverflowError
  | (num, (minlimit, maxlimit)) :: l' =>
      if (minlimit <=? minval) && (maxval <=? maxlimit)
      then Py.getitem type_size (Z.of_nat num)
      else get_type_size_loop minval maxval l'
  end.

Definition get_type_size (table : list Z) : result (string * Z) :=
  minval ← Py.min table ;
  maxval ← Py.max table ;
  get_type_size_loop minval maxval (imap pair limits).

(** *** [get_tables_size] *)

Definition get_tables_size (tables : list (list Z)) : result Z :=
  for_each (λ total_size table,
              '(_, size) ← get_type_size table ;
              Ok (total_size + size * Py.len table))
           tables 0.

(** *** [compress_table]: the two stages *)

(** The loop's state: the dictionary [blocks], [stage1] and [stage2]. *)
Definition compress_state : Type := gmap (list Z) Z * list Z * list Z.

(** One iteration of [for i in range(0, len(table), block_size)]. The
    division is Python 2's integer division, which rounds down as [Z.div]. *)
Definition compress_step (table : list Z) (block_size : Z)
    (st : compress_state) (i : Z) : compress_state :=
  let '(blocks, stage1, stage2) := st in
  let block := Py.slice table i (i + block_size) in
  match blocks !! block with
  | None =>
      let start := Py.len stage2 `div` block_size in
      (<[block := start]> blocks, stage1 ++ [start], stage2 ++ block)
  | Some start => (blocks, stage1 ++ [start], stage2)
  end.

Definition compress_loop (table : list Z) (block_size : Z) (starts : list Z)
  : compress_state :=
  foldl (compress_step table block_size) (∅, [], []) starts.

Definition compress_table (table : list Z) (block_size : Z)
  : result (list Z * list Z) :=
  starts ← Py.range3 0 (Py.len table) block_size ;
  let '(_, stage1, stage2) := compress_loop table block_size starts in
  Ok (stage1, stage2).

(** *** [print_table] *)

Definition ELEMS_PER_LINE : Z := 16.

(** The texts printed, one for each [print]. [MAX_UNICODE / len(table)]
    never divides by zero: [get_type_size] has raised [ValueError] on an
    empty table before. A format applied to a tuple of another length
    raises [TypeError]. *)
Definition print_table (table : list Z) (table_name : string)
    (block_size : option Z) : result (list string) :=
  '(type, size) ← get_type_size table ;
  let s := ("const " ++ type ++ " " ++ table_name ++ "[] = { /* " ++
            Text.dec (size * Py.len table) ++ " bytes")%string in
  let s := match block_size with
           | Some b => if b =? 0 then s
                       else (s ++ ", block = " ++ Text.dec b)%string
           | None => s
           end in
  let head := (s ++ " */")%string in
  body ←
    match block_size with
    | None =>
        let mult := MAX_UNICODE `div` Py.len table in
        starts ← Py.range3 0 (Py.len table) ELEMS_PER_LINE ;
        Py.map_r (λ i,
            row ← Text.dec_row 3 "," ELEMS_PER_LINE
                    (Py.slice table i (i + ELEMS_PER_LINE)) ;
            Ok (row ++ " /* U+" ++ Text.hex_04 (i * mult) ++ " */")%string)
          starts
    | Some block_size =>
        let el := if ELEMS_PER_LINE <? block_size then ELEMS_PER_LINE
                  else block_size in
        let reps := if ELEMS_PER_LINE <? block_size
                    then block_size `div` ELEMS_PER_LINE else 1 in
        starts ← Py.range3 0 (Py.len table) block_size ;
        Py.map_r (λ i,
            let block := Py.slice table i (i + block_size) in
            if Py.len block =? el * reps then
              lines ← Py.map_r (λ j, row ← Text.dec_row 3 "," el
                                        (Py.slice block j (j + el)) ;
                                     Ok (row ++ Text.nl)%string)
                        ((λ k, Z.of_nat k * el) <$> seq 0 (Z.to_nat reps)) ;
              Ok ("/* block " ++ Text.dec (i `div` block_size) ++ " */" ++
                  Text.nl ++ String.concat EmptyString lines)%string
            else Raise TypeError)
          starts
    end ;
  Ok ([head] ++ body ++ [("};" ++ Text.nl)%string]).

(** *** [combine_tables]: the unique combinations of properties *)

Definition combine_state : Type := gmap (list Z) Z * list Z.

(** One iteration of [for t in zip(...)]; [i = records[t] = len(records)]
    takes the length before the insertion. *)
Definition combine_step (st : combine_state) (t : list Z) : combine_state :=
  let '(records, index) := st in
  match records !! t with
  | None =>
      let i := Z.of_nat (size records) in
      (<[t := i]> records, index ++ [i])
  | Some i => (records, index ++ [i])
  end.

Definition combine_loop (tuples : list (list Z)) : combine_state :=
  foldl combine_step (∅, []) tuples.

Definition combine_tables (tables : list (list Z))
  : list Z * gmap (list Z) Z :=
  let '(records, index) := combine_loop (Py.zip_star tables) in
  (index, records).

(** *** [get_record_size_struct]: the size of a record and its C layout *)

Definition structure_head : string :=
  ("/* When recompiling tables with a new Unicode version," ++ Text.nl ++
   "please check types in the structure definition from pcre_internal.h:" ++
   Text.nl ++ "typedef struct {" ++ Text.nl)%string.

(** [map(lambda record: record[i], records)]. *)
Definition record_slice (records : list (list Z)) (i : Z) : result (list Z) :=
  Py.map_r (λ record, Py.getitem record i) records.

(** The padding [(size + slice_size - 1) & -slice_size]; [&] on Python
    integers is [Z.land]. *)
Definition round_up (size slice_size : Z) : Z :=
  Z.land (size + slice_size - 1) (- slice_size).

(** One iteration of [for i in range(len(records[0]))]. *)
Definition record_field (records : list (list Z)) (st : Z * string) (i : Z)
  : result (Z * string) :=
  let '(size, structure) := st in
  slice ← record_slice records i ;
  '(slice_type, slice_size) ← get_type_size slice ;
  let size := round_up size slice_size in
  let size := size + slice_size in
  Ok (size,
      (structure ++ slice_type ++ " property_" ++ Text.dec i ++ ";" ++ Text.nl)%string).

Definition get_record_size_struct (records : list (list Z))
  : result (Z * string) :=
  record0 ← Py.getitem records 0 ;
  '(size, structure) ←
    for_each (record_field records) (Py.range (Py.len record0))
             (0, structure_head) ;
  slice ← record_slice records 0 ;
  '(slice_type, slice_size) ← get_type_size slice ;
  let size := round_up size slice_size in
  Ok (size, (structure ++ "} ucd_record; */" ++ Text.nl ++ Text.nl)%string).

(** *** [test_record_size] *)

Definition tests : list (list (list Z) * Z) :=
  [ ([[3]; [6]; [6]; [1]], 1);
    ([[300]; [600]; [600]; [100]], 2);
    ([[25; 3]; [6; 6]; [34; 6]; [68; 1]], 2);
    ([[300; 3]; [6; 6]; [340; 6]; [690; 1]], 4);
    ([[3; 300]; [6; 6]; [6; 340]; [1; 690]], 4);
    ([[300; 300]; [6; 6]; [6; 340]; [1; 690]], 4);
    ([[3; 100000]; [6; 6]; [6; 123456]; [1; 690]], 8);
    ([[100000; 300]; [6; 6]; [123456; 6]; [1; 690]], 8) ].

(** [assert(size == test[1])] for each test. *)
Definition test_record_size : result () :=
  for_each (λ _ test,
              '(size, struct) ← get_record_size_struct test.1 ;
              if size =? test.2 then Ok () else Raise AssertionError)
           tests ().

(** *** The order of a dictionary *)

(** Python 2 fixes no order for the keys of a dictionary: [keys()] and
    [values()] list them in an order of the interpreter's, the same for
    both while the dictionary does not change. [dict_order] is such an
    enumeration of the items. *)
Definition dict_order : Type := gmap (list Z) Z → list (list Z * Z).

Definition valid_order (items : dict_order) : Prop :=
  ∀ m, items m ≡ₚ map_to_list m.

Definition keys (items : dict_order) (m : gmap (list Z) Z) : list (list Z) :=
  (items m).*1.

Definition values (items : dict_order) (m : gmap (list Z) Z) : list Z :=
  (items m).*2.

(** *** [print_records] *)

(** [records.sort(None, lambda x: x[1])]: sorted by the second component. *)
Definition id_le (x y : list Z * Z) : Prop := x.2 ≤ y.2.

#[global] Instance id_le_dec : RelDecision id_le.
Proof. intros x y. unfold id_le. apply _. Defined.

Definition sort_by_id (l : list (list Z * Z)) : list (list Z * Z) :=
  merge_sort id_le l.

(** [enumerate(l)]. *)
Definition enumerate {A} (l : list A) : list (Z * A) :=
  imap (λ i x, (Z.of_nat i, x)) l.

(** The rows [(record[0], i)] that the loop of [print_records] prints. *)
Definition record_rows (items : dict_order) (records : gmap (list Z) Z)
  : list (list Z * Z) :=
  let records := zip (keys items records) (values items records) in
  let records := sort_by_id records in
  (λ '(i, record), (record.1, i)) <$> enumerate records.

(** The texts printed, one for each [print]. The format has one [%6d] for
    each value of the record and one [%3d]. *)
Definition print_records (items : dict_order) (records : gmap (list Z) Z)
    (record_size : Z) : list string :=
  [("const ucd_record _pcre_ucd_records[] = { " ++
    "/* " ++ Text.dec (Z.of_nat (size records) * record_size) ++
    " bytes, record size " ++ Text.dec record_size ++ " */")%string]
  ++ ((λ '(record0, i),
         ("  {" ++
          String.concat EmptyString ((λ v, Text.dec_w 6 v ++ ", ")%string <$> record0) ++
          "}, /* " ++ Text.dec_w 3 i ++ " */")%string) <$> record_rows items records)
  ++ [("};" ++ Text.nl)%string].

(** *** The names of the scripts and of the categories *)

Definition script_names : list string :=
  ["Arabic"; "Armenian"; "Bengali"; "Bopomofo"; "Braille"; "Buginese";
   "Buhid"; "Canadian_Aboriginal"; "Cherokee"; "Common"; "Coptic";
   "Cypriot"; "Cyrillic"; "Deseret"; "Devanagari"; "Ethiopic"; "Georgian";
   "Glagolitic"; "Gothic"; "Greek"; "Gujarati"; "Gurmukhi"; "Han";
   "Hangul"; "Hanunoo"; "Hebrew"; "Hiragana"; "Inherited"; "Kannada";
   "Katakana"; "Kharoshthi"; "Khmer"; "Lao"; "Latin"; "Limbu"; "Linear_B";
   "Malayalam"; "Mongolian"; "Myanmar"; "New_Tai_Lue"; "Ogham";
   "Old_Italic"; "Old_Persian"; "Oriya"; "Osmanya"; "Runic"; "Shavian";
   "Sinhala"; "Syloti_Nagri"; "Syriac"; "Tagalog"; "Tagbanwa"; "Tai_Le";
   "Tamil"; "Telugu"; "Thaana"; "Thai"; "Tibetan"; "Tifinagh"; "Ugaritic";
   "Yi"; "Balinese"; "Cuneiform"; "Nko"; "Phags_Pa"; "Phoenician";
   "Carian"; "Cham"; "Kayah_Li"; "Lepcha"; "Lycian"; "Lydian"; "Ol_Chiki";
   "Rejang"; "Saurashtra"; "Sundanese"; "Vai"; "Avestan"; "Bamum";
   "Egyptian_Hieroglyphs"; "Imperial_Aramaic"; "Inscriptional_Pahlavi";
   "Inscriptional_Parthian"; "Javanese"; "Kaithi"; "Lisu"; "Meetei_Mayek";
   "Old_South_Arabian"; "Old_Turkic"; "Samaritan"; "Tai_Tham"; "Tai_Viet";
   "Batak"; "Brahmi"; "Mandaic"]%string.

Definition category_names : list string :=
  ["Cc"; "Cf"; "Cn"; "Co"; "Cs"; "Ll"; "Lm"; "Lo"; "Lt"; "Lu"; "Mc"; "Me";
   "Mn"; "Nd"; "Nl"; "No"; "Pc"; "Pd"; "Pe"; "Pf"; "Pi"; "Po"; "Ps"; "Sc";
   "Sk"; "Sm"; "So"; "Zl"; "Zp"; "Zs"]%string.

(** *** The search for the block size *)

(** The block sizes tried: [[2 ** i for i in range(5,10)]]. *)
Definition block_sizes : list Z := (λ i, 2 ^ i) <$> Py.range2 5 10.

(** [min_size], and [min_stage1], [min_stage2] and [min_block_size] once
    they are assigned. *)
Definition search_state : Type := Z * option (list Z * list Z * Z).

(** One iteration of [for block_size in ...]. *)
Definition search_step (table : list Z) (len_records record_size : Z)
    (st : search_state) (block_size : Z) : result search_state :=
  let '(min_size, _) := st in
  let size := len_records * record_size in
  '(stage1, stage2) ← compress_table table block_size ;
  tables_size ← get_tables_size [stage1; stage2] ;
  let size := size + tables_size in
  if size <? min_size then Ok (size, Some (stage1, stage2, block_size))
  else Ok st.

(** The loop, from [min_size = sys.maxint]. *)
Definition search (maxint : Z) (table : list Z) (len_records record_size : Z)
  : result search_state :=
  for_each (search_step table len_records record_size) block_sizes
           (maxint, None).

(** Reading [min_stage1], [min_stage2] and [min_block_size] after the
    loop: [NameError] when no iteration assigned them. *)
Definition best_of (st : search_state) : result (Z * list Z * list Z * Z) :=
  match st with
  | (min_size, Some (min_stage1, min_stage2, min_block_size)) =>
      Ok (min_size, min_stage1, min_stage2, min_block_size)
  | (_, None) => Raise NameError
  end.

(** *** The script's top level *)

(** From the three tables read to the texts printed: what the script
    does after the calls of [read_table]. [Raise e] is a run stopped by [e],
    whatever it had printed before. *)
Definition compile (items : dict_order) (maxint : Z)
    (script category other_case : list Z) : result (list string) :=
  let '(table, records) := combine_tables [script; category; other_case] in
  '(record_size, record_struct) ← get_record_size_struct (keys items records) ;
  st ← search maxint table (Z.of_nat (size records)) record_size ;
  '(min_size, min_stage1, min_stage2, min_block_size) ← best_of st ;
  let head :=
    ["#ifdef HAVE_CONFIG_H";
     "#include " ++ Text.quote ++ "config.h" ++ Text.quote;
     "#endif";
     EmptyString;
     "#include " ++ Text.quote ++ "pcre_internal.h" ++ Text.quote;
     EmptyString;
     "/* Unicode character database. */";
     "/* This file was autogenerated by the MultiStage2.py script. */";
     "/* Total size: " ++ Text.dec min_size ++ " bytes, block size: " ++
       Text.dec min_block_size ++ ". */";
     EmptyString;
     "/* The tables herein are needed only when UCP support is built */";
     "/* into PCRE. This module should not be referenced otherwise, so */";
     "/* it should not matter whether it is compiled or not. However */";
     "/* a comment was received about space saving - maybe the guy linked */";
     "/* all the modules rather than using a library - so we include a */";
     "/* condition to cut out the tables when not needed. But don't leave */";
     "/* a totally empty module because some compilers barf at that. */";
     "/* Instead, just supply small dummy tables. */";
     EmptyString;
     "#ifndef SUPPORT_UCP";
     "const ucd_record _pcre_ucd_records[] = {{0,0,0 }};";
     "const uschar _pcre_ucd_stage1[] = {0};";
     "const pcre_uint16 _pcre_ucd_stage2[] = {0};";
     "#else";
     EmptyString;
     record_struct]%string in
  let recs := print_records items records record_size in
  t1 ← print_table min_stage1 "_pcre_ucd_stage1" None ;
  t2 ← print_table min_stage2 "_pcre_ucd_stage2" (Some min_block_size) ;
  Ok (head ++ recs ++ t1 ++ t2 ++
      ["#if UCD_BLOCK_SIZE != " ++ Text.dec min_block_size;
       "#error Please correct UCD_BLOCK_SIZE in pcre_internal.h";
       "#endif";
       "#endif  /* SUPPORT_UCP */"]%string).

(** The whole script on the lines of its three data files. *)
Definition main (items : dict_order) (maxint : Z)
    (scripts_txt categories_txt unicode_data_txt : list string)
  : result (list string) :=
  _ ← test_record_size ;
  common ← index_of script_names "Common" ;
  script ← read_table scripts_txt (make_get_names script_names) common ;
  cn ← index_of category_names "Cn" ;
  category ← read_table categories_txt (make_get_names category_names) cn ;
  other_case ← read_table unicode_data_txt get_other_case 0 ;
  compile items maxint script category other_case.

(** ** Notions of the specification *)

(** The least and the greatest element of an array. *)
Definition minimum_of (l : list Z) (m : Z) : Prop :=
  m ∈ l ∧ ∀ x, x ∈ l → m ≤ x.

Definition maximum_of (l : list Z) (m : Z) : Prop :=
  m ∈ l ∧ ∀ x, x ∈ l → x ≤ m.

(** The limits [lim] contain the minimum and the maximum of the array. *)
Definition contains (lim : Z * Z) (l : list Z) : Prop :=
  ∃ mn mx, minimum_of l mn ∧ maximum_of l mx ∧ lim.1 ≤ mn ∧ mx ≤ lim.2.

(** The candidate number [k] is the first of the list whose limits contain
    the array. *)
Definition first_fit (l : list Z) (k : nat) : Prop :=
  (∃ lim, limits !! k = Some lim ∧ contains lim l) ∧
  ∀ j lim, (j < k)%nat → limits !! j = Some lim → ¬ contains lim l.

Definition signed_types : list (string * Z) :=
  [("signed char"%string, 1); ("pcre_int16"%string, 2); ("pcre_int32"%string, 4)].

(** The values of a list without their repetitions, in the order of their
    first occurrence. *)
Definition first_occurrences {A} `{EqDecision A} (l : list A) : list A :=
  foldl (λ acc x, if decide (x ∈ acc) then acc else acc ++ [x]) [] l.

(** The number of distinct values of a list. *)
Definition distinct (l : list (list Z)) : nat :=
  size (list_to_set l : gset (list Z)).

(** The blocks of [block_size] elements of a table whose length is a
    multiple of it. *)
Definition blocks_of (table : list Z) (block_size : Z) : list (list Z) :=
  (λ k, take (Z.to_nat block_size) (drop (k * Z.to_nat block_size) table)) <$>
    seq 0 (Z.to_nat (Py.len table `div` block_size)).

(** [offset] padded up as the specification writes it. *)
Definition pad (offset width : Z) : Z :=
  Z.land (offset + width - 1) (Z.lnot (width - 1)).

(** The record size of the specification from the widths of the fields:
    each field is padded to its own width, and the total to the width of
    the first field. *)
Definition layout_size (widths : list Z) : Z :=
  pad (foldl (λ offset width, pad offset width + width) 0 widths)
      (default 0 (head widths)).

(** The assignments of the lines of a file, in their order. *)
Definition assignments_of (get_value : list string → result Z)
    (file : list string) : result (list assignment) :=
  match Py.map_r (parse_line get_value) file with
  | Ok parsed => Ok (omap id parsed)
  | Raise e => Raise e
  end.

(** The end of the assignment, the start when it is omitted. *)
Definition end_of (a : assignment) : Z := default a.1.1 a.1.2.

(** The code points of the assignment are in the table: its end is, or its
    range is empty. *)
Definition in_table (a : assignment) : Prop :=
  end_of a < MAX_UNICODE ∨ end_of a < a.1.1.

(** The assignment covers the code point [c]: [c] is between its start and
    its end, the end being the start when it is omitted. *)
Definition covers (c : Z) (a : assignment) : Prop :=
  a.1.1 ≤ c ≤ end_of a.

#[global] Instance covers_dec c a : Decision (covers c a).
Proof. unfold covers. apply _. Defined.

(** The value of the last assignment that covers [c], or the default. *)
Definition last_write (assignments : list assignment) (default_value c : Z)
  : Z :=
  match last (filter (covers c) assignments) with
  | Some a => a.2
  | None => default_value
  end.

(** The block size [block_size] gives the stages [stage1] and [stage2] and
    the total size [size]: the bytes of the record table, the number of
    records times the size of one, plus the bytes of each stage, its length
    times the width that the stage resolves to on its own. *)
Definition scored (table : list Z) (len_records record_size block_size : Z)
    (stage1 stage2 : list Z) (size : Z) : Prop :=
  compress_table table block_size = Ok (stage1, stage2) ∧
  ∃ ty1 ty2,
    get_type_size stage1 = Ok ty1 ∧ get_type_size stage2 = Ok ty2 ∧
    size = len_records * record_size +
           ty1.2 * Py.len stage1 + ty2.2 * Py.len stage2.

(** The values of [u], each with its position as its number. *)
Definition numbering (u : list (list Z)) : list (list Z * Z) :=
  imap (λ p t, (t, Z.of_nat p)) u.

(** ** Invariants of the two deduplication loops *)

(** The dictionary [d] numbers the values of [u] by their position. *)
Definition numbered (u : list (list Z)) (d : gmap (list Z) Z) : Prop :=
  ∀ x s, d !! x = Some s ↔ ∃ p : nat, s = Z.of_nat p ∧ u !! p = Some x.

(** [ids] gives, for each value of [xs], its position in [u]. *)
Definition indexed (u xs : list (list Z)) (ids : list Z) : Prop :=
  Forall2 (λ x s, ∃ p : nat, s = Z.of_nat p ∧ u !! p = Some x) xs ids.

(** The state of [compress_table] after the blocks [bs]. *)
Definition compress_inv (bs : list (list Z)) (st : compress_state) : Prop :=
  let '(blocks, stage1, stage2) := st in
  let u := first_occurrences bs in
  numbered u blocks ∧ indexed u bs stage1 ∧ stage2 = concat u.

(** The state of [combine_tables] after the tuples [ts]. *)
Definition combine_inv (ts : list (list Z)) (st : combine_state) : Prop :=
  let '(records, index) := st in
  let u := first_occurrences ts in
  numbered u records ∧ indexed u ts index ∧ size records = length u.

(** * Properties *)

(** ** The definitions on small inputs *)

Example get_type_size_small :
  get_type_size [0; 130; 7] = Ok ("uschar"%string, 1).
Proof. reflexivity. Qed.

Example get_type_size_negative :
  get_type_size [3; -5; 7] = Ok ("signed char"%string, 1).
Proof. reflexivity. Qed.

Example get_type_size_empty : get_type_size [] = Raise ValueError.
Proof. reflexivity. Qed.

Example range3_examples :
  Py.range3 0 9 2 = Ok [0; 2; 4; 6; 8] ∧ Py.range3 9 0 (-2) = Ok [9; 7; 5; 3; 1] ∧
  Py.range3 0 9 0 = Raise ValueError.
Proof. done. Qed.

Example slice_examples :
  Py.slice [1; 2; 3; 4; 5] 2 4 = [3; 4] ∧ Py.slice [1; 2; 3; 4; 5] 4 6 = [5] ∧
  Py.slice [1; 2; 3; 4; 5] (-2) 10 = [4; 5] ∧ Py.slice [1; 2; 3; 4; 5] 3 2 = [].
Proof. done. Qed.

(** A last block shorter than the others is kept as it is; a block size
    of zero is refused by [range], and a negative one gives no block. *)
Example compress_table_examples :
  compress_table [0; 0; 1; 2; 0; 0; 1; 2; 3] 2
    = Ok ([0; 1; 0; 1; 2], [0; 0; 1; 2; 3]) ∧
  compress_table [0; 0; 1; 2] 0 = Raise ValueError ∧
  compress_table [0; 0; 1; 2] (-2) = Ok ([], []).
Proof. split_and!; vm_compute; reflexivity. Qed.

Example parse_line_examples :
  let get_value chardata :=
    x ← Py.getitem chardata 1 ; Ok (Z.of_nat (String.length x)) in
  parse_line get_value
    ("0041..005A    ; Latin # L&  [26] LATIN CAPITAL LETTER A..Z" ++ Text.nl)
    = Ok (Some (65, Some 90, 5)) ∧
  parse_line get_value ("00AA          ; Latin # L&" ++ Text.nl)
    = Ok (Some (170, None, 5)) ∧
  parse_line get_value ("# Scripts-6.0.0.txt" ++ Text.nl) = Ok None ∧
  parse_line get_value Text.nl = Ok None ∧
  parse_line get_value ("0041.. ; Latin" ++ Text.nl) = Raise AttributeError.
Proof. split_and!; vm_compute; reflexivity. Qed.

Example format_examples :
  Text.dec (-15) = "-15"%string ∧ Text.dec_w 6 (-32) = "   -32"%string ∧
  Text.dec_w 3 1234 = "1234"%string ∧ Text.hex_04 171 = "00AB"%string ∧
  Text.hex_04 1114111 = "10FFFF"%string ∧ Text.hex_04 (-171) = "-0AB"%string.
Proof. split_and!; reflexivity. Qed.

Example print_records_example :
  print_records map_to_list
    (combine_tables [[33; 33; 9]; [5; 9; 29]; [-32; 32; 0]]).2 6 =
  ["const ucd_record _pcre_ucd_records[] = { /* 18 bytes, record size 6 */";
   "  {    33,      5,    -32, }, /*   0 */";
   "  {    33,      9,     32, }, /*   1 */";
   "  {     9,     29,      0, }, /*   2 */";
   "};" ++ Text.nl]%string.
Proof. vm_compute. reflexivity. Qed.


(** ** The error monad *)

Lemma bind_Ok {A B} (r : result A) (k : A → result B) b :
  r ≫= k = Ok b ↔ ∃ a, r = Ok a ∧ k a = Ok b.
Proof.
  destruct r as [a|e]; simpl; split.
  - eauto.
  - by intros (a' & [= <-] & ?).
  - done.
  - by intros (a' & ? & ?).
Qed.

Lemma for_each_app {S X} (body : S → X → result S) xs ys s :
  for_each body (xs ++ ys) s = for_each body xs s ≫= for_each body ys.
Proof.
  revert s. induction xs as [|x xs IH]; intros s; simpl; [done|].
  destruct (body s x); simpl; auto.
Qed.

Lemma getitem_nat {A} (l : list A) (k : nat) :
  Py.getitem l (Z.of_nat k) =
  match l !! k with Some x => Ok x | None => Raise IndexError end.
Proof.
  unfold Py.getitem.
  destruct (Z.ltb_spec (Z.of_nat k) 0); [lia|].
  destruct (Z.ltb_spec (Z.of_nat k) 0); [lia|].
  by rewrite Nat2Z.id.
Qed.

(** ** [get_type_size] *)

Lemma foldl_min_spec (l : list Z) x :
  minimum_of (x :: l) (foldl Z.min x l).
Proof.
  revert x. induction l as [|y l IH]; intros x; simpl.
  - split; [set_solver|]. intros z Hz%list_elem_of_singleton. lia.
  - destruct (IH (x `min` y)) as [Hin Hle]. split.
    + rewrite elem_of_cons in Hin. destruct Hin as [E|Hin]; [|set_solver].
      rewrite E. destruct (Z.min_spec x y) as [[_ ->]|[_ ->]]; set_solver.
    + intros z Hz. pose proof (Hle (x `min` y) ltac:(set_solver)).
      rewrite !elem_of_cons in Hz. destruct Hz as [E|[E|Hz]]; [lia|lia|].
      apply Hle. set_solver.
Qed.

Lemma foldl_max_spec (l : list Z) x :
  maximum_of (x :: l) (foldl Z.max x l).
Proof.
  revert x. induction l as [|y l IH]; intros x; simpl.
  - split; [set_solver|]. intros z Hz%list_elem_of_singleton. lia.
  - destruct (IH (x `max` y)) as [Hin Hle]. split.
    + rewrite elem_of_cons in Hin. destruct Hin as [E|Hin]; [|set_solver].
      rewrite E. destruct (Z.max_spec x y) as [[_ ->]|[_ ->]]; set_solver.
    + intros z Hz. pose proof (Hle (x `max` y) ltac:(set_solver)).
      rewrite !elem_of_cons in Hz. destruct Hz as [E|[E|Hz]]; [lia|lia|].
      apply Hle. set_solver.
Qed.

Lemma min_Ok (l : list Z) : l ≠ [] → ∃ m, Py.min l = Ok m ∧ minimum_of l m.
Proof. destruct l; [done|]. eexists; split; [done|]. apply foldl_min_spec. Qed.

Lemma max_Ok (l : list Z) : l ≠ [] → ∃ m, Py.max l = Ok m ∧ maximum_of l m.
Proof. destruct l; [done|]. eexists; split; [done|]. apply foldl_max_spec. Qed.

Lemma minimum_of_unique l m m' : minimum_of l m → minimum_of l m' → m = m'.
Proof. intros [H1 H2] [H3 H4]. specialize (H2 _ H3). specialize (H4 _ H1). lia. Qed.

Lemma maximum_of_unique l m m' : maximum_of l m → maximum_of l m' → m = m'.
Proof. intros [H1 H2] [H3 H4]. specialize (H2 _ H3). specialize (H4 _ H1). lia. Qed.

Lemma contains_iff l mn mx lim :
  minimum_of l mn → maximum_of l mx →
  contains lim l ↔ lim.1 ≤ mn ∧ mx ≤ lim.2.
Proof.
  intros Hmn Hmx. split.
  - intros (mn' & mx' & Hmn' & Hmx' & ? & ?).
    rewrite (minimum_of_unique _ _ _ Hmn Hmn'), (maximum_of_unique _ _ _ Hmx Hmx').
    done.
  - intros [??]. by exists mn, mx.
Qed.

Lemma contains_Forall l lim :
  l ≠ [] → contains lim l ↔ Forall (λ x, lim.1 ≤ x ≤ lim.2) l.
Proof.
  intros Hl. destruct (min_Ok l Hl) as (mn & _ & Hmn).
  destruct (max_Ok l Hl) as (mx & _ & Hmx).
  rewrite (contains_iff _ _ _ _ Hmn Hmx), Forall_forall.
  destruct Hmn as [Hmn1 Hmn2], Hmx as [Hmx1 Hmx2]. split.
  - intros [??] x Hx. specialize (Hmn2 _ Hx). specialize (Hmx2 _ Hx). lia.
  - intros H. pose proof (H _ Hmn1). pose proof (H _ Hmx1). lia.
Qed.

(** The loop of [get_type_size] finds the first limits that fit. *)
Lemma get_type_size_loop_find mn mx (l : list (Z * Z)) (off : nat) :
  get_type_size_loop mn mx (imap (λ i, pair (off + i)%nat) l) =
  match list_find (λ lim, lim.1 ≤ mn ∧ mx ≤ lim.2) l with
  | Some (k, _) => Py.getitem type_size (Z.of_nat (off + k))
  | None => Raise OverflowError
  end.
Proof.
  revert off. induction l as [|[lo hi] l IH]; intros off; [done|].
  cbn [imap get_type_size_loop list_find]. simpl.
  case_decide as Hfit.
  - destruct Hfit. rewrite Nat.add_0_r.
    destruct (Z.leb_spec lo mn), (Z.leb_spec mx hi); simpl; try lia. done.
  - replace ((lo <=? mn) && (mx <=? hi)) with false by
      (destruct (Z.leb_spec lo mn), (Z.leb_spec mx hi); simpl; try done; lia).
    rewrite (imap_ext _ (λ i, pair (S off + i)%nat) l)
      by (intros; simpl; f_equal; lia).
    rewrite IH. destruct (list_find _ l) as [[k ?]|]; simpl; [|done].
    f_equal. lia.
Qed.

Lemma get_type_size_find table mn mx :
  minimum_of table mn → maximum_of table mx →
  get_type_size table =
  match list_find (λ lim, lim.1 ≤ mn ∧ mx ≤ lim.2) limits with
  | Some (k, _) => Py.getitem type_size (Z.of_nat k)
  | None => Raise OverflowError
  end.
Proof.
  intros Hmn Hmx.
  assert (table ≠ []) as Hne by (destruct Hmn as [Hin _]; by destruct Hin).
  destruct (min_Ok _ Hne) as (mn' & Emn & Hmn').
  destruct (max_Ok _ Hne) as (mx' & Emx & Hmx').
  rewrite (minimum_of_unique _ _ _ Hmn Hmn'), (maximum_of_unique _ _ _ Hmx Hmx').
  unfold get_type_size. rewrite Emn, Emx. simpl.
  apply (get_type_size_loop_find mn' mx' limits 0).
Qed.

Lemma first_fit_find table mn mx k :
  minimum_of table mn → maximum_of table mx →
  first_fit table k ↔
  ∃ lim, list_find (λ lim, lim.1 ≤ mn ∧ mx ≤ lim.2) limits = Some (k, lim).
Proof.
  intros Hmn Hmx. unfold first_fit. split.
  - intros [(lim & Hk & Hc) Hfirst]. exists lim. apply list_find_Some.
    split; [done|]. split; [by apply (contains_iff table)|].
    intros j y Hj Hlt Hy. apply (Hfirst j y); [lia|done|].
    by apply (contains_iff table mn mx).
  - intros (lim & (Hk & Hc & Hfirst)%list_find_Some). split.
    + exists lim. split; [done|]. by apply (contains_iff table mn mx).
    + intros j y Hlt Hj Hy%(contains_iff table mn mx); [|done..].
      by apply (Hfirst j y).
Qed.

(** The outcome of [get_type_size] by cases on the minimum and maximum. *)
Lemma get_type_size_cases table mn mx :
  minimum_of table mn → maximum_of table mx →
  get_type_size table =
    if decide (0 ≤ mn ∧ mx ≤ 255) then Ok ("uschar"%string, 1)
    else if decide (0 ≤ mn ∧ mx ≤ 65535) then Ok ("pcre_uint16"%string, 2)
    else if decide (0 ≤ mn ∧ mx ≤ 4294967295) then Ok ("pcre_uint32"%string, 4)
    else if decide (-128 ≤ mn ∧ mx ≤ 127) then Ok ("signed char"%string, 1)
    else if decide (-32768 ≤ mn ∧ mx ≤ 32767) then Ok ("pcre_int16"%string, 2)
    else if decide (-2147483648 ≤ mn ∧ mx ≤ 2147483647)
         then Ok ("pcre_int32"%string, 4)
    else Raise OverflowError.
Proof.
  intros Hmn Hmx. rewrite (get_type_size_find _ _ _ Hmn Hmx).
  unfold limits. cbn [list_find fst snd].
  repeat (case_decide; [reflexivity|]); reflexivity.
Qed.

(** Claim C3, as amended: for every non-empty array, when the candidate
    number [k] is the first of the ordered list (unsigned 8, 16 and 32 bits,
    then signed 8, 16 and 32 bits) whose limits contain the minimum and the
    maximum, [get_type_size] returns the type and size of that candidate,
    and no candidate that contains the array is narrower; a type returned
    is always that of the first fit. An array with all values in [0, 130]
    resolves to the 1-byte unsigned type. An array containing -5 never
    resolves to an unsigned type, and resolves to a signed type when all
    its values are within the signed 32-bit limits. *)
Theorem get_type_size_first_fit (table : list Z) :
  table ≠ [] →
  (∀ k, first_fit table k →
     ∃ ty, type_size !! k = Some ty ∧ get_type_size table = Ok ty ∧
       ∀ j lim ty', limits !! j = Some lim → type_size !! j = Some ty' →
                    contains lim table → ty.2 ≤ ty'.2) ∧
  (∀ ty, get_type_size table = Ok ty →
     ∃ k, first_fit table k ∧ type_size !! k = Some ty) ∧
  (Forall (λ x, 0 ≤ x ≤ 130) table →
     get_type_size table = Ok ("uschar"%string, 1)) ∧
  (-5 ∈ table →
     (∀ ty, get_type_size table = Ok ty → ty ∈ signed_types) ∧
     (Forall (λ x, -2147483648 ≤ x ≤ 2147483647) table →
        ∃ ty, get_type_size table = Ok ty ∧ ty ∈ signed_types)).
Proof.
  intros Hne.
  destruct (min_Ok _ Hne) as (mn & _ & Hmn).
  destruct (max_Ok _ Hne) as (mx & _ & Hmx).
  pose proof (get_type_size_find _ _ _ Hmn Hmx) as Hfind.
  pose proof (get_type_size_cases _ _ _ Hmn Hmx) as Hcases.
  split_and!.
  - intros k (lim & Hk)%(first_fit_find table mn mx); [|done..].
    rewrite Hk, getitem_nat in Hfind.
    apply list_find_Some in Hk as (Hk & Hfit & Hfirst).
    assert (k < 6)%nat as Hlt by (apply lookup_lt_Some in Hk; done).
    destruct (type_size !! k) as [ty|] eqn:Ety;
      [|apply lookup_ge_None in Ety; simpl in Ety; lia].
    exists ty. split_and!; [done..|].
    intros j lim' ty' Hj Hty' Hc%(contains_iff table mn mx); [|done..].
    rewrite Hcases in Hfind. simpl in Hc.
    repeat case_decide; simplify_eq;
      (do 6 (destruct j as [|j]; [simplify_eq/=; lia|]); done).
  - intros ty Hty. rewrite Hty in Hfind.
    destruct (list_find _ limits) as [[k lim]|] eqn:Ek; [|done].
    exists k. split; [apply (first_fit_find table mn mx); eauto|].
    rewrite getitem_nat in Hfind. by destruct (type_size !! k); simplify_eq.
  - intros Hall. rewrite Hcases.
    destruct Hmn as [Hmn _], Hmx as [Hmx _].
    rewrite Forall_forall in Hall.
    pose proof (Hall _ Hmn). pose proof (Hall _ Hmx).
    rewrite decide_True by lia. done.
  - intros Hin. destruct Hmn as [Hmn1 Hmn2], Hmx as [Hmx1 Hmx2].
    pose proof (Hmn2 _ Hin). pose proof (Hmx2 _ Hin). split.
    + intros ty. rewrite Hcases. unfold signed_types.
      repeat case_decide; intros [= <-]; try lia; set_solver.
    + intros Hall. rewrite Forall_forall in Hall.
      pose proof (Hall _ Hmn1). pose proof (Hall _ Hmx1).
      rewrite Hcases. unfold signed_types.
      repeat case_decide; try lia; eexists; (split; [done|]); set_solver.
Qed.

(** The theorem at the array [3, -5, 300]. *)
Lemma get_type_size_first_fit_witness :
  get_type_size [3; -5; 300] = Ok ("pcre_int16"%string, 2).
Proof.
  destruct (get_type_size_first_fit [3; -5; 300] ltac:(done))
    as (_ & _ & _ & Hneg).
  destruct (Hneg ltac:(set_solver)) as [_ H].
  destruct H as (ty & Hty & _); [repeat constructor; lia|].
  reflexivity.
Defined.

(** Claim C3 as stated fails: an array containing -5 and 2147483648 does
    not resolve to a signed type, [get_type_size] raises [OverflowError]. *)
Lemma get_type_size_minus5_overflow :
  -5 ∈ [-5; 2147483648] ∧
  get_type_size [-5; 2147483648] = Raise OverflowError.
Proof. split; [set_solver|reflexivity]. Qed.

(** Claim C4: for every non-empty array of minimum [mn] and maximum [mx],
    [get_type_size] raises [OverflowError] exactly when [mn] is below
    -2147483648, or [mx] is above 4294967295, or [mn] is negative and [mx]
    above 2147483647; that is exactly when no candidate's limits contain
    the array; otherwise it returns a type. *)
Theorem get_type_size_overflow (table : list Z) mn mx :
  table ≠ [] → minimum_of table mn → maximum_of table mx →
  (get_type_size table = Raise OverflowError ↔
     mn < -2147483648 ∨ mx > 4294967295 ∨ (mn < 0 ∧ mx > 2147483647)) ∧
  (get_type_size table = Raise OverflowError ↔
     ∀ k lim, limits !! k = Some lim → ¬ contains lim table) ∧
  (get_type_size table ≠ Raise OverflowError →
     ∃ ty, get_type_size table = Ok ty).
Proof.
  intros Hne Hmn Hmx.
  pose proof (get_type_size_cases _ _ _ Hmn Hmx) as Hcases.
  assert (mn ≤ mx) by (destruct Hmn as [H1 _], Hmx as [_ H2]; auto).
  split_and!.
  - rewrite Hcases. repeat case_decide; split; (done || lia).
  - rewrite (get_type_size_find _ _ _ Hmn Hmx). split.
    + destruct (list_find _ limits) as [[k lim]|] eqn:Ek.
      * rewrite getitem_nat. apply list_find_Some in Ek as (Hk & _).
        apply lookup_lt_Some in Hk.
        destruct (type_size !! k) eqn:E; [done|].
        apply lookup_ge_None in E. simpl in *. lia.
      * intros _ k lim Hk Hc%(contains_iff table mn mx); [|done..].
        rewrite list_find_None, Forall_forall in Ek.
        apply (Ek lim); [|done]. by apply list_elem_of_lookup_2 in Hk.
    + intros Hno. destruct (list_find _ limits) as [[k lim]|] eqn:Ek; [|done].
      apply list_find_Some in Ek as (Hk & Hfit & _).
      destruct (Hno k lim Hk). by apply (contains_iff table mn mx).
  - rewrite Hcases. repeat case_decide; intros ?; eauto. done.
Qed.

(** The theorem at the array [-1, 2147483648]. *)
Lemma get_type_size_overflow_witness :
  get_type_size [-1; 2147483648] = Raise OverflowError.
Proof.
  assert (minimum_of [-1; 2147483648] (-1)) as Hmn.
  { split; [set_solver|]. intros x Hx. rewrite !elem_of_cons in Hx.
    destruct Hx as [->|[->|Hx]]; [lia|lia|by apply elem_of_nil in Hx]. }
  assert (maximum_of [-1; 2147483648] 2147483648) as Hmx.
  { split; [set_solver|]. intros x Hx. rewrite !elem_of_cons in Hx.
    destruct Hx as [->|[->|Hx]]; [lia|lia|by apply elem_of_nil in Hx]. }
  destruct (get_type_size_overflow [-1; 2147483648] (-1) 2147483648
              ltac:(done) Hmn Hmx) as [[_ H] _].
  apply H. lia.
Defined.

(** ** Values in the order of their first occurrence *)

Section first_occurrences.
Context {A : Type} `{EqDecision A}.
Implicit Types l : list A.

Lemma first_occurrences_snoc l x :
  first_occurrences (l ++ [x]) =
  if decide (x ∈ first_occurrences l) then first_occurrences l
  else first_occurrences l ++ [x].
Proof. unfold first_occurrences. by rewrite foldl_app. Qed.

Lemma elem_of_first_occurrences l x : x ∈ first_occurrences l ↔ x ∈ l.
Proof.
  induction l as [|y l IH] using rev_ind; [done|].
  rewrite first_occurrences_snoc. case_decide as Hy.
  - rewrite elem_of_app, list_elem_of_singleton, <- IH.
    split; [tauto|]. intros [?| ->]; done.
  - by rewrite !elem_of_app, IH.
Qed.

Lemma NoDup_first_occurrences l : NoDup (first_occurrences l).
Proof.
  induction l as [|y l IH] using rev_ind; [constructor|].
  rewrite first_occurrences_snoc. case_decide as Hy; [done|].
  apply NoDup_app. split_and!; [done| |apply NoDup_singleton].
  intros x Hx ->%list_elem_of_singleton. done.
Qed.

(** The order is that of the first occurrences: a value listed before
    another one occurs in [l] before every occurrence of the other. *)
Lemma first_occurrences_order l p q x y :
  first_occurrences l !! p = Some x → first_occurrences l !! q = Some y →
  (p < q)%nat →
  ∃ i, l !! i = Some x ∧ ∀ j, l !! j = Some y → (i < j)%nat.
Proof.
  revert p q x y. induction l as [|z l IH] using rev_ind; [done|].
  intros p q x y. rewrite first_occurrences_snoc. case_decide as Hz.
  - intros Hp Hq Hlt. destruct (IH _ _ _ _ Hp Hq Hlt) as (i & Hi & Hfirst).
    exists i. split; [by apply lookup_app_l_Some|].
    intros j [Hj|[Hj1 Hj2]]%lookup_app_Some; [by apply Hfirst|].
    apply lookup_lt_Some in Hi. lia.
  - intros Hp Hq Hlt.
    apply lookup_app_Some in Hq as [Hq|[Hq1 Hq2]].
    + rewrite lookup_app_l in Hp by (apply lookup_lt_Some in Hq; lia).
      destruct (IH _ _ _ _ Hp Hq Hlt) as (i & Hi & Hfirst).
      exists i. split; [by apply lookup_app_l_Some|].
      intros j [Hj|[Hj1 Hj2]]%lookup_app_Some; [by apply Hfirst|].
      apply lookup_lt_Some in Hi. lia.
    + apply list_lookup_singleton_Some in Hq2 as [Hq0 ->].
      rewrite lookup_app_l in Hp by lia.
      assert (x ∈ l) as (i & Hi)%list_elem_of_lookup_1.
      { apply elem_of_first_occurrences. by eapply list_elem_of_lookup_2. }
      exists i. split; [by apply lookup_app_l_Some|].
      intros j [Hj|[Hj1 Hj2]]%lookup_app_Some.
      * destruct Hz. apply elem_of_first_occurrences.
        by eapply list_elem_of_lookup_2.
      * apply lookup_lt_Some in Hi. lia.
Qed.
End first_occurrences.

Lemma length_first_occurrences (l : list (list Z)) :
  length (first_occurrences l) = distinct l.
Proof.
  unfold distinct.
  rewrite <- (size_list_to_set (C:=gset (list Z)) (first_occurrences l))
    by apply NoDup_first_occurrences.
  f_equal. apply set_eq. intros x.
  by rewrite !elem_of_list_to_set, elem_of_first_occurrences.
Qed.

(** ** Lists of blocks of one length *)

Lemma length_concat_uniform {A} (u : list (list A)) n :
  Forall (λ b, length b = n) u → length (concat u) = (length u * n)%nat.
Proof.
  induction 1 as [|b u Hb _ IH]; [done|].
  simpl. rewrite length_app, IH, Hb. lia.
Qed.

Lemma lookup_concat_uniform {A} (u : list (list A)) n p j b :
  Forall (λ b, length b = n) u → u !! p = Some b → (j < n)%nat →
  concat u !! (p * n + j)%nat = b !! j.
Proof.
  intros Hu. revert p. induction Hu as [|b0 u Hb0 _ IH]; intros p Hp Hj; [done|].
  destruct p as [|p]; simpl in *.
  - simplify_eq. by rewrite lookup_app_l by lia.
  - rewrite lookup_app_r by lia.
    replace (n + p * n + j - length b0)%nat with (p * n + j)%nat by lia. auto.
Qed.
(** ** Numbering the values of a list *)

Lemma numbered_empty : numbered [] ∅.
Proof.
  intros x s. rewrite lookup_empty. split; [done|]. by intros (p & _ & ?).
Qed.

Lemma numbered_elem_of u d x : numbered u d → x ∈ u ↔ is_Some (d !! x).
Proof.
  intros Hd. split.
  - intros (p & Hp)%list_elem_of_lookup_1. exists (Z.of_nat p).
    apply Hd. eauto.
  - intros (s & (p & _ & Hp)%Hd). by eapply list_elem_of_lookup_2.
Qed.

Lemma numbered_snoc u d x :
  numbered u d → x ∉ u →
  numbered (u ++ [x]) (<[x := Z.of_nat (length u)]> d).
Proof.
  intros Hd Hx y s. destruct (decide (x = y)) as [<-|Hne].
  - rewrite lookup_insert_eq. split.
    + intros [= <-]. exists (length u). split; [done|].
      by rewrite lookup_app_r, Nat.sub_diag.
    + intros (p & -> & [Hp|[Hp1 Hp2]]%lookup_app_Some).
      * destruct Hx. by eapply list_elem_of_lookup_2.
        * apply list_lookup_singleton_Some in Hp2 as [Hp2 _].
        do 2 f_equal. lia.
  - rewrite lookup_insert_ne by done. rewrite (Hd y s). split.
    + intros (p & -> & Hp). exists p. split; [done|].
      by apply lookup_app_l_Some.
    + intros (p & -> & [Hp|[Hp1 Hp2]]%lookup_app_Some); [eauto|].
      by apply list_lookup_singleton_Some in Hp2 as [_ ?].
Qed.

Lemma indexed_snoc_r u xs ids x :
  indexed u xs ids → indexed (u ++ [x]) xs ids.
Proof.
  intros Hi. eapply Forall2_impl; [exact Hi|]. simpl.
  intros y s (p & -> & Hp). exists p.
  split; [done|]. by apply lookup_app_l_Some.
Qed.

Lemma indexed_snoc u xs ids x s :
  indexed u xs ids → (∃ p : nat, s = Z.of_nat p ∧ u !! p = Some x) →
  indexed u (xs ++ [x]) (ids ++ [s]).
Proof. intros Hi Hx. apply Forall2_app; [done|]. by repeat constructor. Qed.

Lemma indexed_lookup u xs ids k x :
  indexed u xs ids → xs !! k = Some x →
  ∃ p : nat, ids !! k = Some (Z.of_nat p) ∧ u !! p = Some x.
Proof.
  intros Hi Hk. destruct (Forall2_lookup_l _ _ _ _ _ Hi Hk) as (s & Hs & p & -> & Hp).
  eauto.
Qed.

(** ** [compress_table] *)

Lemma compress_inv_step table B bs st i :
  0 < B →
  Forall (λ b, length b = Z.to_nat B) bs →
  length (Py.slice table i (i + B)) = Z.to_nat B →
  compress_inv bs st →
  compress_inv (bs ++ [Py.slice table i (i + B)]) (compress_step table B st i).
Proof.
  intros HB Hbs Hb. destruct st as [[blocks stage1] stage2].
  intros (Hnum & Hidx & ->). unfold compress_step, compress_inv.
  set (b := Py.slice table i (i + B)) in *.
  rewrite first_occurrences_snoc.
  destruct (blocks !! b) as [s|] eqn:Eb.
  - assert (b ∈ first_occurrences bs) as Hin.
    { apply (numbered_elem_of _ _ _ Hnum). eauto. }
    rewrite decide_True by done. split_and!; [done| |done].
    apply indexed_snoc; [done|]. by apply Hnum.
  - assert (b ∉ first_occurrences bs) as Hin.
    { rewrite (numbered_elem_of _ _ _ Hnum), Eb. by intros [? ?]. }
    rewrite decide_False by done.
    assert (Py.len (concat (first_occurrences bs)) `div` B
            = Z.of_nat (length (first_occurrences bs))) as ->.
    { unfold Py.len. rewrite (length_concat_uniform _ (Z.to_nat B)).
      - rewrite Nat2Z.inj_mul, Z2Nat.id by lia. apply Z.div_mul. lia.
      - apply Forall_forall. intros x Hx.
        rewrite elem_of_first_occurrences in Hx.
        rewrite Forall_forall in Hbs. by apply Hbs. }
    split_and!.
    + by apply numbered_snoc.
    + apply indexed_snoc; [by apply indexed_snoc_r|].
      exists (length (first_occurrences bs)). split; [done|].
      by rewrite lookup_app_r, Nat.sub_diag.
    + rewrite concat_app. simpl. by rewrite app_nil_r.
Qed.

Lemma compress_loop_inv table B starts :
  0 < B →
  Forall (λ i, length (Py.slice table i (i + B)) = Z.to_nat B) starts →
  compress_inv ((λ i, Py.slice table i (i + B)) <$> starts)
               (compress_loop table B starts).
Proof.
  intros HB. unfold compress_loop.
  induction starts as [|i starts IH] using rev_ind; intros Hall.
  - simpl. split_and!; [apply numbered_empty|constructor|done].
  - rewrite Forall_app, Forall_singleton in Hall. destruct Hall as [Hall Hi].
    rewrite foldl_app, fmap_app. simpl.
    apply compress_inv_step; [done| |exact Hi|by apply IH].
    apply Forall_fmap. eapply Forall_impl; [exact Hall|]. done.
Qed.

Lemma range3_blocks L B :
  0 < B → 0 ≤ L → L `mod` B = 0 →
  Py.range3 0 L B = Ok ((λ k, Z.of_nat k * B) <$> seq 0 (Z.to_nat (L `div` B))).
Proof.
  intros HB HL Hmod. unfold Py.range3.
  destruct (Z.eqb_spec B 0); [lia|]. destruct (Z.ltb_spec 0 B); [|lia].
  f_equal. replace ((L - 0 + B - 1) `div` B) with (L `div` B).
  - apply list_fmap_ext. intros; lia.
  - pose proof (Z.div_mod L B ltac:(lia)) as HLB. rewrite Hmod in HLB.
    set (q := L `div` B) in *.
    replace (L - 0 + B - 1) with (q * B + (B - 1)) by lia.
    rewrite Z.div_add_l by lia. rewrite (Z.div_small (B - 1) B); lia.
Qed.

Lemma slice_block (table : list Z) B (k : nat) :
  0 < B → Py.len table `mod` B = 0 → (k < Z.to_nat (Py.len table `div` B))%nat →
  Py.slice table (Z.of_nat k * B) (Z.of_nat k * B + B) =
    take (Z.to_nat B) (drop (k * Z.to_nat B) table) ∧
  length (Py.slice table (Z.of_nat k * B) (Z.of_nat k * B + B)) = Z.to_nat B.
Proof.
  intros HB Hmod Hk.
  pose proof (Z.div_mod (Py.len table) B ltac:(lia)) as HLB. rewrite Hmod in HLB.
  assert (0 ≤ Py.len table) by (unfold Py.len; lia).
  assert (0 ≤ Py.len table `div` B) by (apply Z.div_pos; lia).
  assert (Z.of_nat k * B + B ≤ Py.len table) by nia.
  unfold Py.slice, Py.clip.
  destruct (Z.ltb_spec (Z.of_nat k * B) 0); [nia|].
  destruct (Z.ltb_spec (Z.of_nat k * B + B) 0); [nia|].
  rewrite !Z.min_l by lia.
  replace (Z.to_nat (Z.of_nat k * B + B - Z.of_nat k * B)) with (Z.to_nat B) by lia.
  replace (Z.to_nat (Z.of_nat k * B)) with (k * Z.to_nat B)%nat by nia.
  split; [done|]. rewrite length_take, length_drop.
  unfold Py.len in *. nia.
Qed.

Lemma slices_blocks_of (table : list Z) B :
  0 < B → Py.len table `mod` B = 0 →
  (λ i, Py.slice table i (i + B)) <$>
    ((λ k, Z.of_nat k * B) <$> seq 0 (Z.to_nat (Py.len table `div` B)))
  = blocks_of table B.
Proof.
  intros HB Hmod. unfold blocks_of. rewrite <- list_fmap_compose.
  apply list_fmap_ext. intros j k Hk%lookup_seq. simpl.
  apply slice_block; [done..|lia].
Qed.

Lemma blocks_of_length (table : list Z) B :
  0 < B → Py.len table `mod` B = 0 →
  Forall (λ b, length b = Z.to_nat B) (blocks_of table B).
Proof.
  intros HB Hmod. rewrite <- slices_blocks_of by done.
  rewrite <- list_fmap_compose. apply Forall_fmap, Forall_forall.
  intros k Hk%elem_of_seq. simpl. apply slice_block; [done..|lia].
Qed.

(** The state of the loop of [compress_table] at its end. *)
Lemma compress_table_inv (table : list Z) B :
  0 < B → Py.len table `mod` B = 0 →
  ∃ blocks stage1 stage2,
    compress_table table B = Ok (stage1, stage2) ∧
    compress_inv (blocks_of table B) (blocks, stage1, stage2).
Proof.
  intros HB Hmod. unfold compress_table.
  rewrite range3_blocks by (done || unfold Py.len; lia). simpl.
  set (starts := (λ k, Z.of_nat k * B) <$> _).
  pose proof (compress_loop_inv table B starts HB) as Hinv.
  destruct (compress_loop table B starts) as [[blocks stage1] stage2].
  exists blocks, stage1, stage2. split; [done|].
  rewrite <- slices_blocks_of by done. apply Hinv.
  pose proof (blocks_of_length table B HB Hmod) as Hlen.
  rewrite <- slices_blocks_of in Hlen by done.
  by apply Forall_fmap in Hlen.
Qed.

Lemma getitem_Ok {A} (l : list A) (i : Z) x :
  0 ≤ i → l !! Z.to_nat i = Some x → Py.getitem l i = Ok x.
Proof.
  intros Hi Hx. unfold Py.getitem.
  destruct (Z.ltb_spec i 0); [lia|]. destruct (Z.ltb_spec i 0); [lia|].
  by rewrite Hx.
Qed.

(** The two-stage lookup gives back the table. *)
Lemma compress_table_lookup (table : list Z) (B : Z) :
  0 < B → Py.len table `mod` B = 0 →
  ∃ stage1 stage2,
    compress_table table B = Ok (stage1, stage2) ∧
    ∀ c, 0 ≤ c < Py.len table →
      ∃ s v, Py.getitem stage1 (c `div` B) = Ok s ∧
             Py.getitem stage2 (s * B + c `mod` B) = Ok v ∧
             Py.getitem table c = Ok v.
Proof.
  intros HB Hmod.
  destruct (compress_table_inv table B HB Hmod)
    as (blocks & stage1 & stage2 & Hrun & Hnum & Hidx & ->).
  exists stage1, (concat (first_occurrences (blocks_of table B))).
  split; [done|]. intros c Hc.
  pose proof (Z.div_mod c B ltac:(lia)) as HcB.
  pose proof (Z.mod_pos_bound c B HB) as Hj.
  pose proof (Z.div_mod (Py.len table) B ltac:(lia)) as HLB. rewrite Hmod in HLB.
  assert (0 ≤ c `div` B < Py.len table `div` B) as Hk.
  { split; [apply Z.div_pos; lia|]. apply Z.div_lt_upper_bound; lia. }
  set (k := Z.to_nat (c `div` B)). set (j := Z.to_nat (c `mod` B)).
  assert (blocks_of table B !! k
          = Some (take (Z.to_nat B) (drop (k * Z.to_nat B) table))) as Hbk.
  { unfold blocks_of. rewrite list_lookup_fmap, lookup_seq_lt by lia. done. }
  destruct (indexed_lookup _ _ _ _ _ Hidx Hbk) as (p & Hp & Hup).
  assert (is_Some (table !! Z.to_nat c)) as [v Hv].
  { apply lookup_lt_is_Some. unfold Py.len in Hc. lia. }
  exists (Z.of_nat p), v. split_and!.
  - apply getitem_Ok; [lia|done].
  - apply getitem_Ok; [lia|].
    replace (Z.to_nat (Z.of_nat p * B + c `mod` B))
      with (p * Z.to_nat B + j)%nat by (unfold j; nia).
    assert (Forall (λ b, length b = Z.to_nat B)
                   (first_occurrences (blocks_of table B))) as Hulen.
    { apply Forall_forall. intros x Hx.
      rewrite elem_of_first_occurrences in Hx.
      pose proof (blocks_of_length table B HB Hmod) as Hlen.
      rewrite Forall_forall in Hlen. by apply Hlen. }
    rewrite (lookup_concat_uniform _ _ p j _ Hulen Hup) by lia.
    rewrite lookup_take_lt by lia. rewrite lookup_drop. rewrite <- Hv.
    f_equal. unfold k, j. nia.
  - apply getitem_Ok; [lia|done].
Qed.

(** Claim C1: for a table whose length is a multiple of the block size
    [B], [compress_table] returns two stages such that, for every index
    [c] of the table, [stage2[stage1[c / B] * B + c % B]] is the table's
    value at [c]. The record ids of [combine_tables] are such a table. *)
Theorem compress_table_round_trip (table : list Z) (B : Z) :
  0 < B → Py.len table `mod` B = 0 →
  ∃ stage1 stage2,
    compress_table table B = Ok (stage1, stage2) ∧
    ∀ c, 0 ≤ c < Py.len table →
      ∃ s v, Py.getitem stage1 (c `div` B) = Ok s ∧
             Py.getitem stage2 (s * B + c `mod` B) = Ok v ∧
             Py.getitem table c = Ok v.
Proof. apply compress_table_lookup. Qed.

(** The lookup through the two stages recovers the record id that
    [combine_tables] gave to each code point. *)
Corollary record_ids_round_trip (tables : list (list Z)) (B : Z) index records :
  combine_tables tables = (index, records) →
  0 < B → Py.len index `mod` B = 0 →
  ∃ stage1 stage2,
    compress_table index B = Ok (stage1, stage2) ∧
    ∀ c, 0 ≤ c < Py.len index →
      ∃ s id, Py.getitem stage1 (c `div` B) = Ok s ∧
              Py.getitem stage2 (s * B + c `mod` B) = Ok id ∧
              Py.getitem index c = Ok id.
Proof. intros _. apply compress_table_lookup. Qed.

(** The theorem at a table of eight values in blocks of two. *)
Lemma compress_table_round_trip_witness :
  ∃ stage1 stage2,
    compress_table [0; 0; 1; 2; 0; 0; 1; 3] 2 = Ok (stage1, stage2) ∧
    ∀ c, 0 ≤ c < 8 →
      ∃ s v, Py.getitem stage1 (c `div` 2) = Ok s ∧
             Py.getitem stage2 (s * 2 + c `mod` 2) = Ok v ∧
             Py.getitem [0; 0; 1; 2; 0; 0; 1; 3] c = Ok v.
Proof.
  apply (compress_table_round_trip [0; 0; 1; 2; 0; 0; 1; 3] 2);
    [lia|reflexivity].
Defined.

(** Claim C8: for a table of length [L], a multiple of the block size [B],
    [compress_table] returns a stage 1 of [L / B] entries and a stage 2 of
    [B] times the number of distinct blocks; stage 2 is the distinct
    blocks, each once, in the order of their first occurrence; the entry of
    stage 1 for a block is the position [p] of its content among them,
    which is the length of stage 2, in blocks, before that content was
    appended. *)
Theorem compress_table_shape (table : list Z) (B : Z) :
  0 < B → Py.len table `mod` B = 0 →
  let blocks := blocks_of table B in
  let unique := first_occurrences blocks in
  ∃ stage1 stage2,
    compress_table table B = Ok (stage1, stage2) ∧
    Py.len stage1 = Py.len table `div` B ∧
    Py.len stage2 = B * Z.of_nat (distinct blocks) ∧
    stage2 = concat unique ∧
    NoDup unique ∧ (∀ b, b ∈ unique ↔ b ∈ blocks) ∧
    ∀ k b, blocks !! k = Some b →
      ∃ p : nat, stage1 !! k = Some (Z.of_nat p) ∧ unique !! p = Some b ∧
                 Z.of_nat p = Py.len (concat (take p unique)) `div` B.
Proof.
  intros HB Hmod blocks unique.
  destruct (compress_table_inv table B HB Hmod)
    as (dict & stage1 & stage2 & Hrun & Hnum & Hidx & ->).
  fold blocks in Hnum, Hidx. fold unique in Hnum, Hidx |- *.
  pose proof (blocks_of_length table B HB Hmod) as Hlen. fold blocks in Hlen.
  assert (Forall (λ b, length b = Z.to_nat B) unique) as Hulen.
  { apply Forall_forall. intros x Hx. unfold unique in Hx.
    rewrite elem_of_first_occurrences in Hx.
    rewrite Forall_forall in Hlen. by apply Hlen. }
  exists stage1, (concat unique). split_and!.
  - done.
  - unfold Py.len. rewrite <- (Forall2_length _ _ _ Hidx).
    unfold blocks, blocks_of. rewrite length_fmap, length_seq.
    rewrite Z2Nat.id; [done|]. apply Z.div_pos; unfold Py.len; lia.
  - unfold Py.len. rewrite (length_concat_uniform _ _ Hulen).
    unfold unique. rewrite length_first_occurrences. lia.
  - done.
  - apply NoDup_first_occurrences.
  - intros b. apply elem_of_first_occurrences.
  - intros k b Hk. destruct (indexed_lookup _ _ _ _ _ Hidx Hk) as (p & Hp & Hup).
    exists p. split_and!; [done..|].
    unfold Py.len. rewrite (length_concat_uniform _ (Z.to_nat B)).
    + rewrite length_take_le by (apply lookup_lt_Some in Hup; lia).
      rewrite Nat2Z.inj_mul, Z2Nat.id by lia. by rewrite Z.div_mul by lia.
    + by apply Forall_take.
Qed.

(** The theorem at a table of eight values in blocks of two. *)
Lemma compress_table_shape_witness :
  ∃ stage1 stage2,
    compress_table [0; 0; 1; 2; 0; 0; 1; 3] 2 = Ok (stage1, stage2) ∧
    Py.len stage1 = 4 ∧ Py.len stage2 = 6 ∧
    stage2 = [0; 0; 1; 2; 1; 3].
Proof.
  destruct (compress_table_shape [0; 0; 1; 2; 0; 0; 1; 3] 2
              ltac:(lia) ltac:(reflexivity))
    as (stage1 & stage2 & Hrun & H1 & H2 & H3 & _).
  exists stage1, stage2. split_and!; [exact Hrun|exact H1|exact H2|exact H3].
Defined.

(** ** [combine_tables] *)

Lemma combine_inv_step ts st t :
  combine_inv ts st → combine_inv (ts ++ [t]) (combine_step st t).
Proof.
  destruct st as [records index]. intros (Hnum & Hidx & Hsize).
  unfold combine_step, combine_inv. rewrite first_occurrences_snoc.
  destruct (records !! t) as [i|] eqn:Et.
  - assert (t ∈ first_occurrences ts) as Hin.
    { apply (numbered_elem_of _ _ _ Hnum). eauto. }
    rewrite decide_True by done. split_and!; [done| |done].
    apply indexed_snoc; [done|]. by apply Hnum.
  - assert (t ∉ first_occurrences ts) as Hin.
    { rewrite (numbered_elem_of _ _ _ Hnum), Et. by intros [? ?]. }
    rewrite decide_False by done. rewrite Hsize. split_and!.
    + by apply numbered_snoc.
    + apply indexed_snoc; [by apply indexed_snoc_r|].
      exists (length (first_occurrences ts)). split; [done|].
      by rewrite lookup_app_r, Nat.sub_diag.
    + rewrite map_size_insert_None by done. rewrite length_app. simpl. lia.
Qed.

Lemma combine_loop_inv ts : combine_inv ts (combine_loop ts).
Proof.
  unfold combine_loop. induction ts as [|t ts IH] using rev_ind.
  - simpl. split_and!; [apply numbered_empty|constructor|done].
  - rewrite foldl_app. simpl. by apply combine_inv_step.
Qed.

(** The tuples of [zip] for tables of one length [n]. *)
Lemma zip_star_lookup (tables : list (list Z)) (n i : nat) :
  tables ≠ [] → Forall (λ t, length t = n) tables → (i < n)%nat →
  ∃ t, Py.zip_star tables !! i = Some t ∧
       Forall2 (λ tab x, tab !! i = Some x) tables t.
Proof.
  intros Hne Hlen Hi. induction Hlen as [|tab tables Htab Hlen IH]; [done|].
  assert (is_Some (tab !! i)) as [x Hx] by (apply lookup_lt_is_Some; lia).
  destruct tables as [|tab' tables].
  - exists [x]. simpl. rewrite list_lookup_fmap, Hx. split; [done|].
    by repeat constructor.
  - destruct IH as (t & Ht & Hall); [done|].
    exists (x :: t). split; [|by constructor].
    change (Py.zip_star (tab :: tab' :: tables))
      with (zip_with cons tab (Py.zip_star (tab' :: tables))).
    by rewrite lookup_zip_with, Hx, Ht.
Qed.

Lemma length_zip_star (tables : list (list Z)) (n : nat) :
  tables ≠ [] → Forall (λ t, length t = n) tables →
  length (Py.zip_star tables) = n.
Proof.
  intros Hne Hlen. induction Hlen as [|tab tables Htab Hlen IH]; [done|].
  destruct tables as [|tab' tables].
  - simpl. by rewrite length_fmap.
  - change (Py.zip_star (tab :: tab' :: tables))
      with (zip_with cons tab (Py.zip_star (tab' :: tables))).
    rewrite length_zip_with, IH by done. lia.
Qed.

(** Two tuples of values are equal when they agree in each table. *)
Lemma tuples_eq_iff (tables : list (list Z)) (i j : nat) ti tj :
  Forall2 (λ tab x, tab !! i = Some x) tables ti →
  Forall2 (λ tab x, tab !! j = Some x) tables tj →
  ti = tj ↔ ∀ tab, tab ∈ tables → tab !! i = tab !! j.
Proof.
  intros Hi. revert tj. induction Hi as [|tab x tables ti Hx Hi IH];
    intros tj Hj.
  - apply Forall2_nil_inv_l in Hj as ->. split; [|done].
    intros _ tab Htab. by apply elem_of_nil in Htab.
  - apply Forall2_cons_inv_l in Hj as (y & tj' & Hy & Hj & ->).
    split.
    + intros [= -> Heq] tab' Htab'.
      pose proof (proj1 (IH _ Hj) Heq) as Hall.
      rewrite elem_of_cons in Htab'. destruct Htab' as [->|Htab']; [|auto].
      by rewrite Hx, Hy.
    + intros Hall. f_equal.
      * pose proof (Hall tab ltac:(by left)) as Heq.
        rewrite Hx, Hy in Heq. by injection Heq.
      * apply (IH _ Hj). intros tab' Htab'. apply Hall. by right.
Qed.

(** Claim C2: for tables of one length [n], [combine_tables] gives two
    positions the same record id exactly when the tables agree at the two
    positions; the ids in the index are exactly the integers from 0 to the
    number of distinct tuples, excluded, which is the size of the record
    table; and the record table maps each tuple to the id of the
    positions that hold it. *)
Theorem combine_tables_dedup (tables : list (list Z)) (n : nat) index records :
  Forall (λ t, length t = n) tables →
  combine_tables tables = (index, records) →
  (tables ≠ [] → length index = n) ∧
  (∀ i j a b, index !! i = Some a → index !! j = Some b →
     a = b ↔ ∀ tab, tab ∈ tables → tab !! i = tab !! j) ∧
  (∀ id, id ∈ index ↔ 0 ≤ id < Z.of_nat (distinct (Py.zip_star tables))) ∧
  size records = distinct (Py.zip_star tables) ∧
  (∀ t id, records !! t = Some id ↔
     ∃ i, Py.zip_star tables !! i = Some t ∧ index !! i = Some id).
Proof.
  intros Hlen Hrun. unfold combine_tables in Hrun.
  pose proof (combine_loop_inv (Py.zip_star tables)) as Hinv.
  destruct (combine_loop (Py.zip_star tables)) as [records' index'].
  injection Hrun as -> ->. destruct Hinv as (Hnum & Hidx & Hsize).
  set (ts := Py.zip_star tables) in *. set (u := first_occurrences ts) in *.
  pose proof (NoDup_first_occurrences ts) as Hnodup. fold u in Hnodup.
  assert (length index = length ts) as Hilen
    by (symmetry; apply (Forall2_length _ _ _ Hidx)).
  assert (∀ i a, index !! i = Some a →
            ∃ t (p : nat), ts !! i = Some t ∧ a = Z.of_nat p ∧ u !! p = Some t)
    as Hpos.
  { intros i a Ha.
    destruct (Forall2_lookup_r _ _ _ _ _ Hidx Ha) as (t & Ht & p & -> & Hp).
    eauto. }
  split_and!.
  - intros Hne. rewrite Hilen. by apply length_zip_star.
  - intros i j a b Ha Hb.
    destruct (Hpos _ _ Ha) as (ti & p & Hti & -> & Hp).
    destruct (Hpos _ _ Hb) as (tj & q & Htj & -> & Hq).
    assert (tables ≠ []) as Hne by (intros ->; done).
    assert (i < n)%nat as Hi.
    { apply lookup_lt_Some in Hti. unfold ts in Hti.
      by rewrite (length_zip_star _ n) in Hti. }
    assert (j < n)%nat as Hj.
    { apply lookup_lt_Some in Htj. unfold ts in Htj.
      by rewrite (length_zip_star _ n) in Htj. }
    destruct (zip_star_lookup tables n i Hne Hlen Hi) as (ti' & Hti' & Halli).
    destruct (zip_star_lookup tables n j Hne Hlen Hj) as (tj' & Htj' & Hallj).
    fold ts in Hti', Htj'. simplify_eq.
    rewrite <- (tuples_eq_iff tables i j ti tj Halli Hallj). split.
    + intros Hpq. assert (p = q) as -> by lia. congruence.
    + intros ->. f_equal. by apply (NoDup_lookup u p q tj).
  - intros id. unfold u in Hnodup. rewrite <- length_first_occurrences.
    fold ts u. split.
    + intros (i & Hi)%list_elem_of_lookup_1.
      destruct (Hpos _ _ Hi) as (t & p & _ & -> & Hp).
      apply lookup_lt_Some in Hp. lia.
    + intros Hid.
      assert (is_Some (u !! Z.to_nat id)) as [t Ht]
        by (apply lookup_lt_is_Some; lia).
      assert (t ∈ ts) as (i & Hi)%list_elem_of_lookup_1.
      { apply elem_of_first_occurrences. by eapply list_elem_of_lookup_2. }
      destruct (indexed_lookup _ _ _ _ _ Hidx Hi) as (p & Hp & Hup).
      assert (p = Z.to_nat id) as -> by (by apply (NoDup_lookup u _ _ t)).
      rewrite Z2Nat.id in Hp by lia. by eapply list_elem_of_lookup_2.
  - by rewrite Hsize, <- length_first_occurrences.
  - intros t id. rewrite (Hnum t id). split.
    + intros (p & -> & Hp).
      assert (t ∈ ts) as (i & Hi)%list_elem_of_lookup_1.
      { apply elem_of_first_occurrences. by eapply list_elem_of_lookup_2. }
      destruct (indexed_lookup _ _ _ _ _ Hidx Hi) as (q & Hq & Huq).
      assert (q = p) as -> by (by apply (NoDup_lookup u _ _ t)).
      eauto.
    + intros (i & Hi & Hid).
      destruct (indexed_lookup _ _ _ _ _ Hidx Hi) as (q & Hq & Huq).
      exists q. split; [congruence|done].
Qed.

(** The theorem at the two tables [5, 5, 5, 7] and [1, 1, 2, 1]. *)
Lemma combine_tables_dedup_witness :
  size (combine_tables [[5; 5; 5; 7]; [1; 1; 2; 1]]).2 =
  distinct (Py.zip_star [[5; 5; 5; 7]; [1; 1; 2; 1]]).
Proof.
  exact (proj1 (proj2 (proj2 (proj2
    (combine_tables_dedup [[5; 5; 5; 7]; [1; 1; 2; 1]] 4 [0; 0; 1; 2]
       (combine_tables [[5; 5; 5; 7]; [1; 1; 2; 1]]).2
       ltac:(repeat constructor) ltac:(reflexivity)))))).
Defined.

(** Claim C9: the tables [5, 5, 5, 7] and [1, 1, 2, 1] combine into the
    records (5, 1), (5, 2) and (7, 1), numbered 0, 1 and 2, and the index
    [0, 0, 1, 2]; that index compressed in blocks of two gives the stage 2
    [0, 0, 1, 2], of two blocks, and the stage 1 [0, 1]. *)
Theorem example_scenario :
  combine_tables [[5; 5; 5; 7]; [1; 1; 2; 1]] =
    ([0; 0; 1; 2], {[ [5; 1] := 0; [5; 2] := 1; [7; 1] := 2 ]}) ∧
  compress_table [0; 0; 1; 2] 2 = Ok ([0; 1], [0; 0; 1; 2]) ∧
  distinct (blocks_of [0; 0; 1; 2] 2) = 2%nat.
Proof. split_and!; vm_compute; reflexivity. Qed.

(** ** [get_record_size_struct] *)

(** [-w] is [~(w - 1)]: the padding of the code is that of the
    specification. *)
Lemma pad_round_up offset width : pad offset width = round_up offset width.
Proof. unfold pad, round_up. f_equal. unfold Z.lnot. lia. Qed.

(** For a width that is a power of two the padding is a multiple of the
    width. *)
Lemma round_up_pow2 offset (k : Z) :
  0 ≤ k → round_up offset (2 ^ k) = (offset + 2 ^ k - 1) `div` 2 ^ k * 2 ^ k.
Proof.
  intros Hk. unfold round_up.
  replace (- 2 ^ k) with (Z.lnot (Z.ones k))
    by (rewrite Z.ones_equiv; unfold Z.lnot; lia).
  rewrite <- Z.ldiff_land, Z.ldiff_ones_r by done.
  by rewrite Z.shiftl_mul_pow2, Z.shiftr_div_pow2 by done.
Qed.

Lemma round_up_multiple offset width :
  width ∈ [1; 2; 4] →
  round_up offset width `mod` width = 0 ∧
  offset ≤ round_up offset width < offset + width.
Proof.
  intros Hw.
  assert (∃ k, 0 ≤ k ∧ width = 2 ^ k ∧ 0 < width) as (k & Hk & -> & Hpos).
  { rewrite !elem_of_cons in Hw. destruct Hw as [->|[->|[->|Hw]]].
    - by exists 0. - by exists 1. - by exists 2. - by apply elem_of_nil in Hw. }
  rewrite round_up_pow2 by done. split; [apply Z.mod_mul; lia|].
  pose proof (Z.div_mod (offset + 2 ^ k - 1) (2 ^ k) ltac:(lia)).
  pose proof (Z.mod_pos_bound (offset + 2 ^ k - 1) (2 ^ k) Hpos). lia.
Qed.

Lemma get_type_size_width (table : list Z) ty :
  get_type_size table = Ok ty → ty.2 ∈ [1; 2; 4].
Proof.
  intros Hty. assert (table ≠ []) as Hne by (intros ->; done).
  destruct (min_Ok _ Hne) as (mn & _ & Hmn).
  destruct (max_Ok _ Hne) as (mx & _ & Hmx).
  rewrite (get_type_size_cases _ _ _ Hmn Hmx) in Hty.
  repeat case_decide; simplify_eq; simpl; set_solver.
Qed.

(** The loop over the fields, given the type that each field resolves to. *)
Lemma for_each_record_field records (fields : list Z) types size structure :
  Forall2 (λ i ty, ∃ slice, record_slice records i = Ok slice ∧
                            get_type_size slice = Ok ty) fields types →
  ∃ structure',
    for_each (record_field records) fields (size, structure) =
    Ok (foldl (λ offset width, pad offset width + width) size types.*2,
        structure').
Proof.
  intros Hall. revert size structure.
  induction Hall as [|i [ty w] fields types (slice & Hs & Hty) _ IH];
    intros size structure; simpl.
  - eauto.
  - rewrite Hs. simpl. rewrite Hty. simpl. rewrite pad_round_up. apply IH.
Qed.

(** Claim C5: for a non-empty table of records of [N] fields, [N] at
    least one, whose fields resolve to the types [types],
    [get_record_size_struct] returns the size obtained by padding the
    offset before each field, in the order of the tuple, to a multiple of
    the field's width with [(offset + width - 1) & ~(width - 1)], then
    adding the width, and at the end padding the total to a multiple of the
    width of the first field, not of the widest: one record (3, 300, 3) has
    size 5. The padding is the least multiple of the width from the offset
    on. The eight tests of [test_record_size] hold. *)
Theorem record_size_layout :
  (∀ (records : list (list Z)) (N : nat) (types : list (string * Z)),
     records ≠ [] → (0 < N)%nat → Forall (λ r, length r = N) records →
     Forall2 (λ i ty, ∃ slice, record_slice records i = Ok slice ∧
                               get_type_size slice = Ok ty)
             (Py.range (Z.of_nat N)) types →
     Forall (λ width, width ∈ [1; 2; 4]) types.*2 ∧
     ∃ structure,
       get_record_size_struct records = Ok (layout_size types.*2, structure)) ∧
  (∀ offset width, width ∈ [1; 2; 4] →
     pad offset width `mod` width = 0 ∧
     offset ≤ pad offset width < offset + width) ∧
  (∃ structure, get_record_size_struct [[3; 300; 3]] = Ok (5, structure)) ∧
  test_record_size = Ok () ∧
  Forall (λ test, ∃ structure,
            get_record_size_struct test.1 = Ok (test.2, structure)) tests.
Proof.
  split_and!.
  - intros records N types Hne HN Hlen Hfields. split.
    { apply Forall_fmap, Forall_forall. intros ty Hty.
      apply list_elem_of_lookup_1 in Hty as [k Hk].
      destruct (Forall2_lookup_r _ _ _ _ _ Hfields Hk)
        as (i & _ & slice & _ & Hsize).
      by apply (get_type_size_width slice). }
    destruct records as [|record0 records']; [done|]. clear Hne.
    set (records := record0 :: records') in *.
    assert (length record0 = N) as Hlen0 by (by inversion Hlen).
    unfold get_record_size_struct.
    change (Py.getitem records 0) with (Ok record0 : result _). simpl.
    unfold Py.len. rewrite Hlen0.
    destruct (for_each_record_field records _ types 0 structure_head Hfields)
      as (structure & ->). simpl.
    destruct N as [|N]; [lia|].
    unfold Py.range, Py.range2 in Hfields.
    replace (Z.to_nat (Z.of_nat (S N) - 0)) with (S N) in Hfields by lia.
    simpl in Hfields.
    apply Forall2_cons_inv_l in Hfields
      as ([ty0 w0] & types' & (slice & Hs & Hty) & _ & ->).
    change (0 + Z.of_nat 0) with 0 in Hs. rewrite Hs. simpl. rewrite Hty. simpl.
    eexists. unfold layout_size. simpl. by rewrite <- pad_round_up.
  - intros offset width Hw. rewrite pad_round_up. by apply round_up_multiple.
  - eexists. vm_compute. reflexivity.
  - vm_compute. reflexivity.
  - unfold tests. repeat constructor; eexists; vm_compute; reflexivity.
Qed.

(** The first part of the theorem at the records (3, 100000), (6, 6),
    (6, 123456) and (1, 690). *)
Lemma record_size_layout_witness :
  ∃ structure,
    get_record_size_struct [[3; 100000]; [6; 6]; [6; 123456]; [1; 690]] =
    Ok (layout_size [1; 4], structure).
Proof.
  apply (proj1 record_size_layout
           [[3; 100000]; [6; 6]; [6; 123456]; [1; 690]] 2%nat
           [("uschar"%string, 1); ("pcre_uint32"%string, 4)]).
  - done.
  - lia.
  - repeat constructor.
  - repeat constructor; eexists; split; reflexivity.
Defined.

(** ** [read_table] *)

Lemma hex_digit_bound c d : Text.hex_digit c = Some d → 0 ≤ d < 16.
Proof.
  unfold Text.hex_digit. set (n := Z.of_nat (nat_of_ascii c)).
  destruct (Z.leb_spec 48 n), (Z.leb_spec n 57),
    (Z.leb_spec 97 n), (Z.leb_spec n 102),
    (Z.leb_spec 65 n), (Z.leb_spec n 70); simpl; intros [= <-]; lia.
Qed.

Lemma int16_go_nonneg s acc z : 0 ≤ acc → Text.int16_go acc s = Ok z → 0 ≤ z.
Proof.
  revert acc. induction s as [|c s IH]; intros acc Hacc; simpl.
  - by intros [= <-].
  - destruct (Text.hex_digit c) as [d|] eqn:Hd; [|done].
    apply hex_digit_bound in Hd. apply IH. lia.
Qed.

Lemma int16_nonneg s z : Text.int16 s = Ok z → 0 ≤ z.
Proof. destruct s; [done|]. by apply int16_go_nonneg. Qed.

(** The code points read from a line are not negative. *)
Lemma parse_line_nonneg get_value line a :
  parse_line get_value line = Ok (Some a) → 0 ≤ a.1.1.
Proof.
  unfold parse_line. destruct (_ <=? 1); [done|].
  intros (value & _ & (chardata0 & _ & Hm)%bind_Ok)%bind_Ok.
  destruct (Text.match_range chardata0) as [[g1 g3]|]; [|done].
  apply bind_Ok in Hm as (char & Hchar%int16_nonneg & Hm).
  destruct g3 as [g|].
  - apply bind_Ok in Hm as (last & _ & [= <-]). done.
  - by injection Hm as <-.
Qed.

Lemma setitem_Ok {A} (l : list A) i v :
  0 ≤ i < Py.len l → Py.setitem l i v = Ok (<[Z.to_nat i := v]> l).
Proof.
  intros Hi. unfold Py.setitem.
  destruct (Z.ltb_spec i 0); [lia|].
  destruct (Z.ltb_spec i 0); [lia|].
  destruct (Z.leb_spec (Py.len l) i); [lia|]. done.
Qed.

Lemma setitem_Raise {A} (l : list A) i v :
  0 ≤ i → Py.len l ≤ i → Py.setitem l i v = Raise IndexError.
Proof.
  intros Hi Hlen. unfold Py.setitem.
  destruct (Z.ltb_spec i 0); [lia|].
  destruct (Z.ltb_spec i 0); [lia|].
  destruct (Z.leb_spec (Py.len l) i); [done|lia].
Qed.

(** The loop [for i in range(char, char + n): table[i] = value]. *)
Lemma setitem_range_Ok (table : list Z) (char : Z) (n : nat) value :
  0 ≤ char → ((0 < n)%nat → char + Z.of_nat n ≤ Py.len table) →
  ∃ table',
    for_each (λ table i, Py.setitem table i value)
             ((λ k, char + Z.of_nat k) <$> seq 0 n) table = Ok table' ∧
    length table' = length table ∧
    ∀ c : nat, table' !! c =
      if decide (char ≤ Z.of_nat c < char + Z.of_nat n)
      then (λ _, value) <$> table !! c else table !! c.
Proof.
  intros Hchar. induction n as [|n IH]; intros Hn.
  - exists table. split_and!; [done..|]. intros c. rewrite decide_False by lia. done.
  - specialize (Hn ltac:(lia)).
    destruct IH as (table1 & Hrun & Hlen & Hget); [lia|].
    rewrite seq_S, fmap_app, for_each_app, Hrun. simpl.
    rewrite setitem_Ok by (unfold Py.len in *; lia). simpl.
    eexists. split_and!; [done|by rewrite length_insert|].
    unfold Py.len in *.
    intros c. destruct (decide (c = Z.to_nat (char + Z.of_nat n))) as [->|Hne].
    + rewrite list_lookup_insert_eq by lia. rewrite decide_True by lia.
      destruct (lookup_lt_is_Some_2 table (Z.to_nat (char + Z.of_nat n))
                  ltac:(lia)) as [x ->]. done.
    + rewrite list_lookup_insert_ne by done. rewrite Hget.
      repeat case_decide; try done; lia.
Qed.

Lemma setitem_range_Raise (table : list Z) (char : Z) (n : nat) value :
  0 ≤ char → (0 < n)%nat → Py.len table < char + Z.of_nat n →
  for_each (λ table i, Py.setitem table i value)
           ((λ k, char + Z.of_nat k) <$> seq 0 n) table = Raise IndexError.
Proof.
  intros Hchar Hpos Hn.
  set (n1 := Z.to_nat (Py.len table - char)).
  assert (∃ n2, n = (n1 + S n2)%nat) as [n2 ->]
    by (exists (n - n1 - 1)%nat; unfold n1, Py.len in *; lia).
  rewrite seq_app, fmap_app, for_each_app.
  destruct (setitem_range_Ok table char n1 value) as (table1 & -> & Hlen & _);
    [lia|unfold n1, Py.len in *; lia|].
  simpl. rewrite setitem_Raise; [done|lia|].
  unfold n1, Py.len in *. rewrite Hlen. lia.
Qed.

(** The value left at a code point by the assignments over an old value. *)
Lemma last_write_cons a assignments default_value c :
  last_write (a :: assignments) default_value c =
  last_write assignments (if decide (covers c a) then a.2 else default_value) c.
Proof.
  unfold last_write. rewrite filter_cons.
  destruct (decide (covers c a)); [|done].
  destruct (filter _ assignments) as [|x l]; simpl; [done|].
  destruct (last (x :: l)) eqn:E; [done|]. by apply last_None in E.
Qed.

Lemma assign_Ok (table : list Z) (a : assignment) :
  0 ≤ a.1.1 → end_of a < Py.len table ∨ end_of a < a.1.1 →
  ∃ table',
    assign table a = Ok table' ∧ length table' = length table ∧
    ∀ c : nat, table' !! c =
      if decide (covers (Z.of_nat c) a)
      then (λ _, a.2) <$> table !! c else table !! c.
Proof.
  destruct a as [[char group3] value]. unfold end_of, covers. simpl.
  set (lst := default char group3). intros Hchar Hlast.
  destruct (setitem_range_Ok table char (Z.to_nat (lst + 1 - char)) value)
    as (table' & Hrun & Hlen & Hget); [done|lia|].
  exists table'. split_and!; [|done|].
  - rewrite <- Hrun. unfold Py.range2. by destruct group3.
  - intros c. rewrite Hget. unfold covers, end_of. simpl. fold lst.
    repeat case_decide; try done; lia.
Qed.

Lemma assign_Raise (table : list Z) (a : assignment) :
  0 ≤ a.1.1 → Py.len table ≤ end_of a → a.1.1 ≤ end_of a →
  assign table a = Raise IndexError.
Proof.
  destruct a as [[char group3] value]. unfold end_of. simpl.
  set (lst := default char group3). intros Hchar Hlen Hlast.
  rewrite <- (setitem_range_Raise table char (Z.to_nat (lst + 1 - char)) value)
    by lia.
  unfold Py.range2. by destruct group3.
Qed.

Lemma assignments_of_cons get_value line file assignments :
  assignments_of get_value (line :: file) = Ok assignments ↔
  ∃ o rest, parse_line get_value line = Ok o ∧
            assignments_of get_value file = Ok rest ∧
            assignments = option_list o ++ rest.
Proof.
  unfold assignments_of. simpl.
  destruct (parse_line get_value line) as [o|e]; simpl.
  - destruct (Py.map_r (parse_line get_value) file) as [parsed|e]; simpl.
    + split.
      * intros [= <-]. exists o, (omap id parsed). by destruct o.
      * intros (o' & rest & [= <-] & [= <-] & ->). by destruct o.
    + split; [done|]. by intros (? & ? & _ & ? & _).
  - split; [done|]. by intros (? & ? & ? & _).
Qed.

Lemma read_table_line_parsed get_value (table : list Z) line o :
  parse_line get_value line = Ok o →
  read_table_line get_value table line =
  match o with Some a => assign table a | None => Ok table end.
Proof. intros Hline. unfold read_table_line. by rewrite Hline. Qed.

(** The loop over the lines, from any table. *)
Lemma read_lines_Ok get_value file (table : list Z) assignments :
  assignments_of get_value file = Ok assignments →
  Forall (λ a, end_of a < Py.len table ∨ end_of a < a.1.1) assignments →
  ∃ table',
    for_each (read_table_line get_value) file table = Ok table' ∧
    length table' = length table ∧
    ∀ (c : nat) x, table !! c = Some x →
      table' !! c = Some (last_write assignments x (Z.of_nat c)).
Proof.
  revert table assignments. induction file as [|line file IH];
    intros table assignments.
  - intros [= <-] _. exists table. split_and!; [done..|].
    intros c x Hx. by rewrite Hx.
  - intros (o & rest & Hline & Hrest & ->)%assignments_of_cons Hall.
    rewrite Forall_app in Hall. destruct Hall as [Ho Hall].
    cbn [for_each]. rewrite (read_table_line_parsed _ _ _ _ Hline).
    destruct o as [a|]; simpl in *.
    + rewrite Forall_singleton in Ho.
      destruct (assign_Ok table a) as (table1 & -> & Hlen1 & Hget1);
        [by eapply parse_line_nonneg|done|]. simpl.
      destruct (IH table1 rest Hrest) as (table' & Hrun & Hlen & Hget).
      { unfold Py.len. by rewrite Hlen1. }
      exists table'. split_and!; [done|congruence|].
      intros c x Hx. rewrite last_write_cons.
      apply Hget. rewrite Hget1, Hx. by case_decide.
    + destruct (IH table rest Hrest Hall) as (table' & Hrun & Hlen & Hget).
      eauto.
Qed.

Lemma read_lines_inv get_value file (table table' : list Z) :
  for_each (read_table_line get_value) file table = Ok table' →
  ∃ assignments,
    assignments_of get_value file = Ok assignments ∧
    Forall (λ a, end_of a < Py.len table ∨ end_of a < a.1.1) assignments.
Proof.
  revert table. induction file as [|line file IH]; intros table.
  - intros _. by exists [].
  - simpl. intros (table1 & Hline & Hrun)%bind_Ok.
    unfold read_table_line in Hline.
    apply bind_Ok in Hline as (o & Ho & Hline).
    assert (end_of_ok : Forall (λ a, end_of a < Py.len table ∨ end_of a < a.1.1)
                               (option_list o) ∧ length table1 = length table).
    { destruct o as [a|]; simpl; [|by injection Hline as <-].
      pose proof (parse_line_nonneg _ _ _ Ho) as Hchar.
      destruct (Z.lt_ge_cases (end_of a) (Py.len table)) as [?|Hge];
        [|destruct (Z.lt_ge_cases (end_of a) a.1.1) as [?|Hge']].
      - destruct (assign_Ok table a) as (t & Ht & Hlen & _); [done|by left|].
        split; [apply Forall_singleton; by left|congruence].
      - destruct (assign_Ok table a) as (t & Ht & Hlen & _); [done|by right|].
        split; [apply Forall_singleton; by right|congruence].
      - rewrite assign_Raise in Hline by done. done. }
    destruct end_of_ok as [Hall Hlen1].
    destruct (IH table1 Hrun) as (rest & Hrest & Hall').
    exists (option_list o ++ rest). split.
    + apply assignments_of_cons. eauto.
    + apply Forall_app. split; [done|].
      unfold Py.len in *. by rewrite <- Hlen1.
Qed.

(** The table built from [M] default values, for any length [M]. *)
Lemma read_table_sized (M : Z) file get_value default_value :
  0 ≤ M →
  let run := for_each (read_table_line get_value) file
                      (replicate (Z.to_nat M) default_value) in
  (∀ assignments,
     assignments_of get_value file = Ok assignments →
     Forall (λ a, end_of a < M ∨ end_of a < a.1.1) assignments →
     ∃ table,
       run = Ok table ∧ Py.len table = M ∧
       ∀ c, 0 ≤ c < M →
         Py.getitem table c = Ok (last_write assignments default_value c)) ∧
  (∀ table,
     run = Ok table →
     ∃ assignments,
       assignments_of get_value file = Ok assignments ∧
       Forall (λ a, end_of a < M ∨ end_of a < a.1.1) assignments).
Proof.
  intros HM. set (table0 := replicate (Z.to_nat M) default_value). simpl.
  assert (Py.len table0 = M) as Hlen0.
  { unfold Py.len, table0. rewrite length_replicate. by apply Z2Nat.id. }
  split.
  - intros assignments Hparse Hall.
    destruct (read_lines_Ok get_value file table0 assignments Hparse)
      as (table & Hrun & Hlen & Hget).
    { by rewrite Hlen0. }
    exists table. split_and!; [done|unfold Py.len in *; congruence|].
    intros c Hc. apply getitem_Ok; [lia|].
    rewrite <- (Z2Nat.id c) at 2 by lia. apply Hget.
    apply lookup_replicate_2. lia.
  - intros table Hrun.
    destruct (read_lines_inv get_value file table0 table Hrun)
      as (assignments & Hparse & Hall).
    exists assignments. split; [done|]. by rewrite Hlen0 in Hall.
Qed.

(** Claim C7: when the lines of the file give the assignments
    [assignments] and each has its code points in the table,
    [read_table] returns a table of length [MAX_UNICODE], which is
    0x110000, whose value at each code point [c] is the value of the last
    assignment, in the order of the input, whose range from its start to
    its end contains [c], the end being the start when it is omitted, and
    the default value when no assignment covers [c]. A table is returned
    only in that case. *)
Theorem read_table_last_write file get_value default_value :
  MAX_UNICODE = 1114112 ∧
  (∀ assignments,
     assignments_of get_value file = Ok assignments →
     Forall in_table assignments →
     ∃ table,
       read_table file get_value default_value = Ok table ∧
       Py.len table = MAX_UNICODE ∧
       ∀ c, 0 ≤ c < MAX_UNICODE →
         Py.getitem table c = Ok (last_write assignments default_value c)) ∧
  (∀ table,
     read_table file get_value default_value = Ok table →
     ∃ assignments,
       assignments_of get_value file = Ok assignments ∧
       Forall in_table assignments).
Proof.
  split; [reflexivity|].
  apply (read_table_sized MAX_UNICODE file get_value default_value).
  discriminate.
Qed.

(** The theorem at a file of three lines, the value of a line being the
    length of its second field. *)
Lemma read_table_last_write_witness :
  ∃ table,
    read_table ["0041..005A ; Latin # capitals"; "# no data"; "0050;Lu"]
               (λ chardata, x ← Py.getitem chardata 1 ;
                            Ok (Z.of_nat (String.length x))) 9 = Ok table ∧
    Py.len table = MAX_UNICODE ∧
    ∀ c, 0 ≤ c < MAX_UNICODE →
      Py.getitem table c =
      Ok (last_write [(65, Some 90, 5); (80, None, 2)] 9 c).
Proof.
  apply (proj1 (proj2 (read_table_last_write _ _ 9))).
  - reflexivity.
  - repeat constructor; left; reflexivity.
Defined.

Example last_write_example :
  last_write [(65, Some 90, 5); (80, None, 2)] 9 <$> [64; 65; 80; 90; 91]
  = [9; 5; 2; 5; 9].
Proof. reflexivity. Qed.

(** ** The search for the block size *)

Section search.
Variables (table : list Z) (len_records record_size : Z).

Lemma scored_unique B s1 s2 size s1' s2' size' :
  scored table len_records record_size B s1 s2 size →
    scored table len_records record_size B s1' s2' size' →
  s1 = s1' ∧ s2 = s2' ∧ size = size'.
Proof.
  intros (Hc & ty1 & ty2 & H1 & H2 & ->) (Hc' & ty1' & ty2' & H1' & H2' & ->).
  rewrite Hc in Hc'. injection Hc' as <- <-.
  rewrite H1 in H1'. rewrite H2 in H2'. by simplify_eq.
Qed.

Lemma search_step_scored B s1 s2 size min_size best :
  scored table len_records record_size B s1 s2 size →
  search_step table len_records record_size (min_size, best) B =
  Ok (if size <? min_size then (size, Some (s1, s2, B)) else (min_size, best)).
Proof.
  intros (Hc & [n1 w1] & [n2 w2] & H1 & H2 & ->).
  unfold search_step. rewrite Hc. simpl.
  unfold get_tables_size. simpl. rewrite H1. simpl. rewrite H2. simpl.
  replace (len_records * record_size + (0 + w1 * Py.len s1 + w2 * Py.len s2))
    with (len_records * record_size + w1 * Py.len s1 + w2 * Py.len s2) by lia.
  by destruct (_ <? min_size).
Qed.

(** The loop over any list of candidates, from any state: the minimum
    is kept with the first candidate that reaches it. *)
Lemma search_loop cands min_size best :
  (∀ B, B ∈ cands →
       ∃ s1 s2 size, scored table len_records record_size B s1 s2 size) →
  ∃ m b,
    for_each (search_step table len_records record_size) cands
             (min_size, best) = Ok (m, b) ∧
    (∀ B s1 s2 size, B ∈ cands →
       scored table len_records record_size B s1 s2 size → m ≤ size) ∧
    ((m = min_size ∧ b = best) ∨
     (m < min_size ∧
      ∃ (k : nat) B s1 s2,
        cands !! k = Some B ∧
        scored table len_records record_size B s1 s2 m ∧
        b = Some (s1, s2, B) ∧
        ∀ (j : nat) B' s1' s2' size',
          (j < k)%nat → cands !! j = Some B' →
          scored table len_records record_size B' s1' s2' size' →
          m < size')).
Proof.
  revert min_size best. induction cands as [|B0 cands IH];
    intros min_size best Hall.
  - exists min_size, best. split_and!; [done| |by left].
    intros B ??? HB _. by apply elem_of_nil in HB.
  - destruct (Hall B0 ltac:(by left)) as (s1 & s2 & size0 & Hs0).
    cbn [for_each]. rewrite (search_step_scored _ _ _ _ _ _ Hs0). simpl.
    assert (∀ B, B ∈ cands →
              ∃ s1 s2 size, scored table len_records record_size B s1 s2 size)
      as Hall'
      by (intros B HB; apply Hall; by right).
    destruct (Z.ltb_spec size0 min_size) as [Hlt|Hge].
    + destruct (IH size0 (Some (s1, s2, B0)) Hall')
        as (m & b & -> & Hmin & Hbest).
      exists m, b. split; [done|].
      assert (m ≤ size0) as Hm by (destruct Hbest as [[-> _]|[? _]]; lia).
      split.
      * intros B s1' s2' size' HB Hs. rewrite elem_of_cons in HB.
        destruct HB as [->|HB]; [|by eapply Hmin].
        by destruct (scored_unique _ _ _ _ _ _ _ Hs Hs0) as (_ & _ & ->).
      * right. split; [lia|]. destruct Hbest as [[-> ->]|[Hlt' Hbest]].
        -- exists 0%nat, B0, s1, s2. split_and!; [done..|]. intros; lia.
        -- destruct Hbest as (k & B & s1' & s2' & Hk & Hs & -> & Hfirst).
           exists (S k), B, s1', s2'. split_and!; [done..|].
           intros [|j] B' s1'' s2'' size' Hj HB' Hs'; simpl in HB'.
           ++ injection HB' as <-.
              destruct (scored_unique _ _ _ _ _ _ _ Hs' Hs0) as (_ & _ & ->).
              done.
           ++ eapply (Hfirst j); [lia|done..].
    + destruct (IH min_size best Hall') as (m & b & -> & Hmin & Hbest).
      exists m, b. split; [done|].
      assert (m ≤ min_size) as Hm by (destruct Hbest as [[-> _]|[? _]]; lia).
      split.
      * intros B s1' s2' size' HB Hs. rewrite elem_of_cons in HB.
        destruct HB as [->|HB]; [|by eapply Hmin].
        destruct (scored_unique _ _ _ _ _ _ _ Hs Hs0) as (_ & _ & ->). lia.
      * destruct Hbest as [[-> ->]|[Hlt' Hbest]]; [by left|right].
        split; [done|].
        destruct Hbest as (k & B & s1' & s2' & Hk & Hs & -> & Hfirst).
        exists (S k), B, s1', s2'. split_and!; [done..|].
        intros [|j] B' s1'' s2'' size' Hj HB' Hs'; simpl in HB'.
        -- injection HB' as <-.
           destruct (scored_unique _ _ _ _ _ _ _ Hs' Hs0) as (_ & _ & ->).
           lia.
        -- eapply (Hfirst j); [lia|done..].
Qed.
End search.

(** Claim C6: the block sizes tried are 32, 64, 128, 256 and 512, in that
    order, each scored by the bytes of the record table, the number of
    records times the size of a record, plus the bytes of stage 1 and of
    stage 2, each with the width it resolves to; when every block size has
    a score and one is below [sys.maxint], the search returns a block size
    of the list with its stages and its score, no block size of the list
    has a smaller score, and every block size tried before it has a
    greater score: on ties the earliest is kept. *)
Theorem block_size_optimal (maxint : Z) (table : list Z)
    (len_records record_size : Z) :
  block_sizes = [32; 64; 128; 256; 512] ∧
  ((∀ B, B ∈ block_sizes →
      ∃ s1 s2 size, scored table len_records record_size B s1 s2 size) →
   (∃ B s1 s2 size, B ∈ block_sizes ∧
      scored table len_records record_size B s1 s2 size ∧ size < maxint) →
   ∃ min_size stage1 stage2 B (k : nat),
     search maxint table len_records record_size ≫= best_of
       = Ok (min_size, stage1, stage2, B) ∧
     block_sizes !! k = Some B ∧
     scored table len_records record_size B stage1 stage2 min_size ∧
     (∀ B' s1 s2 size, B' ∈ block_sizes →
        scored table len_records record_size B' s1 s2 size →
        min_size ≤ size) ∧
     (∀ (j : nat) B' s1 s2 size, (j < k)%nat → block_sizes !! j = Some B' →
        scored table len_records record_size B' s1 s2 size →
        min_size < size)).
Proof.
  split; [reflexivity|]. intros Hall (B0 & s10 & s20 & size0 & HB0 & Hs0 & Hlt0).
  destruct (search_loop table len_records record_size block_sizes maxint None
              Hall) as (m & b & Hrun & Hmin & Hbest).
  unfold search. rewrite Hrun. simpl.
  destruct Hbest as [[-> ->]|[Hlt Hbest]].
  - specialize (Hmin _ _ _ _ HB0 Hs0). lia.
  - destruct Hbest as (k & B & s1 & s2 & Hk & Hs & -> & Hfirst).
    exists m, s1, s2, B, k. split_and!; done.
Qed.

(** The theorem at a table of 48 zeros, three records of four bytes and
    [sys.maxint] of 64 bits. *)
Lemma block_size_optimal_witness :
  ∃ min_size stage1 stage2 B (k : nat),
    search (2 ^ 63 - 1) (replicate 48 0) 3 4 ≫= best_of
      = Ok (min_size, stage1, stage2, B) ∧
    block_sizes !! k = Some B ∧
    scored (replicate 48 0) 3 4 B stage1 stage2 min_size ∧
    (∀ B' s1 s2 size, B' ∈ block_sizes →
       scored (replicate 48 0) 3 4 B' s1 s2 size → min_size ≤ size) ∧
    (∀ (j : nat) B' s1 s2 size, (j < k)%nat → block_sizes !! j = Some B' →
       scored (replicate 48 0) 3 4 B' s1 s2 size → min_size < size).
Proof.
  apply (proj2 (block_size_optimal (2 ^ 63 - 1) (replicate 48 0) 3 4)).
  - intros B HB. change block_sizes with [32; 64; 128; 256; 512] in HB.
    rewrite !elem_of_cons in HB.
    destruct HB as [->|[->|[->|[->|[->|HB]]]]];
      [..|by apply elem_of_nil in HB];
      do 3 eexists; (split; [vm_compute; reflexivity|]);
      do 2 eexists; (split_and!; [vm_compute; reflexivity..|reflexivity]).
  - exists 64. do 3 eexists. split_and!.
    + right. by left.
    + split; [vm_compute; reflexivity|].
      do 2 eexists. split_and!; [vm_compute; reflexivity..|reflexivity].
    + vm_compute. reflexivity.
Defined.

(** The block sizes 64 to 512 tie at 61 bytes, and 64, tried first, is
    kept. *)
Example search_tie :
  search (2 ^ 63 - 1) (replicate 48 0) 3 4 ≫= best_of
  = Ok (61, [0], replicate 48 0, 64).
Proof. vm_compute. reflexivity. Qed.

(** ** The order of the records printed *)

#[local] Instance id_le_trans : Transitive id_le.
Proof. intros x y z. unfold id_le. lia. Qed.

#[local] Instance id_le_total : Total id_le.
Proof. intros x y. unfold id_le. lia. Qed.

(** The values of [u], each with its position. *)
Lemma numbering_snoc (u : list (list Z)) t :
  numbering (u ++ [t]) = numbering u ++ [(t, Z.of_nat (length u))].
Proof.
  unfold numbering. rewrite imap_app. simpl. by rewrite Nat.add_0_r.
Qed.

Lemma elem_of_numbering (u : list (list Z)) t s :
  (t, s) ∈ numbering u ↔ ∃ p : nat, s = Z.of_nat p ∧ u !! p = Some t.
Proof.
  unfold numbering. rewrite elem_of_lookup_imap. split.
  - intros (p & t' & [= -> ->] & Hp). eauto.
  - intros (p & -> & Hp). eauto.
Qed.

Lemma numbering_sorted (u : list (list Z)) : StronglySorted id_le (numbering u).
Proof.
  induction u as [|t u IH] using rev_ind; [constructor|].
  rewrite numbering_snoc. apply StronglySorted_app_2;
    [|done|repeat constructor].
  intros [t1 s1] [t2 s2] (p & -> & Hp)%elem_of_numbering Hx2.
  rewrite list_elem_of_singleton in Hx2. injection Hx2 as -> ->.
  apply lookup_lt_Some in Hp. unfold id_le. simpl. lia.
Qed.

Lemma numbering_map_to_list (u : list (list Z)) (d : gmap (list Z) Z) :
  NoDup u → numbered u d → numbering u ≡ₚ map_to_list d.
Proof.
  intros Hu Hd. apply NoDup_Permutation.
  - apply (NoDup_fmap_1 fst). unfold numbering. rewrite fmap_imap.
    replace (imap _ u) with u; [done|].
    apply list_eq. intros i. rewrite list_lookup_imap. by destruct (u !! i).
  - apply NoDup_map_to_list.
  - intros [t s]. by rewrite elem_of_numbering, elem_of_map_to_list, (Hd t s).
Qed.

(** The items of the dictionary sorted by id are its values in the
    order of their numbers, whatever the order of the items was. *)
Lemma sort_by_id_numbering (items : dict_order) (u : list (list Z))
    (d : gmap (list Z) Z) :
  valid_order items → NoDup u → numbered u d →
  sort_by_id (zip (keys items d) (values items d)) = numbering u.
Proof.
  intros Hitems Hu Hd. unfold keys, values. rewrite zip_fst_snd.
  apply (StronglySorted_unique_strong id_le).
  - intros [t1 s1] [t2 s2] H1 H2 Hle Hge. unfold id_le in *. simpl in *.
    assert (s1 = s2) as <- by lia. f_equal.
    unfold sort_by_id in H1. rewrite merge_sort_Permutation, (Hitems d) in H1.
    apply elem_of_map_to_list, Hd in H1 as (p & -> & Hp).
    apply elem_of_numbering in H2 as (q & Hq & Hq').
    assert (p = q) as -> by lia. congruence.
  - apply StronglySorted_merge_sort; apply _.
  - apply numbering_sorted.
  - unfold sort_by_id. rewrite merge_sort_Permutation, (Hitems d).
    symmetry. by apply numbering_map_to_list.
Qed.

Lemma record_rows_numbering (items : dict_order) (u : list (list Z))
    (d : gmap (list Z) Z) :
  valid_order items → NoDup u → numbered u d →
  record_rows items d = numbering u.
Proof.
  intros Hitems Hu Hd. unfold record_rows.
  rewrite (sort_by_id_numbering items u d) by done.
  unfold enumerate, numbering. apply list_eq. intros i.
  rewrite list_lookup_fmap, !list_lookup_imap. by destruct (u !! i).
Qed.

(** ** The record size does not depend on the order of the records *)

Lemma get_type_size_Permutation (l1 l2 : list Z) :
  l1 ≡ₚ l2 → get_type_size l1 = get_type_size l2.
Proof.
  intros Hperm. destruct l1 as [|x l1].
  - by apply Permutation_nil_l in Hperm as ->.
  - assert (l2 ≠ []) as Hne2.
    { intros ->. by apply Permutation_nil_r in Hperm. }
    destruct (min_Ok (x :: l1) ltac:(done)) as (mn & _ & Hmn).
    destruct (max_Ok (x :: l1) ltac:(done)) as (mx & _ & Hmx).
    rewrite (get_type_size_find _ mn mx Hmn Hmx).
    symmetry. apply get_type_size_find.
    + destruct Hmn as [Hin Hle]. split; [by rewrite <- Hperm|].
      intros y Hy. apply Hle. by rewrite Hperm.
    + destruct Hmx as [Hin Hle]. split; [by rewrite <- Hperm|].
      intros y Hy. apply Hle. by rewrite Hperm.
Qed.

Lemma map_r_Ok {A B} (f : A → result B) (g : A → B) (l : list A) :
  (∀ x, x ∈ l → f x = Ok (g x)) → Py.map_r f l = Ok (g <$> l).
Proof.
  induction l as [|x l IH]; intros Hf; [done|].
  simpl. rewrite (Hf x) by (by left). simpl.
  rewrite IH by (intros; apply Hf; by right). done.
Qed.

(** The field [i] of records of [N] fields. *)
Lemma record_slice_uniform (records : list (list Z)) (N : nat) (i : Z) :
  Forall (λ r, length r = N) records → 0 ≤ i < Z.of_nat N →
  record_slice records i = Ok ((λ r, default 0 (r !! Z.to_nat i)) <$> records).
Proof.
  intros Hlen Hi. apply map_r_Ok. intros r Hr.
  rewrite Forall_forall in Hlen. specialize (Hlen r Hr).
  destruct (lookup_lt_is_Some_2 r (Z.to_nat i) ltac:(lia)) as [x Hx].
  rewrite Hx. simpl. by apply getitem_Ok; [lia|].
Qed.

Lemma record_field_Permutation (records1 records2 : list (list Z)) (N : nat)
    st (i : Z) :
  records1 ≡ₚ records2 → Forall (λ r, length r = N) records1 →
  0 ≤ i < Z.of_nat N →
  record_field records1 st i = record_field records2 st i.
Proof.
  intros Hperm Hlen Hi. destruct st as [size structure]. unfold record_field.
  rewrite (record_slice_uniform records1 N), (record_slice_uniform records2 N);
    [|by rewrite <- Hperm|done..].
  cbn [mbind result_bind].
  by rewrite (get_type_size_Permutation _ _ (fmap_Permutation _ _ _ Hperm)).
Qed.

Lemma for_each_ext {S X} (body1 body2 : S → X → result S) xs s :
  (∀ x s, x ∈ xs → body1 s x = body2 s x) →
  for_each body1 xs s = for_each body2 xs s.
Proof.
  revert s. induction xs as [|x xs IH]; intros s Hext; [done|].
  simpl. rewrite (Hext x s) by (by left).
  destruct (body2 s x); simpl; [|done]. apply IH. intros; apply Hext; by right.
Qed.

Lemma elem_of_range (n i : Z) : i ∈ Py.range n → 0 ≤ i < n.
Proof.
  unfold Py.range, Py.range2. intros (k & -> & Hk)%list_elem_of_fmap.
  apply elem_of_seq in Hk. lia.
Qed.

Lemma getitem_0 {A} (l : list A) :
  Py.getitem l 0 =
  match l !! 0%nat with Some x => Ok x | None => Raise IndexError end.
Proof. apply (getitem_nat l 0). Qed.

Lemma get_record_size_struct_Permutation (records1 records2 : list (list Z))
    (N : nat) :
  records1 ≡ₚ records2 → Forall (λ r, length r = N) records1 →
  get_record_size_struct records1 = get_record_size_struct records2.
Proof.
  intros Hperm Hlen1.
  assert (Forall (λ r, length r = N) records2) as Hlen2 by (by rewrite <- Hperm).
  unfold get_record_size_struct.
  rewrite (getitem_0 records1), (getitem_0 records2).
  destruct (records1 !! 0%nat) as [r1|] eqn:E1,
    (records2 !! 0%nat) as [r2|] eqn:E2.
  - assert (length r1 = N) as Hr1 by (by apply (Forall_lookup_1 _ _ _ _ Hlen1 E1)).
    assert (length r2 = N) as Hr2 by (by apply (Forall_lookup_1 _ _ _ _ Hlen2 E2)).
    cbn [mbind result_bind]. unfold Py.len. rewrite Hr1, Hr2.
    rewrite (for_each_ext (record_field records1) (record_field records2)).
    2:{ intros i st Hi%elem_of_range.
        by apply (record_field_Permutation _ _ N). }
    destruct (for_each _ _ _) as [[size structure]|]; cbn [mbind result_bind];
      [|done].
    destruct N as [|N].
    + destruct records1 as [|r1' ?], records2 as [|r2' ?]; try done.
      simpl in E1, E2. simplify_eq. unfold record_slice. simpl.
      destruct r1, r2; done.
    + rewrite (record_slice_uniform records1 (S N)),
        (record_slice_uniform records2 (S N)) by (done || lia).
      cbn [mbind result_bind].
      by rewrite (get_type_size_Permutation _ _ (fmap_Permutation _ _ _ Hperm)).
  - apply lookup_ge_None in E2. apply Permutation_length in Hperm.
    apply lookup_lt_Some in E1. lia.
  - apply lookup_ge_None in E1. apply Permutation_length in Hperm.
    apply lookup_lt_Some in E2. lia.
  - done.
Qed.

(** The tuples of [zip] have one value for each table. *)
Lemma zip_star_length (tables : list (list Z)) t :
  t ∈ Py.zip_star tables → length t = length tables.
Proof.
  revert t. induction tables as [|tab tables IH]; intros t.
  - intros Ht. by apply elem_of_nil in Ht.
  - destruct tables as [|tab' tables].
    + simpl. intros (x & -> & _)%list_elem_of_fmap. done.
    + change (Py.zip_star (tab :: tab' :: tables))
        with (zip_with cons tab (Py.zip_star (tab' :: tables))).
      intros (x & t' & -> & _ & Ht')%elem_of_zip_with.
      simpl. by rewrite (IH t' Ht').
Qed.

(** The outcome of [combine_tables]: the record table numbers the
    distinct tuples in the order of their first occurrence. *)
Lemma combine_tables_numbered tables index records :
  combine_tables tables = (index, records) →
  numbered (first_occurrences (Py.zip_star tables)) records ∧
  Forall (λ t, length t = length tables) (map_to_list records).*1.
Proof.
  intros Hrun. unfold combine_tables in Hrun.
  pose proof (combine_loop_inv (Py.zip_star tables)) as Hinv.
  destruct (combine_loop (Py.zip_star tables)) as [records' index'].
  injection Hrun as -> ->. destruct Hinv as (Hnum & _ & _).
  split; [done|]. apply Forall_forall.
  intros t ([t' s] & -> & Hts)%list_elem_of_fmap. simpl.
  apply elem_of_map_to_list in Hts.
  apply zip_star_length, elem_of_first_occurrences.
  apply (numbered_elem_of _ _ _ Hnum). eauto.
Qed.

(** The record size is the same for every order of the records. *)
Lemma record_size_order (items1 items2 : dict_order) tables index records :
  valid_order items1 → valid_order items2 →
  combine_tables tables = (index, records) →
  get_record_size_struct (keys items1 records) =
  get_record_size_struct (keys items2 records).
Proof.
  intros Hitems1 Hitems2 Hrun.
  destruct (combine_tables_numbered _ _ _ Hrun) as [_ Hlen].
  apply (get_record_size_struct_Permutation _ _ (length tables)).
  - unfold keys. by rewrite (Hitems1 records), (Hitems2 records).
  - unfold keys. by rewrite (Hitems1 records).
Qed.

(** Claim C10: the script's output is the same for every order in which
    the interpreter may list the record dictionary. For any two such
    orders, the record size and layout are equal, the records are printed
    in the same rows, which are the records in the order of their first
    occurrence over the code points, the row [k] holding the record of id
    [k], and the texts printed by [compile], from the three tables, and by
    [main], from the lines of the three files, are equal: the record
    table, its numbering, the two stages and the block size depend on
    the inputs and on the constants of the script only. *)
Theorem compile_deterministic (items1 items2 : dict_order) (maxint : Z) :
  valid_order items1 → valid_order items2 →
  (∀ tables index records,
     combine_tables tables = (index, records) →
     get_record_size_struct (keys items1 records) =
       get_record_size_struct (keys items2 records) ∧
     record_rows items1 records = record_rows items2 records ∧
     record_rows items1 records =
       numbering (first_occurrences (Py.zip_star tables)) ∧
     ∀ (k : nat) t id, record_rows items1 records !! k = Some (t, id) →
       id = Z.of_nat k ∧ records !! t = Some id) ∧
  (∀ script category other_case,
     compile items1 maxint script category other_case =
     compile items2 maxint script category other_case) ∧
  (∀ scripts_txt categories_txt unicode_data_txt,
     main items1 maxint scripts_txt categories_txt unicode_data_txt =
     main items2 maxint scripts_txt categories_txt unicode_data_txt).
Proof.
  intros Hitems1 Hitems2.
  assert (∀ script category other_case,
     compile items1 maxint script category other_case =
     compile items2 maxint script category other_case) as Hcompile.
  { intros script category other_case. unfold compile.
    destruct (combine_tables [script; category; other_case])
      as [table records] eqn:Hrun.
    destruct (combine_tables_numbered _ _ _ Hrun) as [Hnum _].
    pose proof (NoDup_first_occurrences
                  (Py.zip_star [script; category; other_case])) as Hu.
    rewrite (record_size_order items1 items2 _ _ _ Hitems1 Hitems2 Hrun).
    destruct (get_record_size_struct _) as [[record_size record_struct]|];
      cbn [mbind result_bind]; [|done].
    unfold print_records.
    by rewrite (record_rows_numbering items1 _ _ Hitems1 Hu Hnum),
      (record_rows_numbering items2 _ _ Hitems2 Hu Hnum). }
  split_and!; [|done|].
  - intros tables index records Hrun.
    destruct (combine_tables_numbered _ _ _ Hrun) as [Hnum _].
    pose proof (NoDup_first_occurrences (Py.zip_star tables)) as Hu.
    rewrite (record_rows_numbering items1 _ _ Hitems1 Hu Hnum),
      (record_rows_numbering items2 _ _ Hitems2 Hu Hnum).
    split_and!; [by eapply record_size_order|done..|].
    intros k t id Hk. unfold numbering in Hk.
    rewrite list_lookup_imap in Hk.
    destruct (first_occurrences (Py.zip_star tables) !! k) as [t'|] eqn:Ek;
      [|done].
    injection Hk as -> <-. split; [done|]. apply Hnum. eauto.
  - intros f1 f2 f3. unfold main.
    repeat match goal with
           | |- (?r ≫= _) = (?r ≫= _) =>
               destruct r; cbn [mbind result_bind]; [|done]
           end.
    apply Hcompile.
Qed.

(** The theorem at the order of [map_to_list] and at its reverse, on
    three tables of four code points. *)
Lemma compile_deterministic_witness :
  compile map_to_list (2 ^ 63 - 1) [5; 5; 5; 7] [1; 1; 2; 1] [0; 0; 0; 0] =
  compile (λ m, reverse (map_to_list m)) (2 ^ 63 - 1)
          [5; 5; 5; 7] [1; 1; 2; 1] [0; 0; 0; 0].
Proof.
  apply (compile_deterministic map_to_list (λ m, reverse (map_to_list m))
           (2 ^ 63 - 1)).
  - intros m. reflexivity.
  - intros m. apply reverse_Permutation.
Defined.

(** The two orders of the witness list the records differently, and
    neither lists them by id: the sort of [print_records] is what orders
    the rows. *)
Example dictionary_orders :
  let records := (combine_tables [[5; 5; 5; 7]; [1; 1; 2; 1]; [0; 0; 0; 0]]).2 in
  map_to_list records = [([7; 1; 0], 2); ([5; 1; 0], 0); ([5; 2; 0], 1)] ∧
  record_rows map_to_list records =
    [([5; 1; 0], 0); ([5; 2; 0], 1); ([7; 1; 0], 2)] ∧
  record_rows (λ m, reverse (map_to_list m)) records =
    [([5; 1; 0], 0); ([5; 2; 0], 1); ([7; 1; 0], 2)].
Proof. vm_compute. done. Qed.

(** ** [compress_table] for any block size and any length *)

(** A step of the loop keeps the invariant whatever the length of the new
    block is, when the blocks before it have the length [B]. *)
Lemma compress_inv_step_any table B bs st i :
  0 < B →
  Forall (λ b, length b = Z.to_nat B) bs →
  compress_inv bs st →
  compress_inv (bs ++ [Py.slice table i (i + B)]) (compress_step table B st i).
Proof.
  intros HB Hbs. destruct st as [[blocks stage1] stage2].
  intros (Hnum & Hidx & ->). unfold compress_step, compress_inv.
  set (b := Py.slice table i (i + B)) in *.
  rewrite first_occurrences_snoc.
  destruct (blocks !! b) as [s|] eqn:Eb.
  - assert (b ∈ first_occurrences bs) as Hin.
    { apply (numbered_elem_of _ _ _ Hnum). eauto. }
    rewrite decide_True by done. split_and!; [done| |done].
    apply indexed_snoc; [done|]. by apply Hnum.
  - assert (b ∉ first_occurrences bs) as Hin.
    { rewrite (numbered_elem_of _ _ _ Hnum), Eb. by intros [? ?]. }
    rewrite decide_False by done.
    assert (Py.len (concat (first_occurrences bs)) `div` B
            = Z.of_nat (length (first_occurrences bs))) as ->.
    { unfold Py.len. rewrite (length_concat_uniform _ (Z.to_nat B)).
      - rewrite Nat2Z.inj_mul, Z2Nat.id by lia. apply Z.div_mul. lia.
      - apply Forall_forall. intros x Hx.
        rewrite elem_of_first_occurrences in Hx.
        rewrite Forall_forall in Hbs. by apply Hbs. }
    split_and!.
    + by apply numbered_snoc.
    + apply indexed_snoc; [by apply indexed_snoc_r|].
      exists (length (first_occurrences bs)). split; [done|].
      by rewrite lookup_app_r, Nat.sub_diag.
    + rewrite concat_app. simpl. by rewrite app_nil_r.
Qed.

(** The blocks that the loop of [compress_table] cuts: all of [B] values
    but the last, which holds what is left. *)
Lemma slice_chunk (table : list Z) (i B : Z) :
  0 ≤ i ≤ Py.len table → 0 ≤ B →
  Py.slice table i (i + B) = take (Z.to_nat B) (drop (Z.to_nat i) table).
Proof.
  intros Hi HB. unfold Py.slice, Py.clip, Py.len in *.
  destruct (Z.ltb_spec i 0); [lia|]. destruct (Z.ltb_spec (i + B) 0); [lia|].
  rewrite (Z.min_l i) by lia.
  destruct (Z.le_gt_cases (i + B) (Z.of_nat (length table))) as [Hle|Hgt].
  - rewrite Z.min_l by lia. f_equal. lia.
  - rewrite Z.min_r by lia.
    rewrite !take_ge; [done|rewrite length_drop; lia..].
Qed.

Lemma range3_chunks L B :
  0 < B → 0 ≤ L →
  Py.range3 0 L B =
  Ok ((λ k, Z.of_nat k * B) <$> seq 0 (Z.to_nat ((L + B - 1) `div` B))).
Proof.
  intros HB HL. unfold Py.range3.
  destruct (Z.eqb_spec B 0); [lia|]. destruct (Z.ltb_spec 0 B); [|lia].
  f_equal. replace (L - 0 + B - 1) with (L + B - 1) by lia.
  apply list_fmap_ext. intros; lia.
Qed.

(** The number of blocks [n] of a table of [L] values. *)
Lemma chunk_count L B :
  0 < B → 0 ≤ L →
  let n := (L + B - 1) `div` B in
  0 ≤ n ∧ (n - 1) * B < L ∧ L ≤ n * B ∧ (L = 0 → n = 0).
Proof.
  intros HB HL n.
  pose proof (Z.div_mod (L + B - 1) B ltac:(lia)) as Hdm.
  pose proof (Z.mod_pos_bound (L + B - 1) B HB) as Hmod.
  fold n in Hdm. split_and!; nia.
Qed.

(** The state of the loop at the end, for any table. *)
Lemma compress_table_inv_any (table : list Z) B :
  0 < B →
  let n := Z.to_nat ((Py.len table + B - 1) `div` B) in
  let bs := (λ k, take (Z.to_nat B) (drop (k * Z.to_nat B) table)) <$> seq 0 n in
  ∃ blocks stage1 stage2,
    compress_table table B = Ok (stage1, stage2) ∧
    compress_inv bs (blocks, stage1, stage2) ∧
    Forall (λ b, length b = Z.to_nat B) (take (n - 1) bs).
Proof.
  intros HB n bs.
  assert (0 ≤ Py.len table) as HL by (unfold Py.len; lia).
  destruct (chunk_count (Py.len table) B HB HL) as (Hn0 & Hn1 & Hn2 & _).
  fold (Z.of_nat (Z.to_nat ((Py.len table + B - 1) `div` B))) in *.
  assert (Z.of_nat n = (Py.len table + B - 1) `div` B) as Hn by (unfold n; lia).
  rewrite <- Hn in Hn1, Hn2.
  unfold compress_table. rewrite range3_chunks by done.
  cbn [mbind result_bind]. fold n.
  set (starts := (λ k, Z.of_nat k * B) <$> seq 0 n).
  assert ((λ i, Py.slice table i (i + B)) <$> starts = bs) as Hbs.
  { unfold starts, bs. rewrite <- list_fmap_compose.
    apply list_fmap_ext. intros j k Hk%lookup_seq. simpl.
    rewrite slice_chunk by nia. do 2 f_equal. nia. }
  assert (Forall (λ b, length b = Z.to_nat B) (take (n - 1) bs)) as Hlen.
  { apply Forall_forall. intros b (k & Hk)%list_elem_of_lookup_1.
    apply lookup_take_Some in Hk as [Hk Hlt]. unfold bs in Hk.
    rewrite list_lookup_fmap in Hk.
    destruct (seq 0 n !! k) as [k'|] eqn:Ek; [|done].
    apply lookup_seq in Ek as [-> _]. injection Hk as <-.
    rewrite length_take, length_drop. unfold Py.len in *. nia. }
  assert (compress_inv bs (compress_loop table B starts)) as Hinv.
  { destruct n as [|m]; [simpl; split_and!;
      [apply numbered_empty|constructor|done]|].
    assert (starts = ((λ k, Z.of_nat k * B) <$> seq 0 m) ++ [Z.of_nat m * B])
      as Hstarts by (unfold starts; by rewrite seq_S, fmap_app).
    rewrite <- Hbs, Hstarts, fmap_app. unfold compress_loop.
    rewrite foldl_app. simpl.
    assert ((λ i, Py.slice table i (i + B)) <$>
              ((λ k, Z.of_nat k * B) <$> seq 0 m) = take m bs) as Hinit.
    { rewrite <- Hbs, Hstarts, fmap_app, take_app_length'; [done|].
      by rewrite !length_fmap, length_seq. }
    replace (S m - 1)%nat with m in Hlen by lia.
    apply compress_inv_step_any; [done|by rewrite Hinit|].
    apply compress_loop_inv; [done|].
    rewrite <- Hinit in Hlen. by apply Forall_fmap in Hlen. }
  destruct (compress_loop table B starts) as [[blocks stage1] stage2].
  by exists blocks, stage1, stage2.
Qed.

Lemma lookup_concat_prefix {A} (u : list (list A)) (n p j : nat) b :
  Forall (λ b, length b = n) (take p u) → u !! p = Some b →
  (j < length b)%nat → concat u !! (p * n + j)%nat = b !! j.
Proof.
  revert u. induction p as [|p IH]; intros [|b0 u] Hu Hp Hj; try done.
  - simpl in *. simplify_eq. by rewrite lookup_app_l.
  - simpl in *. apply Forall_cons in Hu as [Hb0 Hu].
    rewrite lookup_app_r by lia.
    replace (n + p * n + j - length b0)%nat with (p * n + j)%nat by lia. auto.
Qed.

Lemma elem_of_concat {A} (u : list (list A)) x :
  x ∈ concat u ↔ ∃ b, b ∈ u ∧ x ∈ b.
Proof.
  induction u as [|b u IH]; simpl.
  - split; [by intros ?%elem_of_nil|]. by intros (b & ?%elem_of_nil & _).
  - rewrite elem_of_app, IH. split.
    + intros [Hx|(b' & Hb' & Hx)]; [exists b|exists b']; split;
        (done || by constructor).
    + intros (b' & Hb' & Hx). rewrite elem_of_cons in Hb'.
      destruct Hb' as [->|Hb']; [by left|right; eauto].
Qed.

(** The values kept once take no more room than all of them. *)
Lemma length_concat_first_occurrences (bs : list (list Z)) :
  (length (concat (first_occurrences bs)) ≤ length (concat bs))%nat.
Proof.
  induction bs as [|b bs IH] using rev_ind; [done|].
  rewrite first_occurrences_snoc. case_decide.
  - rewrite concat_app, length_app. lia.
  - rewrite !concat_app, !length_app. lia.
Qed.

(** The blocks put end to end are the table. *)
Lemma concat_chunks (table : list Z) (B n : nat) :
  concat ((λ k, take B (drop (k * B) table)) <$> seq 0 n) = take (n * B) table.
Proof.
  induction n as [|n IH]; [done|].
  rewrite seq_S, fmap_app, concat_app, IH. simpl. rewrite app_nil_r.
  rewrite take_take_drop. f_equal. lia.
Qed.

(** What [compress_table] returns for a block size [B] above zero,
    whatever the length of the table is. *)
Lemma compress_table_any (table : list Z) B :
  0 < B →
  ∃ (u : list (list Z)) stage1 stage2,
    compress_table table B = Ok (stage1, stage2) ∧
    stage2 = concat u ∧
    Py.len stage1 = (Py.len table + B - 1) `div` B ∧
    (length stage2 ≤ length table)%nat ∧
    (∀ b, b ∈ u → b ≠ [] ∧ ∀ v, v ∈ b → v ∈ table) ∧
    (∀ s, s ∈ stage1 →
       ∃ (p : nat) b, s = Z.of_nat p ∧ u !! p = Some b ∧
                      Forall (λ b, length b = Z.to_nat B) (take p u)) ∧
    (∀ c, 0 ≤ c < Py.len table →
       ∃ (p : nat) b v,
         stage1 !! Z.to_nat (c `div` B) = Some (Z.of_nat p) ∧
         u !! p = Some b ∧
         Forall (λ b, length b = Z.to_nat B) (take p u) ∧
         b !! Z.to_nat (c `mod` B) = Some v ∧
         table !! Z.to_nat c = Some v).
Proof.
  intros HB.
  destruct (compress_table_inv_any table B HB)
    as (blocks & stage1 & stage2 & Hrun & (Hnum & Hidx & ->) & Hlen).
  assert (0 ≤ Py.len table) as HL by (unfold Py.len; lia).
  destruct (chunk_count (Py.len table) B HB HL) as (Hn0 & Hn1 & Hn2 & _).
  set (n := Z.to_nat ((Py.len table + B - 1) `div` B)) in *.
  assert (Z.of_nat n = (Py.len table + B - 1) `div` B) as Hn by (unfold n; lia).
  rewrite <- Hn in Hn1, Hn2 |- *.
  set (bs := (λ k, take (Z.to_nat B) (drop (k * Z.to_nat B) table)) <$> seq 0 n)
    in *.
  set (u := first_occurrences bs) in *.
  assert (∀ k b, bs !! k = Some b →
            b = take (Z.to_nat B) (drop (k * Z.to_nat B) table) ∧ (k < n)%nat)
    as Hbs.
  { intros k b Hk. unfold bs in Hk. rewrite list_lookup_fmap in Hk.
    destruct (seq 0 n !! k) as [k'|] eqn:Ek; [|done].
    apply lookup_seq in Ek as [-> ?]. by injection Hk as <-. }
  (* the blocks before any block of [u] have the length [B] *)
  assert (∀ p b, u !! p = Some b →
            Forall (λ b, length b = Z.to_nat B) (take p u)) as Hprefix.
  { intros p b Hp. destruct n as [|m].
    - unfold u, bs in Hp. done.
    - replace (S m - 1)%nat with m in Hlen by lia.
      assert (bs = take m bs ++ drop m bs) as Hsplit
        by (by rewrite take_drop).
      assert (∃ x, drop m bs = [x]) as [x Hx].
      { assert (length (drop m bs) = 1%nat) as Hl.
        { rewrite length_drop. unfold bs. rewrite length_fmap, length_seq. lia. }
        destruct (drop m bs) as [|x [|??]]; simplify_eq/=. eauto. }
      unfold u in Hp |- *. rewrite Hsplit, Hx, first_occurrences_snoc in Hp |- *.
      assert (Forall (λ b, length b = Z.to_nat B)
                     (first_occurrences (take m bs))) as Hu0.
      { apply Forall_forall. intros y Hy.
        rewrite elem_of_first_occurrences in Hy.
        rewrite Forall_forall in Hlen. by apply Hlen. }
      case_decide; [by apply Forall_take|].
      apply lookup_app_Some in Hp as [Hp|[Hp1 Hp2]].
      + rewrite take_app_le by (apply lookup_lt_Some in Hp; lia).
        by apply Forall_take.
      + apply list_lookup_singleton_Some in Hp2 as [Hp2 _].
        rewrite take_app_le by lia. by apply Forall_take. }
  exists u, stage1, (concat u). split_and!; [done|done| | | | |].
  - unfold Py.len. rewrite <- (Forall2_length _ _ _ Hidx).
    unfold bs. by rewrite length_fmap, length_seq.
  - etrans; [apply length_concat_first_occurrences|].
    unfold bs. rewrite concat_chunks, length_take. lia.
  - intros b Hb. unfold u in Hb. rewrite elem_of_first_occurrences in Hb.
    apply list_elem_of_lookup_1 in Hb as [k Hk].
    destruct (Hbs _ _ Hk) as [-> Hlt]. split.
    + intros Hnil%(f_equal length). simpl in Hnil.
      rewrite length_take, length_drop in Hnil. unfold Py.len in *. nia.
    + intros v Hv. by apply subseteq_take, subseteq_drop in Hv.
  - intros s (k & Hk)%list_elem_of_lookup_1.
    destruct (Forall2_lookup_r _ _ _ _ _ Hidx Hk) as (b & _ & p & -> & Hp).
    exists p, b. split_and!; [done..|]. by eapply Hprefix.
  - intros c Hc.
    pose proof (Z.div_mod c B ltac:(lia)) as HcB.
    pose proof (Z.mod_pos_bound c B HB) as Hj.
    assert (0 ≤ c `div` B) by (apply Z.div_pos; lia).
    assert (c `div` B < Z.of_nat n) as Hk by nia.
    set (k := Z.to_nat (c `div` B)). set (j := Z.to_nat (c `mod` B)).
    assert (bs !! k
            = Some (take (Z.to_nat B) (drop (k * Z.to_nat B) table))) as Hbk.
    { unfold bs. rewrite list_lookup_fmap, lookup_seq_lt by lia. done. }
    destruct (indexed_lookup _ _ _ _ _ Hidx Hbk) as (p & Hp & Hup).
    assert (is_Some (table !! Z.to_nat c)) as [v Hv].
    { apply lookup_lt_is_Some. unfold Py.len in Hc. lia. }
    exists p, (take (Z.to_nat B) (drop (k * Z.to_nat B) table)), v.
    split_and!; [done|done|by eapply Hprefix| |done].
    rewrite lookup_take_lt by lia. rewrite lookup_drop, <- Hv.
    f_equal. unfold k, j. nia.
Qed.



(** The lengths and the values of the two stages. *)
Lemma compress_table_stages (table : list Z) (B : Z) :
  0 < B →
  ∃ stage1 stage2,
    compress_table table B = Ok (stage1, stage2) ∧
    Py.len stage1 = (Py.len table + B - 1) `div` B ∧
    Py.len stage2 ≤ Py.len table ∧
    (∀ v, v ∈ stage2 → v ∈ table) ∧
    (∀ s, s ∈ stage1 → 0 ≤ s ∧ s * B < Py.len stage2).
Proof.
  intros HB.
  destruct (compress_table_any table B HB)
    as (u & stage1 & stage2 & Hrun & -> & Hlen1 & Hlen2 & Hu & Hs & _).
  exists stage1, (concat u). split_and!; [done|done|unfold Py.len; lia| |].
  - intros v (b & Hb & Hv)%elem_of_concat. by apply (Hu b Hb).
  - intros s (p & b & -> & Hup & Hprefix)%Hs. split; [lia|].
    destruct (Hu b) as [Hne _]; [by eapply list_elem_of_lookup_2|].
    destruct b as [|x b]; [done|].
    pose proof (lookup_concat_prefix u _ p 0 (x :: b) Hprefix Hup
                  ltac:(simpl; lia)) as Hx.
    apply lookup_lt_Some in Hx. unfold Py.len. nia.
Qed.

(** For a block size [B] above zero, stage 1 has one entry for each block,
    the number of values divided by [B] and rounded up; stage 2 is never
    longer than the table and holds values of the table only; and each
    entry of stage 1 is the number of a block that starts inside stage
    2. *)
Theorem compress_table_bounds (table : list Z) (B : Z) :
  0 < B →
  ∃ stage1 stage2,
    compress_table table B = Ok (stage1, stage2) ∧
    Py.len stage1 = (Py.len table + B - 1) `div` B ∧
    Py.len stage2 ≤ Py.len table ∧
    (∀ v, v ∈ stage2 → v ∈ table) ∧
    (∀ s, s ∈ stage1 → 0 ≤ s ∧ s * B < Py.len stage2).
Proof. apply compress_table_stages. Qed.

(** The theorem at a table of nine values in blocks of two. *)
Lemma compress_table_bounds_witness :
  ∃ stage1 stage2,
    compress_table [0; 0; 1; 2; 0; 0; 1; 2; 3] 2 = Ok (stage1, stage2) ∧
    Py.len stage1 = 5 ∧ Py.len stage2 ≤ 9 ∧
    (∀ v, v ∈ stage2 → v ∈ [0; 0; 1; 2; 0; 0; 1; 2; 3]) ∧
    (∀ s, s ∈ stage1 → 0 ≤ s ∧ s * 2 < Py.len stage2).
Proof. apply (compress_table_bounds [0; 0; 1; 2; 0; 0; 1; 2; 3] 2). lia. Defined.

(** [compress_table] raises an error for the block size zero only, the
    [ValueError] of [range]; a negative block size and an empty table give
    two empty stages. *)
Theorem compress_table_errors (table : list Z) (B : Z) :
  (∀ e, compress_table table B = Raise e ↔ B = 0 ∧ e = ValueError) ∧
  (B < 0 → compress_table table B = Ok ([], [])) ∧
  (B ≠ 0 → compress_table [] B = Ok ([], [])).
Proof.
  assert (B < 0 → ∀ t : list Z, compress_table t B = Ok ([], [])) as Hneg.
  { intros HB t. unfold compress_table, Py.range3.
    destruct (Z.eqb_spec B 0); [lia|]. destruct (Z.ltb_spec 0 B); [lia|].
    replace (Z.to_nat ((0 - Py.len t - B - 1) `div` (- B))) with 0%nat; [done|].
    assert ((0 - Py.len t - B - 1) `div` (- B) < 1); [|lia].
    apply Z.div_lt_upper_bound; unfold Py.len; lia. }
  split_and!.
  - intros e. split.
    + intros Hrun. destruct (Z.lt_trichotomy B 0) as [HB|[->|HB]].
      * by rewrite Hneg in Hrun.
      * by injection Hrun as <-.
      * destruct (compress_table_any table B HB) as (?&?&?& Hrun' &_).
        by rewrite Hrun' in Hrun.
    + by intros [-> ->].
  - intros HB. by apply Hneg.
  - intros HB. destruct (Z.lt_trichotomy B 0) as [?|[->|?]]; [by apply Hneg|done|].
    unfold compress_table, Py.range3.
    destruct (Z.eqb_spec B 0); [lia|]. destruct (Z.ltb_spec 0 B); [|lia].
    replace (Z.to_nat ((Py.len [] - 0 + B - 1) `div` B)) with 0%nat; [done|].
    rewrite Z.div_small; [done|]. unfold Py.len. simpl. lia.
Qed.

(** ** More on [combine_tables] *)

Lemma zip_star_shortest (tables : list (list Z)) :
  (∀ t, t ∈ tables → (length (Py.zip_star tables) ≤ length t)%nat) ∧
  (tables ≠ [] → ∃ t, t ∈ tables ∧ length (Py.zip_star tables) = length t).
Proof.
  induction tables as [|tab tables [IH1 IH2]].
  - split; [|done]. intros t Ht. by apply elem_of_nil in Ht.
  - destruct tables as [|tab' tables].
    + simpl. rewrite length_fmap. split.
      * intros t Ht%list_elem_of_singleton. by subst.
      * intros _. exists tab. split; [by left|done].
    + change (Py.zip_star (tab :: tab' :: tables))
        with (zip_with cons tab (Py.zip_star (tab' :: tables))).
      rewrite length_zip_with. split.
      * intros t Ht. rewrite elem_of_cons in Ht. destruct Ht as [->|Ht]; [lia|].
        specialize (IH1 t Ht). lia.
      * intros _. destruct IH2 as (t & Ht & Hlen); [done|].
        destruct (Nat.le_gt_cases (length tab)
                    (length (Py.zip_star (tab' :: tables)))).
        -- exists tab. split; [by left|lia].
        -- exists t. split; [by right|lia].
Qed.

Lemma combine_tables_inv tables index records :
  combine_tables tables = (index, records) →
  combine_inv (Py.zip_star tables) (records, index).
Proof.
  intros Hrun. unfold combine_tables in Hrun.
  pose proof (combine_loop_inv (Py.zip_star tables)) as Hinv.
  destruct (combine_loop (Py.zip_star tables)) as [records' index'].
  by injection Hrun as -> ->.
Qed.

(** Tables of different lengths are cut to the shortest one without an
    error: the index has the length of a shortest table; with no table at
    all the index and the record table are empty. *)
Theorem combine_tables_shortest (tables : list (list Z)) index records :
  combine_tables tables = (index, records) →
  (∀ t, t ∈ tables → (length index ≤ length t)%nat) ∧
  (tables ≠ [] → ∃ t, t ∈ tables ∧ length index = length t) ∧
  (tables = [] → index = [] ∧ records = ∅).
Proof.
  intros Hrun. pose proof (combine_tables_inv _ _ _ Hrun) as (_ & Hidx & _).
  assert (length index = length (Py.zip_star tables)) as ->
    by (symmetry; apply (Forall2_length _ _ _ Hidx)).
  destruct (zip_star_shortest tables) as [H1 H2]. split_and!; [done..|].
  intros ->. by injection Hrun as <- <-.
Qed.

(** The theorem at tables of four, two and three values. *)
Lemma combine_tables_shortest_witness :
  ∃ t, t ∈ [[5; 5; 5; 7]; [1; 1]; [0; 0; 0]] ∧ length [0; 0] = length t.
Proof.
  apply (combine_tables_shortest [[5; 5; 5; 7]; [1; 1]; [0; 0; 0]] [0; 0]
           (combine_tables [[5; 5; 5; 7]; [1; 1]; [0; 0; 0]]).2);
    [reflexivity|done].
Defined.

(** The first occurrences of a longer list start with those of the
    list. *)
Lemma first_occurrences_app_prefix (l1 l2 : list (list Z)) :
  ∃ rest, first_occurrences (l1 ++ l2) = first_occurrences l1 ++ rest.
Proof.
  induction l2 as [|x l2 [rest IH]] using rev_ind.
  - exists []. by rewrite !app_nil_r.
  - rewrite app_assoc, first_occurrences_snoc, IH. case_decide.
    + by exists rest.
    + exists (rest ++ [x]). by rewrite app_assoc.
Qed.

Lemma length_first_occurrences_le (l : list (list Z)) :
  (length (first_occurrences l) ≤ length l)%nat.
Proof.
  induction l as [|x l IH] using rev_ind; [done|].
  rewrite first_occurrences_snoc. case_decide; rewrite !length_app; simpl; lia.
Qed.

(** Ids are given in the order of the first occurrences: the id at a
    position is at most the position, the first position has the id zero,
    and every smaller id is in the index at an earlier position. *)
Theorem combine_tables_first_seen (tables : list (list Z)) index records :
  combine_tables tables = (index, records) →
  ∀ (i : nat) id, index !! i = Some id →
    0 ≤ id ≤ Z.of_nat i ∧
    ∀ id', 0 ≤ id' < id → ∃ j : nat, (j < i)%nat ∧ index !! j = Some id'.
Proof.
  intros Hrun i id Hi.
  pose proof (combine_tables_inv _ _ _ Hrun) as (Hnum & Hidx & _).
  set (ts := Py.zip_star tables) in *. set (u := first_occurrences ts) in *.
  pose proof (NoDup_first_occurrences ts) as Hnodup. fold u in Hnodup.
  destruct (Forall2_lookup_r _ _ _ _ _ Hidx Hi) as (t & Ht & p & -> & Hp).
  split.
  - split; [lia|].
    (* [t] is among the first occurrences of the first [i + 1] tuples *)
    destruct (first_occurrences_app_prefix (take (S i) ts) (drop (S i) ts))
      as [rest Hu].
    rewrite take_drop in Hu. fold u in Hu.
    assert (t ∈ first_occurrences (take (S i) ts))
      as (q & Hq)%list_elem_of_lookup_1.
    { apply elem_of_first_occurrences, elem_of_take. exists i. split; [done|lia]. }
    pose proof (lookup_lt_Some _ _ _ Hq) as Hlt.
    pose proof (length_first_occurrences_le (take (S i) ts)) as Hle.
    rewrite length_take in Hle.
    assert (u !! q = Some t) as Hq' by (rewrite Hu; by apply lookup_app_l_Some).
    assert (p = q) as -> by (by apply (NoDup_lookup u _ _ t)). lia.
  - intros id' Hid'.
    assert (is_Some (u !! Z.to_nat id')) as [t' Ht'].
    { apply lookup_lt_is_Some. apply lookup_lt_Some in Hp. lia. }
    destruct (first_occurrences_order ts (Z.to_nat id') p t' t Ht' Hp ltac:(lia))
      as (j & Hj & Hfirst).
    exists j. split; [by apply Hfirst|].
    destruct (indexed_lookup _ _ _ _ _ Hidx Hj) as (q & Hq & Huq).
    assert (q = Z.to_nat id') as -> by (by apply (NoDup_lookup u _ _ t')).
    by rewrite Z2Nat.id in Hq by lia.
Qed.

(** The theorem at the position 3 of the index of two tables. *)
Lemma combine_tables_first_seen_witness :
  0 ≤ 2 ≤ Z.of_nat 3 ∧
  ∀ id', 0 ≤ id' < 2 →
    ∃ j : nat, (j < 3)%nat ∧ [0; 0; 1; 2] !! j = Some id'.
Proof.
  apply (combine_tables_first_seen [[5; 5; 5; 7]; [1; 1; 2; 1]] [0; 0; 1; 2]
           (combine_tables [[5; 5; 5; 7]; [1; 1; 2; 1]]).2);
    reflexivity.
Defined.

(** From a code point to its properties through the three tables: for
    the index of [combine_tables] compressed with a block size above
    zero, the value [stage2[stage1[c / B] * B + c % B]] is an id below the
    number of records, and the row of that number printed by
    [print_records] holds the values of the tables at [c]. *)
Theorem lookup_recovers_properties (items : dict_order)
    (tables : list (list Z)) index records (B : Z) :
  valid_order items →
  combine_tables tables = (index, records) →
  0 < B →
  ∃ stage1 stage2,
    compress_table index B = Ok (stage1, stage2) ∧
    ∀ c, 0 ≤ c < Py.len index →
      ∃ s id t,
        Py.getitem stage1 (c `div` B) = Ok s ∧
        Py.getitem stage2 (s * B + c `mod` B) = Ok id ∧
        0 ≤ id < Z.of_nat (size records) ∧
        Py.getitem (record_rows items records) id = Ok (t, id) ∧
        Py.zip_star tables !! Z.to_nat c = Some t.
Proof.
  intros Hitems Hrun HB.
  pose proof (combine_tables_inv _ _ _ Hrun) as (Hnum & Hidx & Hsize).
  set (ts := Py.zip_star tables) in *. set (u := first_occurrences ts) in *.
  pose proof (NoDup_first_occurrences ts) as Hnodup. fold u in Hnodup.
  destruct (compress_table_any index B HB)
    as (v & stage1 & stage2 & Hc & -> & _ & _ & _ & _ & Hget).
  exists stage1, (concat v). split; [done|]. intros c Hc'.
  destruct (Hget c Hc') as (p & b & id & Hp & Hvp & Hprefix & Hb & Hid).
  pose proof (Z.mod_pos_bound c B HB).
  assert (0 ≤ c `div` B) by (apply Z.div_pos; lia).
  destruct (Forall2_lookup_r _ _ _ _ _ Hidx Hid) as (t & Ht & q & -> & Hq).
  exists (Z.of_nat p), (Z.of_nat q), t. split_and!.
  - by apply getitem_Ok; [lia|].
  - apply getitem_Ok; [lia|].
    replace (Z.to_nat (Z.of_nat p * B + c `mod` B))
      with (p * Z.to_nat B + Z.to_nat (c `mod` B))%nat by nia.
    rewrite (lookup_concat_prefix v _ p _ b Hprefix Hvp); [done|].
    by apply lookup_lt_Some in Hb.
  - lia.
  - apply lookup_lt_Some in Hq. lia.
  - rewrite getitem_nat, (record_rows_numbering items u records) by done.
    unfold numbering. by rewrite list_lookup_imap, Hq.
  - done.
Qed.

(** The theorem at two tables of four code points in blocks of two. *)
Lemma lookup_recovers_properties_witness :
  ∃ stage1 stage2,
    compress_table [0; 0; 1; 2] 2 = Ok (stage1, stage2) ∧
    ∀ c, 0 ≤ c < 4 →
      ∃ s id t,
        Py.getitem stage1 (c `div` 2) = Ok s ∧
        Py.getitem stage2 (s * 2 + c `mod` 2) = Ok id ∧
        0 ≤ id < Z.of_nat (size (combine_tables [[5; 5; 5; 7]; [1; 1; 2; 1]]).2) ∧
        Py.getitem
          (record_rows map_to_list
             (combine_tables [[5; 5; 5; 7]; [1; 1; 2; 1]]).2) id = Ok (t, id) ∧
        Py.zip_star [[5; 5; 5; 7]; [1; 1; 2; 1]] !! Z.to_nat c = Some t.
Proof.
  apply (lookup_recovers_properties map_to_list
           [[5; 5; 5; 7]; [1; 1; 2; 1]] [0; 0; 1; 2]
           (combine_tables [[5; 5; 5; 7]; [1; 1; 2; 1]]).2 2).
  - intros m. reflexivity.
  - reflexivity.
  - lia.
Defined.

(** ** More on [get_type_size] and [get_tables_size] *)

(** The type chosen depends on which values occur only, not on their
    order or number. *)
Theorem get_type_size_same_values (l1 l2 : list Z) :
  (∀ x, x ∈ l1 ↔ x ∈ l2) → get_type_size l1 = get_type_size l2.
Proof.
  intros Hsame. destruct l1 as [|x l1].
  - destruct l2 as [|y l2]; [done|].
    pose proof (proj2 (Hsame y) ltac:(by left)) as Hy.
    by apply elem_of_nil in Hy.
  - destruct (min_Ok (x :: l1) ltac:(done)) as (mn & _ & Hmn).
    destruct (max_Ok (x :: l1) ltac:(done)) as (mx & _ & Hmx).
    rewrite (get_type_size_find _ mn mx Hmn Hmx).
    symmetry. apply get_type_size_find.
    + destruct Hmn as [Hin Hle]. split; [by apply Hsame|].
      intros y Hy. apply Hle. by apply Hsame.
    + destruct Hmx as [Hin Hle]. split; [by apply Hsame|].
      intros y Hy. apply Hle. by apply Hsame.
Qed.

(** The theorem at two arrays of the values 3 and 300. *)
Lemma get_type_size_same_values_witness :
  get_type_size [3; 300; 3] = get_type_size [300; 3].
Proof.
  apply get_type_size_same_values. intros x.
  rewrite !elem_of_cons. split; intros H; tauto.
Defined.

(** The type of an array whose values are all in another array. *)
Lemma get_type_size_subset (l1 l2 : list Z) ty2 :
  l1 ≠ [] → (∀ x, x ∈ l1 → x ∈ l2) → get_type_size l2 = Ok ty2 →
  ∃ ty1, get_type_size l1 = Ok ty1 ∧ ty1.2 ≤ ty2.2.
Proof.
  intros Hne Hsub Hty2.
  assert (l2 ≠ []) as Hne2 by (intros ->; done).
  destruct (min_Ok _ Hne) as (mn1 & _ & Hmn1).
  destruct (max_Ok _ Hne) as (mx1 & _ & Hmx1).
  destruct (min_Ok _ Hne2) as (mn2 & _ & Hmn2).
  destruct (max_Ok _ Hne2) as (mx2 & _ & Hmx2).
  assert (mn2 ≤ mn1 ∧ mx1 ≤ mx2 ∧ mn1 ≤ mx1) as (? & ? & ?).
  { destruct Hmn1 as [H1 H1'], Hmx1 as [H2 H2'], Hmn2 as [_ H3], Hmx2 as [_ H4].
    split_and!; [apply H3|apply H4|apply H1']; auto. }
  rewrite (get_type_size_cases _ _ _ Hmn2 Hmx2) in Hty2.
  rewrite (get_type_size_cases _ _ _ Hmn1 Hmx1).
  repeat case_decide; simplify_eq; simpl;
    first [lia | eexists; split; [reflexivity|simpl; lia]].
Qed.

(** An array whose values are all in another array that has a type has a
    type as well, and one that is not wider. *)
Theorem get_type_size_monotone (l1 l2 : list Z) ty2 :
  l1 ≠ [] → (∀ x, x ∈ l1 → x ∈ l2) → get_type_size l2 = Ok ty2 →
  ∃ ty1, get_type_size l1 = Ok ty1 ∧ ty1.2 ≤ ty2.2.
Proof. apply get_type_size_subset. Qed.

(** The theorem at the arrays [200] and [-1, 200]. *)
Lemma get_type_size_monotone_witness :
  ∃ ty1, get_type_size [200] = Ok ty1 ∧ ty1.2 ≤ 2.
Proof.
  apply (get_type_size_monotone [200] [-1; 200] ("pcre_int16"%string, 2)).
  - done.
  - intros x Hx%list_elem_of_singleton. subst. by right; left.
  - reflexivity.
Defined.

(** The loop of [get_tables_size] from any total. *)
Lemma get_tables_size_from (tables : list (list Z)) (acc : Z) :
  for_each (λ total_size table,
              '(_, size) ← get_type_size table ;
              Ok (total_size + size * Py.len table)) tables acc =
  total ← get_tables_size tables ; Ok (acc + total).
Proof.
  unfold get_tables_size. revert acc.
  induction tables as [|t tables IH]; intros acc; simpl.
  - f_equal. lia.
  - destruct (get_type_size t) as [[name size]|e]; simpl; [|done].
    rewrite (IH (acc + size * Py.len t)), (IH (0 + size * Py.len t)).
    destruct (for_each _ tables 0); simpl; [|done]. f_equal. lia.
Qed.

(** The size of several tables is the sum of the sizes of two parts of
    them, and an error of a part is an error of the whole. *)
Theorem get_tables_size_app (tables1 tables2 : list (list Z)) :
  get_tables_size (tables1 ++ tables2) =
  size1 ← get_tables_size tables1 ;
  size2 ← get_tables_size tables2 ;
  Ok (size1 + size2).
Proof.
  unfold get_tables_size at 1. rewrite for_each_app.
  fold (get_tables_size tables1).
  destruct (get_tables_size tables1) as [size1|e]; simpl; [|done].
  apply get_tables_size_from.
Qed.

Lemma get_tables_size_cons (t : list Z) (tables : list (list Z)) :
  get_tables_size (t :: tables) =
  ty ← get_type_size t ;
  rest ← get_tables_size tables ;
  Ok (ty.2 * Py.len t + rest).
Proof.
  unfold get_tables_size at 1. cbn [for_each].
  destruct (get_type_size t) as [[name size]|e]; cbn [mbind result_bind]; [|done].
  rewrite get_tables_size_from.
  destruct (get_tables_size tables); cbn [mbind result_bind]; [|done].
  simpl. f_equal.
Qed.

(** When [get_tables_size] returns a size, no table is empty, and the
    size is between one byte and four bytes for each value. *)
Theorem get_tables_size_bounds (tables : list (list Z)) (total : Z) :
  get_tables_size tables = Ok total →
  Forall (λ t, t ≠ []) tables ∧
  Py.len (concat tables) ≤ total ≤ 4 * Py.len (concat tables).
Proof.
  revert total. induction tables as [|t tables IH]; intros total.
  - intros [= <-]. split; [constructor|]. unfold Py.len. simpl. lia.
  - rewrite get_tables_size_cons.
    destruct (get_type_size t) as [[name size]|e] eqn:Ht;
      cbn [mbind result_bind]; [|done].
    destruct (get_tables_size tables) as [rest|e];
      cbn [mbind result_bind]; [|done].
    intros [= <-]. destruct (IH rest eq_refl) as [Hne Hrest].
    pose proof (get_type_size_width t _ Ht) as Hsize. simpl in Hsize.
    split.
    + constructor; [by intros ->|done].
    + unfold Py.len in *. simpl. rewrite length_app, Nat2Z.inj_add.
      rewrite !elem_of_cons in Hsize.
      destruct Hsize as [->|[->|[->|Hs]]]; [lia..|by apply elem_of_nil in Hs].
Qed.

(** The theorem at the two stages [0, 1] and [0, 0, 300, 2]. *)
Lemma get_tables_size_bounds_witness :
  Forall (λ t : list Z, t ≠ []) [[0; 1]; [0; 0; 300; 2]] ∧
  Py.len (concat [[0; 1]; [0; 0; 300; 2]]) ≤ 10
    ≤ 4 * Py.len (concat [[0; 1]; [0; 0; 300; 2]]).
Proof. apply (get_tables_size_bounds [[0; 1]; [0; 0; 300; 2]] 10). reflexivity. Defined.

(** ** More on [get_record_size_struct] *)

Lemma for_each_Ok_inv {S X} (body : S → X → result S) xs s s' x :
  for_each body xs s = Ok s' → x ∈ xs → ∃ s1 s2, body s1 x = Ok s2.
Proof.
  revert s. induction xs as [|y xs IH]; intros s Hrun Hx.
  - by apply elem_of_nil in Hx.
  - simpl in Hrun. apply bind_Ok in Hrun as (s1 & Hy & Hrun).
    rewrite elem_of_cons in Hx. destruct Hx as [->|Hx]; eauto.
Qed.

Lemma map_r_Ok_inv {A B} (f : A → result B) (l : list A) ys x :
  Py.map_r f l = Ok ys → x ∈ l → ∃ y, f x = Ok y.
Proof.
  revert ys. induction l as [|a l IH]; intros ys Hrun Hx.
  - by apply elem_of_nil in Hx.
  - simpl in Hrun. apply bind_Ok in Hrun as (y & Hy & Hrun).
    apply bind_Ok in Hrun as (ys' & Hys & _).
    rewrite elem_of_cons in Hx. destruct Hx as [->|Hx]; eauto.
Qed.

Lemma getitem_Ok_inv {A} (l : list A) (i : Z) x :
  0 ≤ i → Py.getitem l i = Ok x → l !! Z.to_nat i = Some x.
Proof.
  intros Hi. unfold Py.getitem.
  destruct (Z.ltb_spec i 0); [lia|]. destruct (Z.ltb_spec i 0); [lia|].
  destruct (l !! Z.to_nat i); [|done]. by intros [= <-].
Qed.

(** [get_record_size_struct] returns no size for an empty list of
    records, for records without a field, and when a record has fewer
    fields than the first one: the first two raise [IndexError]. *)
Theorem get_record_size_struct_errors :
  get_record_size_struct [] = Raise IndexError ∧
  (∀ rest, get_record_size_struct ([] :: rest) = Raise IndexError) ∧
  (∀ record0 rest r out,
     r ∈ rest → (length r < length record0)%nat →
     get_record_size_struct (record0 :: rest) ≠ Ok out).
Proof.
  split_and!; [done|done|].
  intros record0 rest r out Hr Hshort Hrun.
  unfold get_record_size_struct in Hrun.
  change (Py.getitem (record0 :: rest) 0) with (Ok record0 : result _) in Hrun.
  cbn [mbind result_bind] in Hrun.
  apply bind_Ok in Hrun as ([size structure] & Hloop & _).
  assert (Z.of_nat (length r) ∈ Py.range (Py.len record0)) as Hm.
  { unfold Py.range, Py.range2, Py.len. apply list_elem_of_fmap.
    exists (length r). split; [lia|]. apply elem_of_seq. lia. }
  destruct (for_each_Ok_inv _ _ _ _ _ Hloop Hm) as ([s1 st1] & s2 & Hfield).
  unfold record_field in Hfield.
  apply bind_Ok in Hfield as (slice & Hslice & _).
  destruct (map_r_Ok_inv _ _ _ r Hslice ltac:(by right)) as (x & Hx).
  apply getitem_Ok_inv in Hx; [|lia].
  apply lookup_lt_Some in Hx. lia.
Qed.

Lemma getitem_take {A} (l : list A) (N : nat) (i : Z) :
  0 ≤ i < Z.of_nat N → Py.getitem (take N l) i = Py.getitem l i.
Proof.
  intros Hi. unfold Py.getitem.
  destruct (Z.ltb_spec i 0); [lia|]. destruct (Z.ltb_spec i 0); [lia|].
  by rewrite lookup_take_lt by lia.
Qed.

Lemma map_r_fmap {A B C} (f : B → result C) (g : A → B) (l : list A) :
  Py.map_r f (g <$> l) = Py.map_r (f ∘ g) l.
Proof.
  induction l as [|x l IH]; [done|]. csimpl. by rewrite IH.
Qed.

Lemma map_r_ext {A B} (f g : A → result B) (l : list A) :
  (∀ x, f x = g x) → Py.map_r f l = Py.map_r g l.
Proof.
  intros Hfg. induction l as [|x l IH]; [done|]. simpl. by rewrite Hfg, IH.
Qed.

(** The fields that a record has beyond those of the first record are
    not read: the size and the layout are those of the records cut to the
    number of fields of the first one. *)
Theorem get_record_size_struct_ignores_extra (record0 : list Z)
    (rest : list (list Z)) :
  get_record_size_struct (record0 :: rest) =
  get_record_size_struct (take (length record0) <$> record0 :: rest).
Proof.
  set (N := length record0). set (records := record0 :: rest).
  assert (∀ i, 0 ≤ i < Z.of_nat N →
            record_slice (take N <$> records) i = record_slice records i)
    as Hslice.
  { intros i Hi. unfold record_slice. rewrite map_r_fmap.
    apply map_r_ext. intros r. simpl. by apply getitem_take. }
  unfold get_record_size_struct.
  change (Py.getitem records 0) with (Ok record0 : result _).
  change (Py.getitem (take N <$> records) 0)
    with (Ok (take N record0) : result _).
  cbn [mbind result_bind]. unfold Py.len.
  rewrite length_take, Nat.min_id. fold N.
  rewrite (for_each_ext (record_field (take N <$> records))
                        (record_field records)).
  2:{ intros i [size st] Hi%elem_of_range. unfold record_field.
      by rewrite Hslice. }
  destruct (for_each _ _ _) as [[size structure]|]; cbn [mbind result_bind];
    [|done].
  destruct N as [|N'] eqn:EN.
  - destruct record0; [|done]. done.
  - by rewrite Hslice by lia.
Qed.

(** The loop over the fields adds from one to seven bytes for each
    field, and nothing but the width for a field at the offset zero. *)
Lemma for_each_record_field_bounds records (fields : list Z) size st size' st' :
  0 ≤ size →
  for_each (record_field records) fields (size, st) = Ok (size', st') →
  size + Py.len fields ≤ size' ≤ size + 7 * Py.len fields.
Proof.
  revert size st. induction fields as [|i fields IH]; intros size st Hsize.
  - intros [= <- <-]. unfold Py.len. simpl. lia.
  - cbn [for_each]. intros ([size1 st1] & Hfield & Hrun)%bind_Ok.
    unfold record_field in Hfield.
    apply bind_Ok in Hfield as (slice & _ & Hfield).
    apply bind_Ok in Hfield as ([name w] & Hty & [= <- <-]).
    pose proof (get_type_size_width _ _ Hty) as Hw. simpl in Hw.
    destruct (round_up_multiple size w Hw) as [_ Hup].
    assert (1 ≤ w ≤ 4) as Hw'.
    { rewrite !elem_of_cons in Hw.
      destruct Hw as [->|[->|[->|Hw]]]; [lia..|by apply elem_of_nil in Hw]. }
    apply IH in Hrun; [|lia]. unfold Py.len in *. simpl length.
    rewrite Nat2Z.inj_succ. lia.
Qed.

(** A size returned is a multiple of the width of the first field, and
    between one and seven bytes for each field of the first record. *)
Theorem get_record_size_struct_bounds (records : list (list Z)) size structure :
  get_record_size_struct records = Ok (size, structure) →
  ∃ record0 slice0 name0 width0,
    records !! 0%nat = Some record0 ∧
    record_slice records 0 = Ok slice0 ∧
    get_type_size slice0 = Ok (name0, width0) ∧
    size `mod` width0 = 0 ∧
    Py.len record0 ≤ size ≤ 7 * Py.len record0 + 3.
Proof.
  unfold get_record_size_struct. rewrite getitem_0.
  destruct (records !! 0%nat) as [record0|]; [|done].
  cbn [mbind result_bind].
  intros ([size1 st1] & Hloop & Hrest)%bind_Ok.
  apply bind_Ok in Hrest as (slice0 & Hslice & Hrest).
  apply bind_Ok in Hrest as ([name0 width0] & Hty & [= <- <-]).
  exists record0, slice0, name0, width0.
  do 3 (split; [done|]). split.
  - pose proof (get_type_size_width _ _ Hty) as Hw.
    by destruct (round_up_multiple size1 width0 Hw).
  - pose proof (get_type_size_width _ _ Hty) as Hw.
    destruct (round_up_multiple size1 width0 Hw) as [_ Hup]. simpl in Hw.
    assert (1 ≤ width0 ≤ 4) as Hw'.
    { rewrite !elem_of_cons in Hw.
      destruct Hw as [->|[->|[->|Hw]]]; [lia..|by apply elem_of_nil in Hw]. }
    apply for_each_record_field_bounds in Hloop; [|lia].
    assert (Py.len (Py.range (Py.len record0)) = Py.len record0) as Hlen.
    { unfold Py.range, Py.range2, Py.len.
      rewrite length_fmap, length_seq. lia. }
    rewrite Hlen in Hloop. lia.
Qed.

(** The theorem at the records (3, 100000), (6, 6), (6, 123456), (1, 690). *)
Lemma get_record_size_struct_bounds_witness :
  ∃ record0 slice0 name0 width0,
    [[3; 100000]; [6; 6]; [6; 123456]; [1; 690]] !! 0%nat = Some record0 ∧
    record_slice [[3; 100000]; [6; 6]; [6; 123456]; [1; 690]] 0 = Ok slice0 ∧
    get_type_size slice0 = Ok (name0, width0) ∧
    8 `mod` width0 = 0 ∧
    Py.len record0 ≤ 8 ≤ 7 * Py.len record0 + 3.
Proof.
  eapply (get_record_size_struct_bounds
            [[3; 100000]; [6; 6]; [6; 123456]; [1; 690]] 8).
  vm_compute. reflexivity.
Defined.

Lemma record_field_resolved records size st i slice name w :
  record_slice records i = Ok slice → get_type_size slice = Ok (name, w) →
  record_field records (size, st) i =
  Ok (round_up size w + w,
      (st +:+ name +:+ " property_" +:+ Text.dec i +:+ ";" +:+ Text.nl)%string).
Proof. intros Hs Hty. unfold record_field. by rewrite Hs; simpl; rewrite Hty. Qed.

(** Records whose values are all from 0 to 255 are packed without
    padding: the size is the number of fields. *)
Theorem get_record_size_struct_bytes (records : list (list Z)) (N : nat) :
  records ≠ [] → (0 < N)%nat →
  Forall (λ r, length r = N ∧ Forall (λ x, 0 ≤ x ≤ 255) r) records →
  ∃ structure, get_record_size_struct records = Ok (Z.of_nat N, structure).
Proof.
  intros Hne HN Hall.
  assert (Forall (λ r, length r = N) records) as Hlen
    by (eapply Forall_impl; [exact Hall|]; by intros r [? _]).
  assert (∀ i, 0 ≤ i < Z.of_nat N →
            ∃ slice, record_slice records i = Ok slice ∧
                     get_type_size slice = Ok ("uschar"%string, 1)) as Hfield.
  { intros i Hi. eexists. split; [by apply (record_slice_uniform _ N)|].
    set (slice := _ <$> records).
    assert (slice ≠ []) as Hs by (unfold slice; by destruct records).
    destruct (min_Ok _ Hs) as (mn & _ & Hmn).
    destruct (max_Ok _ Hs) as (mx & _ & Hmx).
    assert (∀ x, x ∈ slice → 0 ≤ x ≤ 255) as Hbytes.
    { intros x (r & -> & Hr)%list_elem_of_fmap.
      rewrite Forall_forall in Hall. destruct (Hall r Hr) as [Hl Hr'].
      destruct (lookup_lt_is_Some_2 r (Z.to_nat i) ltac:(lia)) as [y Hy].
      rewrite Hy. simpl. rewrite Forall_forall in Hr'.
      apply Hr'. by eapply list_elem_of_lookup_2. }
    rewrite (get_type_size_cases _ _ _ Hmn Hmx).
    destruct Hmn as [Hmn _], Hmx as [Hmx _].
    apply Hbytes in Hmn, Hmx. by rewrite decide_True by lia. }
  destruct records as [|record0 rest]; [done|].
  set (records := record0 :: rest) in *.
  assert (length record0 = N) as Hlen0 by (by inversion Hlen).
  unfold get_record_size_struct.
  change (Py.getitem records 0) with (Ok record0 : result _).
  cbn [mbind result_bind]. unfold Py.len. rewrite Hlen0.
  assert (∀ (fields : list Z) size st,
            (∀ i, i ∈ fields → 0 ≤ i < Z.of_nat N) →
            ∃ st', for_each (record_field records) fields (size, st)
                   = Ok (size + Py.len fields, st')) as Hloop.
  { induction fields as [|i fields IH]; intros size st Hin.
    - exists st. unfold Py.len. simpl. do 2 f_equal. lia.
    - cbn [for_each].
      destruct (Hfield i) as (slice & Hslice & Hty); [apply Hin; by left|].
      rewrite (record_field_resolved _ _ _ _ _ _ _ Hslice Hty).
      cbn [mbind result_bind].
      destruct (IH (round_up size 1 + 1)
                   (st +:+ "uschar" +:+ " property_" +:+ Text.dec i +:+ ";"
                    +:+ Text.nl)%string) as (st' & ->).
      { intros; apply Hin; by right. }
      exists st'. do 2 f_equal. unfold round_up, Py.len. simpl length.
      rewrite Z.land_m1_r. lia. }
  destruct (Hloop (Py.range (Z.of_nat N)) 0 structure_head) as (st' & ->).
  { intros i. apply elem_of_range. }
  cbn [mbind result_bind].
  destruct (Hfield 0 ltac:(lia)) as (slice & Hs & Hty).
  rewrite Hs. cbn [mbind result_bind]. rewrite Hty.
  cbn [mbind result_bind]. eexists. do 2 f_equal.
  unfold round_up. rewrite Z.land_m1_r. unfold Py.range, Py.range2, Py.len.
  rewrite length_fmap, length_seq. lia.
Qed.

(** The theorem at the first test of [test_record_size] with two
    fields. *)
Lemma get_record_size_struct_bytes_witness :
  ∃ structure,
    get_record_size_struct [[25; 3]; [6; 6]; [34; 6]; [68; 1]]
    = Ok (Z.of_nat 2, structure).
Proof.
  apply (get_record_size_struct_bytes [[25; 3]; [6; 6]; [34; 6]; [68; 1]] 2).
  - done.
  - lia.
  - repeat constructor; lia.
Defined.

(** ** [print_table] *)

Lemma map_r_app {A B} (f : A → result B) (l1 l2 : list A) :
  Py.map_r f (l1 ++ l2) =
  ys1 ← Py.map_r f l1 ; ys2 ← Py.map_r f l2 ; Ok (ys1 ++ ys2).
Proof.
  induction l1 as [|x l1 IH]; simpl.
  - by destruct (Py.map_r f l2).
  - destruct (f x); simpl; [|done]. rewrite IH.
    destruct (Py.map_r f l1); simpl; [|done].
    by destruct (Py.map_r f l2).
Qed.

Lemma map_r_all_Ok {A B} (f : A → result B) (l : list A) :
  (∀ x, x ∈ l → ∃ y, f x = Ok y) →
  ∃ ys, Py.map_r f l = Ok ys ∧ length ys = length l.
Proof.
  induction l as [|x l IH]; intros Hf; [by exists []|].
  destruct (Hf x ltac:(by left)) as [y Hy].
  destruct IH as (ys & Hys & Hlen); [intros; apply Hf; by right|].
  exists (y :: ys). simpl. rewrite Hy. simpl. rewrite Hys. simpl.
  split; [done|]. by rewrite Hlen.
Qed.

Lemma dec_row_length w sep n values :
  Text.dec_row w sep n values =
  if decide (Py.len values = n)
  then Ok (String.concat EmptyString
             ((λ v, Text.dec_w w v +:+ sep)%string <$> values))
  else Raise TypeError.
Proof.
  unfold Text.dec_row. destruct (Z.eqb_spec (Py.len values) n);
    [by rewrite decide_True|by rewrite decide_False].
Qed.

(** A function of the starts of the chunks of [C] values that succeeds
    on a chunk of [C] values and raises [TypeError] on a shorter one,
    mapped over the starts: it succeeds when [C] divides the length of the
    table, and raises [TypeError] otherwise. *)
Lemma map_r_chunks {X} (table : list Z) (C : Z) (f : Z → result X) :
  0 < C →
  (∀ i, 0 ≤ i ≤ Py.len table →
     if decide (Py.len (Py.slice table i (i + C)) = C)
     then ∃ y, f i = Ok y else f i = Raise TypeError) →
  ∃ starts,
    Py.range3 0 (Py.len table) C = Ok starts ∧
    if decide (Py.len table `mod` C = 0)
    then ∃ ys, Py.map_r f starts = Ok ys ∧
               Py.len ys = Py.len table `div` C
    else Py.map_r f starts = Raise TypeError.
Proof.
  intros HC Hf.
  assert (0 ≤ Py.len table) as HL by (unfold Py.len; lia).
  destruct (chunk_count (Py.len table) C HC HL) as (Hn0 & Hn1 & Hn2 & _).
  set (n := Z.to_nat ((Py.len table + C - 1) `div` C)).
  assert (Z.of_nat n = (Py.len table + C - 1) `div` C) as Hn by (unfold n; lia).
  rewrite <- Hn in Hn1, Hn2.
  eexists. split; [by apply range3_chunks|]. fold n.
  assert (∀ k : nat, (k < n)%nat →
            Py.len (Py.slice table (Z.of_nat k * C) (Z.of_nat k * C + C)) =
            Z.min C (Py.len table - Z.of_nat k * C)) as Hslice.
  { intros k Hk. rewrite slice_chunk by nia. unfold Py.len in *.
    rewrite length_take, length_drop. nia. }
  pose proof (Z.div_mod (Py.len table) C ltac:(lia)) as Hdm.
  pose proof (Z.mod_pos_bound (Py.len table) C HC) as Hmod.
  case_decide as Hdiv.
  - assert (Z.of_nat n = Py.len table `div` C) as Hq by nia.
    destruct (map_r_all_Ok f ((λ k, Z.of_nat k * C) <$> seq 0 n))
      as (ys & Hys & Hlen).
    + intros i (k & -> & Hk%elem_of_seq)%list_elem_of_fmap.
      specialize (Hf (Z.of_nat k * C) ltac:(nia)).
      rewrite decide_True in Hf; [done|]. rewrite Hslice by lia. nia.
    + exists ys. split; [done|]. unfold Py.len in *.
      rewrite Hlen, length_fmap, length_seq. lia.
  - destruct n as [|m].
    { assert (Py.len table = 0) as HL0 by lia.
      rewrite HL0, Z.mod_0_l in Hdiv by lia. done. }
    assert (Py.len table < Z.of_nat (S m) * C) as Hshort.
    { destruct (decide (Py.len table = Z.of_nat (S m) * C)) as [E|]; [|lia].
      rewrite E, Z.mod_mul in Hdiv by lia. done. }
    rewrite seq_S, fmap_app, map_r_app.
    destruct (map_r_all_Ok f ((λ k, Z.of_nat k * C) <$> seq 0 m))
      as (ys & -> & _).
    + intros i (k & -> & Hk%elem_of_seq)%list_elem_of_fmap.
      specialize (Hf (Z.of_nat k * C) ltac:(nia)).
      rewrite decide_True in Hf; [done|]. rewrite Hslice by lia. nia.
    + cbn [mbind result_bind]. simpl.
      specialize (Hf (Z.of_nat m * C) ltac:(nia)).
      rewrite decide_False in Hf by (rewrite Hslice by lia; nia).
      by rewrite Hf.
Qed.

(** [print_table] without a block size. *)
Lemma print_table_None (table : list Z) (table_name : string) :
  print_table [] table_name None = Raise ValueError ∧
  ∀ ty, get_type_size table = Ok ty →
    if decide (Py.len table `mod` 16 = 0)
    then ∃ lines, print_table table table_name None = Ok lines ∧
                  Py.len lines = Py.len table `div` 16 + 2
    else print_table table table_name None = Raise TypeError.
Proof.
  split; [done|]. intros [type size] Hty. unfold print_table. rewrite Hty.
  cbn [mbind result_bind].
  set (f := λ i : Z, _ ≫= _).
  destruct (map_r_chunks table ELEMS_PER_LINE f ltac:(done))
    as (starts & -> & Hmap).
  { intros i Hi. unfold f. rewrite dec_row_length.
    case_decide; cbn [mbind result_bind]; eauto. }
  cbn [mbind result_bind]. change ELEMS_PER_LINE with 16 in Hmap.
  case_decide.
  - destruct Hmap as (ys & -> & Hlen). cbn [mbind result_bind].
    eexists. split; [done|]. unfold Py.len in *.
    rewrite !length_app. simpl. lia.
  - by rewrite Hmap.
Qed.

(** A table without a block size is printed in rows of sixteen values:
    the call succeeds, with one text for each row and two more, when the
    length of the table is a multiple of sixteen, and the format of the
    last row raises [TypeError] when it is not; an empty table raises
    the [ValueError] of [get_type_size]. *)
Theorem print_table_rows (table : list Z) (table_name : string) :
  print_table [] table_name None = Raise ValueError ∧
  ∀ ty, get_type_size table = Ok ty →
    if decide (Py.len table `mod` 16 = 0)
    then ∃ lines, print_table table table_name None = Ok lines ∧
                  Py.len lines = Py.len table `div` 16 + 2
    else print_table table table_name None = Raise TypeError.
Proof. apply print_table_None. Qed.

(** The theorem at a table of thirty-two zeros. *)
Lemma print_table_rows_witness :
  ∃ lines, print_table (replicate 32 0) "t" None = Ok lines ∧
           Py.len lines = 4.
Proof.
  destruct (print_table_rows (replicate 32 0) "t") as [_ H].
  apply (H ("uschar"%string, 1)). reflexivity.
Defined.

(** The rows of a block of [el * reps] values. *)
Lemma block_rows_Ok (block : list Z) (el reps : Z) :
  0 < el → 0 ≤ reps → Py.len block = el * reps →
  ∃ lines,
    Py.map_r (λ j, row ← Text.dec_row 3 "," el (Py.slice block j (j + el)) ;
                   Ok (row +:+ Text.nl)%string)
             ((λ k, Z.of_nat k * el) <$> seq 0 (Z.to_nat reps)) = Ok lines.
Proof.
  intros Hel Hreps Hlen.
  destruct (map_r_all_Ok
              (λ j, row ← Text.dec_row 3 "," el (Py.slice block j (j + el)) ;
                    Ok (row +:+ Text.nl)%string)
              ((λ k, Z.of_nat k * el) <$> seq 0 (Z.to_nat reps)))
    as (lines & Hlines & _); [|eauto].
  intros j (k & -> & Hk%elem_of_seq)%list_elem_of_fmap.
  rewrite dec_row_length, decide_True; [cbn [mbind result_bind]; eauto|].
  rewrite slice_chunk by (unfold Py.len in *; nia). unfold Py.len in *.
  rewrite length_take, length_drop. nia.
Qed.

(** [print_table] with a block size. *)
Lemma print_table_Some (table : list Z) (table_name : string) (B : Z) ty :
  get_type_size table = Ok ty →
  0 < B → B ≤ 16 ∨ B `mod` 16 = 0 →
  if decide (Py.len table `mod` B = 0)
  then ∃ lines, print_table table table_name (Some B) = Ok lines ∧
                Py.len lines = Py.len table `div` B + 2
  else print_table table table_name (Some B) = Raise TypeError.
Proof.
  destruct ty as [type size]. intros Hty HB Hshape.
  unfold print_table. rewrite Hty. cbn [mbind result_bind].
  set (el := if ELEMS_PER_LINE <? B then ELEMS_PER_LINE else B).
  set (reps := if ELEMS_PER_LINE <? B then B `div` ELEMS_PER_LINE else 1).
  assert (0 < el ∧ 0 ≤ reps ∧ el * reps = B) as (Hel & Hreps & Hprod).
  { unfold el, reps, ELEMS_PER_LINE.
    destruct (Z.ltb_spec 16 B); [|lia].
    destruct Hshape as [?|Hmod]; [lia|].
    pose proof (Z.div_mod B 16 ltac:(lia)).
    split_and!; [lia|apply Z.div_pos; lia|lia]. }
  set (f := λ i : Z, if _ =? _ then _ else _).
  destruct (map_r_chunks table B f HB) as (starts & -> & Hmap).
  { intros i Hi. unfold f. rewrite Hprod.
    destruct (Z.eqb_spec (Py.len (Py.slice table i (i + B))) B) as [E|E].
    - rewrite decide_True by done.
      destruct (block_rows_Ok (Py.slice table i (i + B)) el reps)
        as (lines & ->); [done|done|lia|].
      cbn [mbind result_bind]. eauto.
    - by rewrite decide_False. }
  cbn [mbind result_bind]. case_decide.
  - destruct Hmap as (ys & -> & Hlen). cbn [mbind result_bind].
    eexists. split; [done|]. unfold Py.len in *.
    rewrite !length_app. simpl. lia.
  - by rewrite Hmap.
Qed.

(** A table with a block size from 1 to 16, or a multiple of 16, is
    printed block by block: the call succeeds, with one text for each
    block and two more, when the block size divides the length of the
    table, and raises [TypeError] on the last block when it does not. *)
Theorem print_table_blocks (table : list Z) (table_name : string) (B : Z) ty :
  get_type_size table = Ok ty →
  0 < B → B ≤ 16 ∨ B `mod` 16 = 0 →
  if decide (Py.len table `mod` B = 0)
  then ∃ lines, print_table table table_name (Some B) = Ok lines ∧
                Py.len lines = Py.len table `div` B + 2
  else print_table table table_name (Some B) = Raise TypeError.
Proof. apply print_table_Some. Qed.

(** The theorem at a table of sixty-four zeros in blocks of thirty-two. *)
Lemma print_table_blocks_witness :
  ∃ lines, print_table (replicate 64 0) "t" (Some 32) = Ok lines ∧
           Py.len lines = 4.
Proof.
  apply (print_table_blocks (replicate 64 0) "t" 32 ("uschar"%string, 1)).
  - reflexivity.
  - lia.
  - by right.
Defined.

Example print_table_examples :
  print_table [7; 7; 7] "t" None = Raise TypeError ∧
  print_table [7; 7; 7] "t" (Some 2) = Raise TypeError ∧
  print_table [7; 300; 7; 8] "t" (Some 2) =
    Ok ["const pcre_uint16 t[] = { /* 8 bytes, block = 2 */";
        "/* block 0 */" +:+ Text.nl +:+ "  7,300," +:+ Text.nl;
        "/* block 1 */" +:+ Text.nl +:+ "  7,  8," +:+ Text.nl;
        "};" +:+ Text.nl]%string.
Proof. split_and!; vm_compute; reflexivity. Qed.

(** ** [print_records] on any dictionary *)

Lemma StronglySorted_lookup_le {A} (R : relation A) (l : list A)
    (i j : nat) x y :
  StronglySorted R l → (i < j)%nat → l !! i = Some x → l !! j = Some y →
  R x y.
Proof.
  intros Hl. revert i j. induction Hl as [|a l Hl IH Hall]; intros i j Hij Hi Hj.
  - done.
  - destruct j as [|j]; [lia|]. simpl in Hj. destruct i as [|i]; simpl in Hi.
    + injection Hi as <-. rewrite Forall_forall in Hall.
      apply Hall. by eapply list_elem_of_lookup_2.
    + apply (IH i j); [lia|done..].
Qed.

(** For every dictionary and every order of its items, [print_records]
    prints each key once, in rows of increasing value, numbers the rows
    from zero, and prints two more texts, without an error. *)
Theorem print_records_rows (items : dict_order) (d : gmap (list Z) Z)
    (record_size : Z) :
  valid_order items →
  let rows := record_rows items d in
  rows.*1 ≡ₚ (map_to_list d).*1 ∧
  rows.*2 = Z.of_nat <$> seq 0 (size d) ∧
  (∀ (k1 k2 : nat) t1 t2 n1 n2,
     (k1 < k2)%nat → rows !! k1 = Some (t1, n1) → rows !! k2 = Some (t2, n2) →
     ∃ id1 id2, d !! t1 = Some id1 ∧ d !! t2 = Some id2 ∧ id1 ≤ id2) ∧
  length (print_records items d record_size) = (size d + 2)%nat.
Proof.
  intros Hitems rows.
  set (sorted := sort_by_id (zip (keys items d) (values items d))).
  assert (sorted ≡ₚ map_to_list d) as Hperm.
  { unfold sorted, sort_by_id, keys, values.
    by rewrite zip_fst_snd, merge_sort_Permutation, (Hitems d). }
  assert (StronglySorted id_le sorted) as Hsorted
    by (apply StronglySorted_merge_sort; apply _).
  assert (length sorted = size d) as Hlen
    by (by rewrite Hperm, length_map_to_list).
  assert (∀ k, rows !! k = (λ x, (x.1, Z.of_nat k)) <$> sorted !! k) as Hrow.
  { intros k. unfold rows, record_rows, enumerate. fold sorted.
    rewrite list_lookup_fmap, list_lookup_imap. by destruct (sorted !! k). }
  assert (length rows = size d) as Hrows.
  { unfold rows, record_rows, enumerate. fold sorted.
    by rewrite length_fmap, length_imap. }
  split_and!.
  - rewrite <- Hperm. replace (rows.*1) with (sorted.*1); [done|].
    apply list_eq. intros k. rewrite !list_lookup_fmap, Hrow.
    by destruct (sorted !! k).
  - apply list_eq. intros k. rewrite !list_lookup_fmap, Hrow.
    destruct (sorted !! k) as [x|] eqn:Ek; simpl.
    + apply lookup_lt_Some in Ek. by rewrite lookup_seq_lt by lia.
    + apply lookup_ge_None in Ek. by rewrite lookup_seq_ge by lia.
  - intros k1 k2 t1 t2 n1 n2 Hk. rewrite !Hrow.
    destruct (sorted !! k1) as [[t1' id1]|] eqn:E1; [|done].
    destruct (sorted !! k2) as [[t2' id2]|] eqn:E2; [|done].
    simpl. intros [= -> <-] [= -> <-]. exists id1, id2. split_and!.
    + apply elem_of_map_to_list. rewrite <- Hperm.
      by eapply list_elem_of_lookup_2.
    + apply elem_of_map_to_list. rewrite <- Hperm.
      by eapply list_elem_of_lookup_2.
    + apply (StronglySorted_lookup_le id_le sorted k1 k2 (t1, id1) (t2, id2));
        done.
  - unfold print_records. rewrite !length_app, length_fmap. fold rows.
    rewrite Hrows. simpl. lia.
Qed.

(** The theorem at a dictionary whose values are not the numbers of the
    rows. *)
Lemma print_records_rows_witness :
  (record_rows (λ m, reverse (map_to_list m))
               {[ [7] := 10; [5] := 3; [9] := 4 ]}).*2
  = Z.of_nat <$> seq 0 (size ({[ [7] := 10; [5] := 3; [9] := 4 ]}
                               : gmap (list Z) Z)).
Proof.
  apply (print_records_rows (λ m, reverse (map_to_list m))
           {[ [7] := 10; [5] := 3; [9] := 4 ]} 1).
  intros m. apply reverse_Permutation.
Defined.

Example print_records_any_dictionary :
  record_rows map_to_list {[ [7] := 10; [5] := 3; [9] := 4 ]}
  = [([5], 0); ([9], 1); ([7], 2)].
Proof. vm_compute. reflexivity. Qed.

(** ** [make_get_names]: the value of a name is its first index *)

Lemma index_of_Raise enum x e :
  index_of enum x = Raise e ↔ (x ∉ enum) ∧ e = ValueError.
Proof.
  revert e. induction enum as [|y enum IH]; intros e; simpl.
  - split; [intros [= <-]; split; [apply not_elem_of_nil|done]|by intros [_ ->]].
  - rewrite not_elem_of_cons. destruct (String.eqb_spec y x) as [->|Hne].
    + split; [done|]. by intros [[? _] _].
    + destruct (index_of enum x) as [i'|e'] eqn:E; simpl.
      * split; [done|]. intros [[_ Hx] ->].
        discriminate (proj2 (IH ValueError) (conj Hx eq_refl)).
      * destruct (proj1 (IH e') eq_refl) as [Hx ->].
        split; [intros [= <-]|intros [_ ->]]; [|done].
        split_and!; [congruence|done..].
Qed.

Lemma index_of_first enum x i :
  index_of enum x = Ok i →
  0 ≤ i ∧ enum !! Z.to_nat i = Some x ∧
  ∀ j : nat, (j < Z.to_nat i)%nat → enum !! j ≠ Some x.
Proof.
  revert i. induction enum as [|y enum IH]; intros i; simpl; [done|].
  destruct (String.eqb_spec y x) as [->|Hne].
  - intros [= <-]. split_and!; [done..|]. intros j Hj. simpl in Hj. lia.
  - destruct (index_of enum x) as [i'|e] eqn:E; simpl; [|done].
    intros [= <-]. destruct (IH i' eq_refl) as (Hi' & Hx & Hfirst).
    split_and!; [lia| |].
    + by replace (Z.to_nat (i' + 1)) with (S (Z.to_nat i')) by lia.
    + intros [|j] Hj; simpl; [congruence|]. apply Hfirst. lia.
Qed.

Lemma index_of_Ok enum x i :
  index_of enum x = Ok i ↔
  0 ≤ i ∧ enum !! Z.to_nat i = Some x ∧
  ∀ j : nat, (j < Z.to_nat i)%nat → enum !! j ≠ Some x.
Proof.
  split; [apply index_of_first|]. intros (Hi & Hx & Hfirst).
  destruct (index_of enum x) as [i'|e] eqn:E.
  - destruct (index_of_first _ _ _ E) as (Hi' & Hx' & Hfirst'). f_equal.
    destruct (Z.lt_trichotomy i i') as [Hlt|[Heq|Hgt]]; [|done|].
    + destruct (Hfirst' (Z.to_nat i)); [lia|done].
    + destruct (Hfirst (Z.to_nat i')); [lia|done].
  - apply index_of_Raise in E as [Hnot _]. destruct Hnot.
    by eapply list_elem_of_lookup_2.
Qed.

(** The function made by [make_get_names] gives a line the first position,
    from zero, of its second field in the list of names; it raises
    [IndexError] on a line of fewer than two fields and [ValueError] on a
    name that is not in the list, and nothing else; two lines of the same
    value have the same name. *)
Theorem make_get_names_first_index (enum chardata : list string) :
  (∀ i, make_get_names enum chardata = Ok i ↔
        ∃ name, chardata !! 1%nat = Some name ∧
                0 ≤ i < Py.len enum ∧ enum !! Z.to_nat i = Some name ∧
                ∀ j : nat, (j < Z.to_nat i)%nat → enum !! j ≠ Some name) ∧
  (∀ e, make_get_names enum chardata = Raise e ↔
        (Py.len chardata ≤ 1 ∧ e = IndexError) ∨
        (∃ name, chardata !! 1%nat = Some name ∧ (name ∉ enum) ∧
                 e = ValueError)) ∧
  (∀ chardata' i,
     make_get_names enum chardata = Ok i →
     make_get_names enum chardata' = Ok i →
     chardata !! 1%nat = chardata' !! 1%nat).
Proof.
  assert (∀ cd : list string,
            make_get_names enum cd =
            match cd !! 1%nat with
            | Some name => index_of enum name
            | None => Raise IndexError
            end) as Hget.
  { intros cd. unfold make_get_names, Py.getitem, Py.len.
    by destruct cd as [|c0 [|c1 cd]]. }
  split_and!.
  - intros i. rewrite Hget. destruct (chardata !! 1%nat) as [name|]; simpl.
    + rewrite index_of_Ok. split.
      * intros (Hi & Hx & Hfirst). exists name. split_and!; try done.
        apply lookup_lt_Some in Hx. unfold Py.len. lia.
      * intros (? & [= <-] & [Hi _] & Hx & Hfirst). done.
    + split; [done|]. by intros (? & ? & _).
  - intros e. rewrite Hget.
    destruct (chardata !! 1%nat) as [name|] eqn:E1; simpl.
    + rewrite index_of_Raise. split.
      * intros [Hx ->]. right. by exists name.
      * intros [[Hlen _]|(? & [= <-] & Hx & ->)]; [|done].
        apply lookup_lt_Some in E1. unfold Py.len in Hlen. lia.
    + apply lookup_ge_None in E1. split.
      * intros [= <-]. left. unfold Py.len. split; [lia|done].
      * intros [[_ ->]|(? & ? & _)]; done.
  - intros chardata' i. rewrite !Hget.
    destruct (chardata !! 1%nat) as [name|]; [|done].
    destruct (chardata' !! 1%nat) as [name'|]; [|done].
    intros (_ & Hx & _)%index_of_first (_ & Hx' & _)%index_of_first.
    congruence.
Qed.

Example make_get_names_examples :
  make_get_names script_names ["0041..005A"; "Latin"]%string = Ok 33 ∧
  make_get_names category_names ["0041..005A"; "Lu"]%string = Ok 9 ∧
  make_get_names category_names ["0041..005A"; "Latin"]%string
    = Raise ValueError ∧
  make_get_names script_names ["0041..005A"]%string = Raise IndexError.
Proof. split_and!; vm_compute; reflexivity. Qed.

(** ** The lines of a file: skipped lines, errors and the end of the table *)

Lemma split_nonempty sep s : Text.split sep s ≠ [].
Proof.
  destruct s as [|c s]; simpl; [done|].
  destruct (Ascii.eqb c sep); [done|]. by destruct (Text.split sep s).
Qed.

Lemma split_single sep s :
  (length (Text.split sep s) ≤ 1)%nat ↔ sep ∉ list_ascii_of_string s.
Proof.
  induction s as [|c s IH]; simpl.
  - split; [intros _; apply not_elem_of_nil|lia].
  - rewrite not_elem_of_cons. destruct (Ascii.eqb_spec c sep) as [->|Hne].
    + simpl. pose proof (split_nonempty sep s).
      destruct (Text.split sep s); [done|]. simpl. split; [lia|].
      by intros [? _].
    + pose proof (split_nonempty sep s).
      destruct (Text.split sep s) as [|w ws]; [done|]. simpl in *.
      rewrite IH. split; [by split|by intros [_ ?]].
Qed.

Lemma sub_comment_subseteq b s c :
  c ∈ list_ascii_of_string (Text.sub_comment b s) →
  c ∈ list_ascii_of_string s.
Proof.
  revert b. induction s as [|a s IH]; intros b; simpl; [done|].
  destruct (Ascii.eqb a Text.newline).
  - simpl. rewrite !elem_of_cons. intros [->|H]; [by left|right; eauto].
  - destruct b; [intros H; right; eauto|].
    destruct (Ascii.eqb a "#").
    + intros H; right; eauto.
    + simpl. rewrite !elem_of_cons. intros [->|H]; [by left|right; eauto].
Qed.

Lemma parse_line_None get_value line :
  parse_line get_value line = Ok None ↔
  ";"%char ∉ list_ascii_of_string (Text.sub_comment false line).
Proof.
  unfold parse_line. rewrite <- split_single.
  unfold Py.len. rewrite length_fmap.
  destruct (Z.leb_spec (Z.of_nat (length (Text.split ";"
              (Text.sub_comment false line)))) 1) as [Hle|Hgt].
  - split; [lia|done].
  - split; [|lia]. intros H. exfalso.
    apply bind_Ok in H as (value & _ & (chardata0 & _ & H)%bind_Ok).
    destruct (Text.match_range chardata0) as [[g1 g3]|]; [|done].
    apply bind_Ok in H as (char & _ & H). destruct g3 as [g|]; [|done].
    by apply bind_Ok in H as (last & _ & H).
Qed.

(** A line is skipped exactly when what is left of it without its
    comment has no semicolon, whatever [get_value] is; a file of lines
    without a semicolon gives the table of the default value. *)
Theorem comment_lines_skipped (get_value : list string → result Z) :
  (∀ line, parse_line get_value line = Ok None ↔
           ";"%char ∉ list_ascii_of_string (Text.sub_comment false line)) ∧
  (∀ file default_value,
     (∀ line, line ∈ file → ";"%char ∉ list_ascii_of_string line) →
     read_table file get_value default_value =
     Ok (replicate (Z.to_nat MAX_UNICODE) default_value)).
Proof.
  split; [apply parse_line_None|].
  intros file default_value Hfile. unfold read_table.
  generalize (replicate (Z.to_nat MAX_UNICODE) default_value). intros table.
  induction file as [|line file IH]; [done|]. cbn [for_each].
  assert (parse_line get_value line = Ok None) as Hline.
  { apply parse_line_None. intros H%sub_comment_subseteq.
    by apply (Hfile line); [left|]. }
  rewrite (read_table_line_parsed _ _ _ _ Hline). simpl.
  apply IH. intros l Hl. apply Hfile. by right.
Qed.

Lemma comment_lines_skipped_witness :
  read_table ["no data"; "# Scripts-6.0.0.txt"]%string
             (λ _, Raise TypeError) 9
  = Ok (replicate (Z.to_nat MAX_UNICODE) 9).
Proof.
  apply (proj2 (comment_lines_skipped (λ _, Raise TypeError))).
  intros line Hline. rewrite !elem_of_cons in Hline.
  destruct Hline as [->|[->|Hline]]; [| |by apply elem_of_nil in Hline];
    by apply (bool_decide_unpack _).
Defined.

(** The digits that [span_hex] takes are read by [int]. *)
Lemma span_hex_int16_go s h r acc :
  Text.span_hex s = (h, r) → ∃ z, Text.int16_go acc h = Ok z.
Proof.
  revert h r acc. induction s as [|c s IH]; intros h r acc; simpl.
  - intros [= <- <-]. by eexists.
  - destruct (Text.hex_digit c) as [d|] eqn:Ed.
    + destruct (Text.span_hex s) as [h' r'] eqn:E. intros [= <- <-]. simpl.
      rewrite Ed. by eapply IH.
    + intros [= <- <-]. by eexists.
Qed.

Lemma span_hex_int16 s h r :
  Text.span_hex s = (h, r) → h ≠ EmptyString → ∃ z, Text.int16 h = Ok z.
Proof.
  intros Hs Hh. destruct (span_hex_int16_go s h r 0 Hs) as [z Hz].
  exists z. unfold Text.int16. by destruct h.
Qed.

Lemma match_range_groups s g1 g3 :
  Text.match_range s = Some (g1, g3) →
  (∃ z, Text.int16 g1 = Ok z) ∧
  ∀ g, g3 = Some g → ∃ z, Text.int16 g = Ok z.
Proof.
  unfold Text.match_range.
  destruct (Text.span_hex s) as [h r] eqn:E1.
  destruct h as [|c h]; [done|].
  assert (∃ z, Text.int16 (String c h) = Ok z) as H1
    by (by eapply span_hex_int16).
  destruct (Text.at_end r); [intros [= <- <-]; by split|].
  destruct r as [|c1 r]; [done|].
  destruct (Ascii.eqb_spec c1 ".") as [->|]; [|by destruct c1 as [[] [] [] [] [] [] [] []]].
  destruct r as [|c2 r]; [done|].
  destruct (Ascii.eqb_spec c2 ".") as [->|]; [|by destruct c2 as [[] [] [] [] [] [] [] []]].
  destruct (Text.span_hex r) as [h' r'] eqn:E2.
  destruct h' as [|c' h']; [done|].
  destruct (Text.at_end r'); [|done]. intros [= <- <-]. split; [done|].
  intros g [= <-]. by eapply span_hex_int16.
Qed.

(** The only errors of a line are those of [get_value], called first, and
    [AttributeError] for a first field that is not a code point or a
    range of two: the conversions of the code points never fail. *)
Theorem parse_line_errors (get_value : list string → result Z)
    (line : string) (e : exn) :
  parse_line get_value line = Raise e →
  let chardata :=
    Text.strip <$> Text.split ";" (Text.sub_comment false line) in
  1 < Py.len chardata ∧
  (get_value chardata = Raise e ∨
   ∃ value chardata0,
     get_value chardata = Ok value ∧ chardata !! 0%nat = Some chardata0 ∧
     Text.match_range chardata0 = None ∧ e = AttributeError).
Proof.
  intros H chardata. unfold parse_line in H. cbv zeta in H.
  fold chardata in H.
  destruct (Z.leb_spec (Py.len chardata) 1) as [|Hlen]; [done|].
  split; [done|].
  destruct (get_value chardata) as [value|e'] eqn:Ev; simpl in H;
    [|left; congruence].
  right. exists value. unfold Py.len in Hlen.
  destruct chardata as [|chardata0 rest] eqn:Ec; [simpl in Hlen; lia|].
  exists chardata0. rewrite getitem_0 in H. simpl in H.
  split_and!; [done..| |].
  - destruct (Text.match_range chardata0) as [[g1 g3]|] eqn:Em; [|done].
    exfalso. destruct (match_range_groups _ _ _ Em) as [[z Hz] H3].
    rewrite Hz in H. simpl in H. destruct g3 as [g|]; [|done].
    destruct (H3 g eq_refl) as [z' Hz']. by rewrite Hz' in H.
  - destruct (Text.match_range chardata0) as [[g1 g3]|] eqn:Em;
      [|congruence].
    exfalso. destruct (match_range_groups _ _ _ Em) as [[z Hz] H3].
    rewrite Hz in H. simpl in H. destruct g3 as [g|]; [|done].
    destruct (H3 g eq_refl) as [z' Hz']. by rewrite Hz' in H.
Qed.

(** The theorem at a line whose range has no end. *)
Lemma parse_line_errors_witness :
  1 < Py.len (Text.strip <$> Text.split ";"
                (Text.sub_comment false "0041.. ; Latin")) ∧
  (make_get_names script_names
     (Text.strip <$> Text.split ";" (Text.sub_comment false "0041.. ; Latin"))
     = Raise AttributeError ∨
   ∃ value chardata0,
     make_get_names script_names
       (Text.strip <$> Text.split ";"
          (Text.sub_comment false "0041.. ; Latin")) = Ok value ∧
     (Text.strip <$> Text.split ";" (Text.sub_comment false "0041.. ; Latin"))
       !! 0%nat = Some chardata0 ∧
     Text.match_range chardata0 = None ∧ AttributeError = AttributeError).
Proof.
  apply (parse_line_errors (make_get_names script_names) "0041.. ; Latin"
           AttributeError).
  vm_compute. reflexivity.
Defined.

Lemma read_lines_out_of_range (M : Z) get_value before line after
    assignments a default_value :
  0 ≤ M →
  assignments_of get_value before = Ok assignments →
  Forall (λ a, end_of a < M ∨ end_of a < a.1.1) assignments →
  parse_line get_value line = Ok (Some a) →
  a.1.1 ≤ end_of a → M ≤ end_of a →
  for_each (read_table_line get_value) (before ++ line :: after)
           (replicate (Z.to_nat M) default_value) = Raise IndexError.
Proof.
  intros HM Hbefore Hall Hline Hrange Hend.
  rewrite for_each_app.
  assert (Py.len (replicate (Z.to_nat M) default_value) = M) as Hlen
    by (unfold Py.len; rewrite length_replicate; lia).
  destruct (read_lines_Ok get_value before
              (replicate (Z.to_nat M) default_value) assignments Hbefore)
    as (table' & -> & Hlen' & _).
  { by rewrite Hlen. }
  simpl. rewrite (read_table_line_parsed _ _ _ _ Hline). simpl.
  rewrite assign_Raise; [done|by eapply parse_line_nonneg| |done].
  unfold Py.len in *. rewrite Hlen'. lia.
Qed.

(** The first line that assigns a code point of 0x110000 or more stops
    [read_table] with [IndexError], whatever follows it; the range of the
    line is taken no longer than the table, a list that [range] can
    build. *)
Theorem read_table_out_of_range get_value before line after assignments a
    default_value :
  assignments_of get_value before = Ok assignments →
  Forall in_table assignments →
  parse_line get_value line = Ok (Some a) →
  a.1.1 ≤ end_of a → MAX_UNICODE ≤ end_of a →
  end_of a - a.1.1 < MAX_UNICODE →
  read_table (before ++ line :: after) get_value default_value
  = Raise IndexError.
Proof.
  intros Hbefore Hall Hline Hrange Hend _.
  by apply (read_lines_out_of_range MAX_UNICODE _ _ _ _ assignments a).
Qed.

Lemma read_table_out_of_range_witness :
  read_table (["0041..005A ; Latin"%string] ++
                "10FFFF..110000 ; Common"%string ::
                ["no number ; Greek"%string])
             (make_get_names script_names) 9
  = Raise IndexError.
Proof.
  apply (read_table_out_of_range _ _ _ _ [(65, Some 90, 33)]
           (1114111, Some 1114112, 9)).
  - reflexivity.
  - repeat constructor.
  - reflexivity.
  - discriminate.
  - discriminate.
  - reflexivity.
Defined.

(** *** [get_other_case] under [read_table] *)





(** A range with a case mapping is refused: [int] does not read it. *)
Example other_case_range :
  parse_line get_other_case
    "0061..007A;LATIN SMALL LETTERS;Ll;0;L;;;;;N;;;0041;;0041"
  = Raise ValueError.
Proof. vm_compute. reflexivity. Qed.

(** ** When the script runs to its end *)

(** Every block size above zero has a score on a table that is not
    empty, has a type and no more than 2^32 values. *)
Lemma compress_scored (table : list Z) (n r B : Z) ty :
  table ≠ [] → 0 < B → get_type_size table = Ok ty →
  Py.len table ≤ 4294967296 →
  ∃ s1 s2 size,
    scored table n r B s1 s2 size ∧
    n * r + 2 ≤ size ≤ n * r + 8 * Py.len table ∧
    (Py.len table `mod` B = 0 →
     Py.len s1 = Py.len table `div` B ∧ Py.len s2 `mod` B = 0).
Proof.
  intros Hne HB Hty Hlen.
  destruct (compress_table_stages table B HB)
    as (s1 & s2 & Hrun & Hlen1 & Hlen2 & Hvals & Hids).
  assert (0 < Py.len table) as HL by (unfold Py.len; destruct table; [done|simpl; lia]).
  assert (1 ≤ Py.len s1 ≤ Py.len table) as Hs1.
  { rewrite Hlen1. split.
    - apply Z.div_le_lower_bound; lia.
    - apply Z.div_le_upper_bound; nia. }
  assert (s1 ≠ []) as Hne1 by (intros ->; unfold Py.len in Hs1; simpl in Hs1; lia).
  assert (s2 ≠ []) as Hne2.
  { intros ->. destruct s1 as [|s s1]; [done|].
    destruct (Hids s ltac:(by left)) as [? Hs]. unfold Py.len in Hs.
    simpl in Hs. nia. }
  assert (1 ≤ Py.len s2) as Hs2
    by (unfold Py.len; destruct s2; [done|simpl; lia]).
  destruct (get_type_size_subset s2 table ty Hne2 Hvals Hty)
    as (ty2 & Hty2 & _).
  assert (∃ ty1, get_type_size s1 = Ok ty1) as [ty1 Hty1].
  { destruct (min_Ok _ Hne1) as (mn & _ & Hmn).
    destruct (max_Ok _ Hne1) as (mx & _ & Hmx).
    rewrite (get_type_size_cases _ _ _ Hmn Hmx).
    destruct Hmn as [Hmn _], Hmx as [Hmx _].
    apply Hids in Hmn, Hmx.
    repeat case_decide; eauto. nia. }
  pose proof (get_type_size_width _ _ Hty1) as Hw1.
  pose proof (get_type_size_width _ _ Hty2) as Hw2.
  rewrite !elem_of_cons, elem_of_nil in Hw1, Hw2.
  exists s1, s2, (n * r + ty1.2 * Py.len s1 + ty2.2 * Py.len s2).
  split_and!.
  - split; [done|]. by exists ty1, ty2.
  - nia.
  - nia.
  - intros Hmod.
    destruct (compress_table_inv table B HB Hmod)
      as (dict & s1' & s2' & Hrun' & Hnum & Hidx & Hs2').
    rewrite Hrun in Hrun'. injection Hrun' as <- <-.
    pose proof (blocks_of_length table B HB Hmod) as Hblocks.
    split.
    + rewrite Hlen1. 
      pose proof (Z.div_mod (Py.len table) B ltac:(lia)) as Hdm.
      rewrite Hmod in Hdm.
      replace (Py.len table + B - 1) with ((B - 1) + Py.len table `div` B * B)
        by lia.
      rewrite Z.div_add by lia. rewrite Z.div_small by lia. lia.
    + rewrite Hs2'. unfold Py.len.
      rewrite (length_concat_uniform _ (Z.to_nat B)).
      * rewrite Nat2Z.inj_mul, Z2Nat.id by lia. apply Z.mod_mul. lia.
      * apply Forall_forall. intros x Hx.
        rewrite elem_of_first_occurrences in Hx.
        rewrite Forall_forall in Hblocks. by apply Hblocks.
Qed.

Lemma block_sizes_positive B :
  B ∈ block_sizes → 0 < B ∧ B `mod` 16 = 0 ∧ 8192 `mod` B = 0 ∧
                    (8192 `div` B) `mod` 16 = 0.
Proof.
  change block_sizes with [32; 64; 128; 256; 512].
  rewrite !elem_of_cons, elem_of_nil.
  intros [->|[->|[->|[->|[->|[]]]]]]; done.
Qed.

(** The outcome of the search on a table that has a type. *)
Lemma search_outcome (maxint : Z) (table : list Z) (n r : Z) ty :
  table ≠ [] → get_type_size table = Ok ty → Py.len table ≤ 4294967296 →
  (∃ st, search maxint table n r = Ok st) ∧
  (n * r + 8 * Py.len table < maxint →
   ∃ min_size stage1 stage2 B,
     search maxint table n r ≫= best_of = Ok (min_size, stage1, stage2, B) ∧
     B ∈ block_sizes ∧ scored table n r B stage1 stage2 min_size ∧
     min_size < maxint) ∧
  (maxint ≤ n * r + 2 →
   search maxint table n r ≫= best_of = Raise NameError).
Proof.
  intros Hne Hty Hlen.
  assert (∀ B, B ∈ block_sizes →
            ∃ s1 s2 size, scored table n r B s1 s2 size) as Hall.
  { intros B [HB _]%block_sizes_positive.
    destruct (compress_scored table n r B ty Hne HB Hty Hlen)
      as (s1 & s2 & size & Hs & _). eauto. }
  destruct (search_loop table n r block_sizes maxint None Hall)
    as (m & b & Hrun & Hmin & Hbest).
  unfold search. rewrite Hrun. split_and!.
  - eauto.
  - intros Hmax. simpl.
    destruct (compress_scored table n r 32 ty Hne ltac:(done) Hty Hlen)
      as (s1 & s2 & size & Hs & Hsize & _).
    pose proof (Hmin 32 s1 s2 size ltac:(by left) Hs) as Hm.
    destruct Hbest as [[-> ->]|[Hlt Hbest]]; [lia|].
    destruct Hbest as (k & B & s1' & s2' & Hk & Hs' & -> & _).
    exists m, s1', s2', B. split_and!; [done| |done..].
    by eapply list_elem_of_lookup_2.
  - intros Hmax. simpl.
    destruct Hbest as [[-> ->]|[Hlt Hbest]]; [done|].
    destruct Hbest as (k & B & s1' & s2' & Hk & Hs' & -> & _).
    apply list_elem_of_lookup_2 in Hk.
    destruct (block_sizes_positive B Hk) as [HB _].
    destruct (compress_scored table n r B ty Hne HB Hty Hlen)
      as (s1 & s2 & size & Hs & Hsize & _).
    destruct (scored_unique _ _ _ _ _ _ _ _ _ _ Hs Hs') as (_ & _ & ->).
    lia.
Qed.

(** The search on a table that is not empty, has a type and no more than
    2^32 values raises no error of its own; it returns a block size of
    the list with its stages when [sys.maxint] is above the size of the
    record table plus eight bytes for each value of the table, and the
    block size is read unassigned, a [NameError], when [sys.maxint] is
    no more than the size of the record table plus two. *)
Theorem search_total (maxint : Z) (table : list Z) (n r : Z) ty :
  table ≠ [] → get_type_size table = Ok ty → Py.len table ≤ 4294967296 →
  (∃ st, search maxint table n r = Ok st) ∧
  (n * r + 8 * Py.len table < maxint →
   ∃ min_size stage1 stage2 B,
     search maxint table n r ≫= best_of = Ok (min_size, stage1, stage2, B) ∧
     B ∈ block_sizes ∧ scored table n r B stage1 stage2 min_size ∧
     min_size < maxint) ∧
  (maxint ≤ n * r + 2 →
   search maxint table n r ≫= best_of = Raise NameError).
Proof. apply search_outcome. Qed.

(** The theorem at a table of 48 zeros and a [sys.maxint] of 10. *)
Lemma search_total_witness :
  search 10 (replicate 48 0) 3 4 ≫= best_of = Raise NameError.
Proof.
  apply (search_total 10 (replicate 48 0) 3 4 ("uschar"%string, 1)).
  - done.
  - reflexivity.
  - vm_compute. discriminate.
  - lia.
Defined.

(** Records of one length whose columns have a type have a size. *)
Lemma get_record_size_struct_typed (records : list (list Z)) (N : nat) :
  records ≠ [] → (0 < N)%nat → Forall (λ r, length r = N) records →
  (∀ i, 0 ≤ i < Z.of_nat N →
     ∃ ty, get_type_size ((λ r, default 0 (r !! Z.to_nat i)) <$> records)
           = Ok ty) →
  ∃ size structure,
    get_record_size_struct records = Ok (size, structure) ∧
    Z.of_nat N ≤ size ≤ 7 * Z.of_nat N + 3.
Proof.
  intros Hne HN Hlen Htyped.
  assert (∀ i, 0 ≤ i < Z.of_nat N →
            ∃ slice name w, record_slice records i = Ok slice ∧
                            get_type_size slice = Ok (name, w)) as Hfield.
  { intros i Hi. destruct (Htyped i Hi) as [[name w] Hty].
    eexists _, name, w. split; [by apply (record_slice_uniform _ N)|done]. }
  assert (∀ (fields : list Z) size st,
            (∀ i, i ∈ fields → 0 ≤ i < Z.of_nat N) →
            ∃ size' st', for_each (record_field records) fields (size, st)
                         = Ok (size', st')) as Hloop.
  { induction fields as [|i fields IH]; intros size st Hin; [by eexists _, _|].
    cbn [for_each].
    destruct (Hfield i) as (slice & name & w & Hslice & Hty);
      [apply Hin; by left|].
    rewrite (record_field_resolved _ _ _ _ _ _ _ Hslice Hty).
    cbn [mbind result_bind]. apply IH. intros; apply Hin; by right. }
  destruct records as [|record0 rest]; [done|].
  set (records := record0 :: rest) in *.
  assert (length record0 = N) as Hlen0 by (by inversion Hlen).
  destruct (Hloop (Py.range (Py.len record0)) 0 structure_head)
    as (size' & st' & Hrun).
  { intros i Hi%elem_of_range. unfold Py.len in Hi. lia. }
  destruct (Hfield 0 ltac:(lia)) as (slice & name & w & Hs & Hty).
  unfold get_record_size_struct.
  change (Py.getitem records 0) with (Ok record0 : result _).
  cbn [mbind result_bind]. rewrite Hrun. cbn [mbind result_bind].
  rewrite Hs. cbn [mbind result_bind]. rewrite Hty.
  cbn [mbind result_bind]. eexists _, _. split; [done|].
  pose proof (get_type_size_width _ _ Hty) as Hw.
  destruct (round_up_multiple size' w Hw) as [_ Hup]. simpl in Hw.
  assert (1 ≤ w ≤ 4) as Hw'.
  { rewrite !elem_of_cons in Hw.
    destruct Hw as [->|[->|[->|Hw]]]; [lia..|by apply elem_of_nil in Hw]. }
  apply for_each_record_field_bounds in Hrun; [|lia].
  assert (Py.len (Py.range (Py.len record0)) = Z.of_nat N) as HlenN.
  { unfold Py.range, Py.range2, Py.len.
    rewrite length_fmap, length_seq. lia. }
  rewrite HlenN in Hrun. lia.
Qed.

(** What [combine_tables] returns for three tables of one length. *)
Lemma combine_three (items : dict_order) (t1 t2 t3 : list Z) (L : Z)
    ty1 ty2 ty3 :
  valid_order items →
  Py.len t1 = L → Py.len t2 = L → Py.len t3 = L → 0 < L →
  get_type_size t1 = Ok ty1 → get_type_size t2 = Ok ty2 →
  get_type_size t3 = Ok ty3 →
  ∃ index records,
    combine_tables [t1; t2; t3] = (index, records) ∧
    Py.len index = L ∧
    (∀ id, id ∈ index → 0 ≤ id < L) ∧
    Z.of_nat (size records) ≤ L ∧
    ∃ record_size record_struct,
      get_record_size_struct (keys items records)
        = Ok (record_size, record_struct) ∧
      3 ≤ record_size ≤ 24.
Proof.
  intros Hitems H1 H2 H3 HL Hty1 Hty2 Hty3.
  set (tables := [t1; t2; t3]).
  destruct (combine_tables tables) as [index records] eqn:Hrun.
  exists index, records. split; [done|].
  destruct (combine_tables_inv _ _ _ Hrun) as (Hnum & Hidx & Hsize).
  set (ts := Py.zip_star tables) in *.
  set (u := first_occurrences ts) in *.
  assert (Forall (λ t, length t = Z.to_nat L) tables) as Hlens.
  { unfold Py.len in *. repeat constructor; lia. }
  assert (length ts = Z.to_nat L) as Hts
    by (by apply length_zip_star).
  pose proof (length_first_occurrences_le ts) as Hu. fold u in Hu.
  split_and!.
  - unfold Py.len. rewrite <- (Forall2_length _ _ _ Hidx). lia.
  - intros id (k & Hk)%list_elem_of_lookup_1.
    destruct (Forall2_lookup_r _ _ _ _ _ Hidx Hk) as (t & _ & p & -> & Hp).
    apply lookup_lt_Some in Hp. lia.
  - lia.
  - assert (∀ t, t ∈ keys items records ↔ t ∈ ts) as Hkeys.
    { intros t. unfold keys. rewrite (Hitems records).
      rewrite <- (elem_of_first_occurrences ts t). fold u.
      rewrite (numbered_elem_of u records t Hnum).
      rewrite list_elem_of_fmap. split.
      - intros ([t' id] & -> & Hin%elem_of_map_to_list). by exists id.
      - intros [id Hid]. exists (t, id). split; [done|].
        by apply elem_of_map_to_list. }
    assert (∀ (i : nat) t x,
              t ∈ ts → t !! i = Some x →
              ∃ tab, tables !! i = Some tab ∧ x ∈ tab) as Hcol.
    { intros i t x (k & Hk)%list_elem_of_lookup_1 Hx.
      destruct (zip_star_lookup tables (Z.to_nat L) k ltac:(done) Hlens)
        as (t' & Ht' & Hall).
      { apply lookup_lt_Some in Hk. lia. }
      unfold ts in Hk. rewrite Hk in Ht'. injection Ht' as <-.
      destruct (Forall2_lookup_r _ _ _ _ _ Hall Hx) as (tab & Htab & Hin).
      exists tab. split; [done|]. by eapply list_elem_of_lookup_2. }
    destruct (get_record_size_struct_typed (keys items records) 3)
      as (size & structure & Hsize' & Hbound).
    + assert (∃ t, ts !! 0%nat = Some t) as [t Ht]
        by (apply lookup_lt_is_Some_2; lia).
      apply list_elem_of_lookup_2, Hkeys in Ht. intros E. rewrite E in Ht.
      by apply elem_of_nil in Ht.
    + lia.
    + apply Forall_forall. intros t Ht%Hkeys.
      by apply zip_star_length in Ht.
    + intros i Hi.
      set (column := _ <$> keys items records).
      assert (∃ (j : nat) tab ty, i = Z.of_nat j ∧ tables !! j = Some tab ∧
                                  get_type_size tab = Ok ty)
        as (j & tab & ty & -> & Htab & Hty).
      { destruct (decide (i = 0)) as [->|];
          [by exists 0%nat, t1, ty1|].
        destruct (decide (i = 1)) as [->|];
          [by exists 1%nat, t2, ty2|].
        assert (i = 2) as -> by lia. by exists 2%nat, t3, ty3. }
      destruct (get_type_size_subset column tab ty) as (ty' & Hty' & _);
        [| |done|by exists ty'].
      * unfold column. intros E%fmap_nil_inv.
        assert (∃ t, ts !! 0%nat = Some t) as [t Ht]
          by (apply lookup_lt_is_Some_2; lia).
        apply list_elem_of_lookup_2, Hkeys in Ht. rewrite E in Ht.
        by apply elem_of_nil in Ht.
      * intros x (t & -> & Ht%Hkeys)%list_elem_of_fmap.
        rewrite Nat2Z.id.
        pose proof (zip_star_length _ _ Ht) as Hlent.
        destruct (lookup_lt_is_Some_2 t j) as [x Hx].
        { apply lookup_lt_Some in Htab. simpl in *. lia. }
        rewrite Hx. simpl.
        destruct (Hcol j t x Ht Hx) as (tab' & Htab' & Hin). congruence.
    + exists size, structure. split; [done|]. lia.
Qed.

Lemma block_sizes_divide (L B : Z) :
  B ∈ block_sizes → L `mod` 8192 = 0 →
  L `mod` B = 0 ∧ (L `div` B) `mod` 16 = 0.
Proof.
  change block_sizes with [32; 64; 128; 256; 512].
  rewrite !elem_of_cons, elem_of_nil.
  intros [->|[->|[->|[->|[->|[]]]]]] HL;
    Z.div_mod_to_equations; lia.
Qed.

(** The script after the tables are read, on three tables of [L]
    values. *)
Lemma compile_runs (items : dict_order) (maxint : Z)
    (script category other_case : list Z) (L : Z) ty1 ty2 ty3 :
  valid_order items →
  Py.len script = L → Py.len category = L → Py.len other_case = L →
  0 < L ≤ 4294967296 → L `mod` 8192 = 0 → 32 * L < maxint →
  get_type_size script = Ok ty1 → get_type_size category = Ok ty2 →
  get_type_size other_case = Ok ty3 →
  ∃ out, compile items maxint script category other_case = Ok out.
Proof.
  intros Hitems H1 H2 H3 [HL HL'] Hmod Hmax Hty1 Hty2 Hty3.
  destruct (combine_three items script category other_case L ty1 ty2 ty3)
    as (index & records & Hrun & Hlen & Hids & Hn & record_size &
        record_struct & Hrs & Hr); [done..|].
  unfold compile. rewrite Hrun, Hrs. cbn [mbind result_bind].
  assert (index ≠ []) as Hne
    by (intros ->; unfold Py.len in Hlen; simpl in Hlen; lia).
  assert (∃ ty, get_type_size index = Ok ty) as [ty Hty].
  { destruct (min_Ok _ Hne) as (mn & _ & Hmn).
    destruct (max_Ok _ Hne) as (mx & _ & Hmx).
    rewrite (get_type_size_cases _ _ _ Hmn Hmx).
    destruct Hmn as [Hmn _], Hmx as [Hmx _]. apply Hids in Hmn, Hmx.
    repeat case_decide; eauto. lia. }
  destruct (search_outcome maxint index (Z.of_nat (size records)) record_size
              ty Hne Hty ltac:(lia)) as (_ & Hsearch & _).
  destruct Hsearch as (min_size & s1 & s2 & B & Hsearch & HB & Hs & _);
    [nia|].
  apply bind_Ok in Hsearch as (st & -> & Hbest).
  cbn [mbind result_bind]. rewrite Hbest. cbn [mbind result_bind].
  destruct (block_sizes_positive B HB) as (HB0 & HB16 & _).
  destruct (compress_scored index (Z.of_nat (size records)) record_size B ty
              Hne HB0 Hty ltac:(lia))
    as (s1' & s2' & size' & Hs' & _ & Hshape).
  destruct (scored_unique _ _ _ _ _ _ _ _ _ _ Hs Hs') as (<- & <- & <-).
  rewrite Hlen in Hshape.
  destruct (block_sizes_divide L B HB Hmod) as [HmodB Hmod16].
  destruct (Hshape HmodB) as [Hlen1 Hlen2].
  destruct Hs as (_ & ty1' & ty2' & Hty1' & Hty2' & _).
  destruct (print_table_None s1 "_pcre_ucd_stage1") as [_ Hp1].
  specialize (Hp1 ty1' Hty1'). rewrite Hlen1, decide_True in Hp1 by done.
  destruct Hp1 as (lines1 & -> & _). cbn [mbind result_bind].
  pose proof (print_table_Some s2 "_pcre_ucd_stage2" B ty2' Hty2' HB0
                ltac:(by right)) as Hp2.
  rewrite decide_True in Hp2 by done.
  destruct Hp2 as (lines2 & -> & _). cbn [mbind result_bind].
  by eexists.
Qed.

(** Once the three tables are read, the script prints its whole output
    without an error when they have one length, a multiple of 8192 that
    is not above 2^32, each of them has a type, and [sys.maxint] is above
    32 bytes for each code point. *)
Theorem compile_total (items : dict_order) (maxint : Z)
    (script category other_case : list Z) (L : Z) ty1 ty2 ty3 :
  valid_order items →
  Py.len script = L → Py.len category = L → Py.len other_case = L →
  0 < L ≤ 4294967296 → L `mod` 8192 = 0 → 32 * L < maxint →
  get_type_size script = Ok ty1 → get_type_size category = Ok ty2 →
  get_type_size other_case = Ok ty3 →
  ∃ out, compile items maxint script category other_case = Ok out.
Proof. apply compile_runs. Qed.

(** The theorem at three tables of 8192 values. *)
Lemma compile_total_witness :
  ∃ out,
    compile map_to_list (2 ^ 31 - 1)
            (replicate (Z.to_nat 8192) 9) (replicate (Z.to_nat 8192) 2)
            ((λ c, c `mod` 3 - 1) <$> Py.range 8192) = Ok out.
Proof.
  apply (compile_total map_to_list (2 ^ 31 - 1) _ _ _ 8192
           ("uschar"%string, 1) ("uschar"%string, 1)
           ("signed char"%string, 1)).
  - intros m. reflexivity.
  - vm_compute. reflexivity.
  - vm_compute. reflexivity.
  - vm_compute. reflexivity.
  - lia.
  - reflexivity.
  - reflexivity.
  - vm_compute. reflexivity.
  - vm_compute. reflexivity.
  - vm_compute. reflexivity.
Defined.

(** ** The values of the tables read, and the whole script *)














